(** * Settlement simulator: a shallow embedding of [Simulator.py]

    [Simulator.py] holds two programs.  The first one (accounts with a
    credit limit, institutions with a partial-settlement flag, transactions
    that settle themselves) is embedded in [Module AgentSim].  The second
    one (the staged pipeline: validation, matching, clearing, positioning,
    settlement) is embedded in [Module Euroclear].

    Numbers.  Python's [int] and [float] values are read as exact rationals
    ([Q]); the rounding of binary floating point is outside the model.
    Equality of amounts is therefore [Qeq] ([==]).  On integers that are
    not too large ([PyNum.exact]) this is what Python computes with either
    number type; statements about sums of balances and about round trips
    carry it as a hypothesis.
    [Module AgentSimFloat] reads the cash ledger on binary64 floats, to
    show what rounding does to it.

    Messages.  A message is read with the keys of its content; reading a
    key that is missing, which raises [KeyError] in Python, is not
    modelled.  [Euroclear.carries] states that the keys are there, which
    is the case for every message the stages send.

    Objects.  Python objects that are shared and mutated (accounts,
    institutions) live in a store (a list) and are referred to by their
    index.  Wall-clock timestamps and the formatted free text of log lines
    are not recorded; a log line keeps which agent logged which event about
    which subject. *)

From stdpp Require Import gmap strings list fin_maps pretty.
From Stdlib Require Import QArith Qround Lqa.
From Stdlib Require Floats.

Local Open Scope string_scope.
Local Open Scope list_scope.
Local Open Scope Q_scope.

(** ** Python numbers *)

Module PyNum.

(** [x >= y], [x > y], [x <= y] and [x < y] on numbers. *)
Definition geb (x y : Q) : bool := Qle_bool y x.
Definition gtb (x y : Q) : bool := negb (Qle_bool x y).
Definition leb (x y : Q) : bool := Qle_bool x y.
Definition ltb (x y : Q) : bool := negb (Qle_bool y x).

(** Truth value of a number in a condition: [if quantity]. *)
Definition truthy (x : Q) : bool := negb (Qeq_bool x 0).

(** [int(x)]: truncation toward zero. *)
Definition int (x : Q) : Z := Z.quot (Qnum x) (Zpos (Qden x)).


(** An integer of magnitude at most 2^50.  Python holds such a number
    without rounding as an [int] and as a [float], and adds or subtracts a
    few of them without rounding: every sum of up to eight of them is an
    integer of magnitude at most 2^53, which binary64 holds exactly. *)
Definition exact (x : Q) : bool :=
  Qeq_bool x (inject_Z (Qfloor x)) && (Z.abs (Qfloor x) <=? 2 ^ 50)%Z.

End PyNum.

(** ** Exceptions

    A Python call either returns or raises.  [Raised e a] keeps the state
    reached when the exception [e] left the function. *)

Inductive Result (A : Type) : Type :=
| Returned (a : A)
| Raised (exn : string) (a : A).
Arguments Returned {A} a.
Arguments Raised {A} exn a.

Definition result_state {A : Type} (r : Result A) : A :=
  match r with Returned a => a | Raised _ a => a end.

(** Sequencing: an exception raised by [r] ends the computation; [into]
    places the state it carries in the state of the caller. *)
Definition bind {A B : Type} (into : A -> B) (r : Result A) (k : A -> Result B)
  : Result B :=
  match r with
  | Returned a => k a
  | Raised e a => Raised e (into a)
  end.

(** ** The first program: accounts, institutions, self-settling transactions *)

Module AgentSim.

(** [log_event(message, agent_id, is_transaction)].  Every call appends to
    [activity_log]; the duplicate-suppressed [event_log] compares
    wall-clock timestamps and is not modelled. *)
Inductive AgentId : Type :=
| NumId (n : nat)
| StrId (s : string).

Record LogEntry : Type := mkLog { entry_agent : AgentId; entry_event : string }.

Record AccountAgent : Type := mkAccountAgent {
  accountID : nat;
  state : string;
  participant : nat;
  cashBalance : Q;
  securities : gmap string Q;
  creditLimit : Q
}.

(** [AccountAgent.__init__]: no securities at creation. *)
Definition new_AccountAgent (accountID participant : nat) (cashBalance creditLimit : Q)
  : AccountAgent :=
  mkAccountAgent accountID "Pending" participant cashBalance ∅ creditLimit.

Definition set_cashBalance (v : Q) (a : AccountAgent) : AccountAgent :=
  mkAccountAgent (accountID a) (state a) (participant a) v (securities a) (creditLimit a).

Definition set_creditLimit (v : Q) (a : AccountAgent) : AccountAgent :=
  mkAccountAgent (accountID a) (state a) (participant a) (cashBalance a) (securities a) v.

Definition set_securities (v : gmap string Q) (a : AccountAgent) : AccountAgent :=
  mkAccountAgent (accountID a) (state a) (participant a) (cashBalance a) v (creditLimit a).

Definition set_state (v : string) (a : AccountAgent) : AccountAgent :=
  mkAccountAgent (accountID a) v (participant a) (cashBalance a) (securities a) (creditLimit a).

(** [self.securities.get(securityType, 0)] *)
Definition holding (a : AccountAgent) (securityType : string) : Q :=
  default 0 (securities a !! securityType).

Definition checkSufficientCash (self : AccountAgent) (amount : Q) : bool :=
  PyNum.geb (cashBalance self + creditLimit self) amount.

Definition checkSufficientSecurities (self : AccountAgent) (securityType : string)
  (amount : Q) : bool :=
  PyNum.geb (holding self securityType) amount.

Definition getCreditLimit (self : AccountAgent) : Q := creditLimit self.
Definition getCashBalance (self : AccountAgent) : Q := cashBalance self.

(** A method of an account yields the account after the call, the value
    returned and the lines logged. *)
Definition Effect : Type := AccountAgent * Q * list LogEntry.

Definition updateSecurities (securityType : string) (amount : Q) (self : AccountAgent)
  : Effect :=
  let current_amount := holding self securityType in
  if PyNum.ltb (current_amount + amount) 0 then
    (self, 0, [mkLog (NumId (accountID self)) "ERROR: insufficient securities"])
  else
    (set_securities (<[securityType := current_amount + amount]> (securities self)) self,
     amount,
     [mkLog (NumId (accountID self)) "updated securities"]).

Definition updateCashBalance (amount : Q) (self : AccountAgent) : Effect :=
  let total_available := cashBalance self + creditLimit self in
  if PyNum.ltb amount 0 && PyNum.ltb (total_available + amount) 0 then
    (self, 0, [mkLog (NumId (accountID self)) "ERROR: insufficient funds"])
  else
    let self' :=
      if PyNum.geb (cashBalance self + amount) 0 then
        set_cashBalance (cashBalance self + amount) self
      else
        let remaining := amount + cashBalance self in
        set_creditLimit (creditLimit self + remaining) (set_cashBalance 0 self) in
    (self', amount, [mkLog (NumId (accountID self)) "updated cash balance"]).

Definition end_account (self : AccountAgent) : AccountAgent * list LogEntry :=
  if String.eqb (state self) "Ended" then
    (self, [mkLog (NumId (accountID self)) "ERROR: Attempt to end an already ended Account"])
  else
    (set_state "Ended" self,
     [mkLog (NumId (accountID self)) "Account is ending";
      mkLog (NumId (accountID self)) "Account ended"]).

(** The ledger operations of an account, as a caller can issue them. *)
Inductive LedgerOp : Type :=
| UpdateCash (amount : Q)
| UpdateSecurities (securityType : string) (amount : Q).

Definition apply_op (a : AccountAgent) (op : LedgerOp) : AccountAgent :=
  match op with
  | UpdateCash amount => (updateCashBalance amount a).1.1
  | UpdateSecurities ty amount => (updateSecurities ty amount a).1.1
  end.

(** The account after each operation of a sequence, in order. *)
Fixpoint history (a : AccountAgent) (ops : list LedgerOp) : list AccountAgent :=
  match ops with
  | [] => []
  | op :: ops' => apply_op a op :: history (apply_op a op) ops'
  end.

(** The invariant of an account: cash plus credit limit is not negative
    and no holding is negative. *)
Definition balance_invariant (a : AccountAgent) : Prop :=
  0 <= cashBalance a + creditLimit a
  /\ map_Forall (fun _ q => 0 <= q) (securities a).

Record InstitutionAgent : Type := mkInstitutionAgent {
  institutionID : nat;
  allow_partial : bool;
  accounts : list nat
}.

Definition new_InstitutionAgent (institutionID : nat) : InstitutionAgent :=
  mkInstitutionAgent institutionID true [].

Definition opt_out_partial (self : InstitutionAgent) : InstitutionAgent * list LogEntry :=
  if negb (allow_partial self) then
    (self, [mkLog (NumId (institutionID self)) "ERROR: already opted out of partial settlements"])
  else
    (mkInstitutionAgent (institutionID self) false (accounts self),
     [mkLog (NumId (institutionID self)) "opted out of partial settlements"]).

Definition opt_in_partial (self : InstitutionAgent) : InstitutionAgent * list LogEntry :=
  if allow_partial self then
    (self, [mkLog (NumId (institutionID self)) "ERROR: already opted in for partial settlements"])
  else
    (mkInstitutionAgent (institutionID self) true (accounts self),
     [mkLog (NumId (institutionID self)) "opted in for partial settlements"]).

Definition add_account (account : nat) (self : InstitutionAgent)
  : InstitutionAgent * list LogEntry :=
  if bool_decide (account ∈ accounts self) then
    (self, [mkLog (NumId (institutionID self)) "ERROR: Duplicate account addition attempt"])
  else
    (mkInstitutionAgent (institutionID self) (allow_partial self) (accounts self ++ [account]),
     [mkLog (NumId (institutionID self)) "added Account"]).

(** [InstitutionAgent.step]; [toggle] is the outcome of
    [random.random() < 0.1]. *)
Definition institution_step (toggle : bool) (self : InstitutionAgent)
  : InstitutionAgent * list LogEntry :=
  let l0 := [mkLog (NumId (institutionID self)) "stepping"] in
  if toggle then
    let '(self', l) :=
      if allow_partial self then opt_out_partial self else opt_in_partial self in
    (self', l0 ++ l)
  else (self, l0).

Record InstructionAgent : Type := mkInstructionAgent {
  uniqueID : string;
  motherID : string;
  securityType : string;
  amount : Q;
  isChild : bool;
  status : string;
  role : string;
  account : nat
}.

Record TransactionAgent : Type := mkTransactionAgent {
  TransactionID : nat;
  tx_state : string;
  seller : InstructionAgent;
  buyer : InstructionAgent;
  tx_amount : Q;
  linkcode : nat
}.

Definition set_tx_state (v : string) (t : TransactionAgent) : TransactionAgent :=
  mkTransactionAgent (TransactionID t) v (seller t) (buyer t) (tx_amount t) (linkcode t).

Record SettlementModel : Type := mkModel {
  participants : list InstitutionAgent;
  model_accounts : list AccountAgent;
  activity_log : list LogEntry
}.

Definition log_event (message : string) (agent_id : AgentId) (m : SettlementModel)
  : SettlementModel :=
  mkModel (participants m) (model_accounts m) (activity_log m ++ [mkLog agent_id message]).

(** A method call on the account object stored at [r]. *)
Definition call_account (r : nat) (f : AccountAgent -> Effect) (m : SettlementModel)
  : SettlementModel * Q :=
  match model_accounts m !! r with
  | Some a =>
      let '(a', ret, lines) := f a in
      (mkModel (participants m) (<[r := a']> (model_accounts m)) (activity_log m ++ lines),
       ret)
  | None => (m, 0)
  end.

(** A method call on the institution object stored at [r]. *)
Definition call_institution (r : nat)
  (f : InstitutionAgent -> InstitutionAgent * list LogEntry) (m : SettlementModel)
  : SettlementModel :=
  match participants m !! r with
  | Some i =>
      let '(i', lines) := f i in
      mkModel (<[r := i']> (participants m)) (model_accounts m) (activity_log m ++ lines)
  | None => m
  end.

Definition bool_num (b : bool) : Q := if b then 1 else 0.

(** [InstructionAgent.createChildren].  An [InstructionAgent] has no
    [model] attribute, so [self.model.schedule.add] raises after the
    account was updated. *)
Definition createChildren (self : InstructionAgent) (m : SettlementModel)
  : Result SettlementModel :=
  match model_accounts m !! account self with
  | None => Returned m
  | Some acct =>
      if String.eqb (role self) "buyer" && negb (checkSufficientCash acct (amount self)) then
        let available_cash := getCashBalance acct + getCreditLimit acct in
        if PyNum.gtb available_cash 0 then
          let m1 := (call_account (account self) (updateCashBalance (- available_cash)) m).1 in
          Raised "AttributeError" m1
        else Returned m
      else if String.eqb (role self) "seller"
              && negb (checkSufficientSecurities acct (securityType self) (amount self)) then
        let available_securities :=
          bool_num (checkSufficientSecurities acct (securityType self) (amount self)) in
        if PyNum.gtb available_securities 0 then
          let m1 := (call_account (account self)
                       (updateSecurities (securityType self) (- available_securities)) m).1 in
          Raised "AttributeError" m1
        else Returned m
      else Returned m
  end.

Definition checkSecurities (self : InstructionAgent) : bool := String.eqb (role self) "seller".
Definition checkCash (self : InstructionAgent) : bool := String.eqb (role self) "buyer".

Definition settleable (st : string) : bool :=
  String.eqb st "Matched" || String.eqb st "Partially_Settled".

Definition set_status (v : string) (i : InstructionAgent) : InstructionAgent :=
  mkInstructionAgent (uniqueID i) (motherID i) (securityType i) (amount i) (isChild i) v
    (role i) (account i).

(** [InstructionAgent.settle] *)
Definition InstructionAgent_settle (self : InstructionAgent) (m : SettlementModel)
  : Result (InstructionAgent * SettlementModel) :=
  match model_accounts m !! account self with
  | None => Returned (self, m)
  | Some acct =>
      if String.eqb (role self) "seller" then
        if checkSufficientSecurities acct (securityType self) (amount self) then
          let m1 := (call_account (account self)
                       (updateSecurities (securityType self) (- amount self)) m).1 in
          Returned (set_status "settled" self, m1)
        else Returned (set_status "failed" self, m)
      else if String.eqb (role self) "buyer" then
        if checkSufficientCash acct (amount self) then
          let m1 := (call_account (account self) (updateCashBalance (- amount self)) m).1 in
          let m2 := (call_account (account self)
                       (updateSecurities (securityType self) (amount self)) m1).1 in
          Returned (set_status "settled" self, m2)
        else
          bind (fun m' => (self, m')) (createChildren self m)
            (fun m1 => Returned (set_status "failed" self, m1))
      else Returned (self, m)
  end.

(** [TransactionAgent.validate] *)
Definition TransactionAgent_validate (self : TransactionAgent) (m : SettlementModel)
  : TransactionAgent * SettlementModel :=
  if String.eqb (tx_state self) "Pending" then
    (set_tx_state "Validated" self, log_event "validated" (NumId (TransactionID self)) m)
  else (self, m).

(** [TransactionAgent.match] *)
Definition TransactionAgent_match (self : TransactionAgent) (m : SettlementModel)
  : TransactionAgent * SettlementModel :=
  let m := log_event "attempting to find a match" (NumId (TransactionID self)) m in
  if String.eqb (tx_state self) "Validated"
     && (String.eqb (role (buyer self)) "buyer" && String.eqb (role (seller self)) "seller")
  then (set_tx_state "Matched" self, log_event "matched" (NumId (TransactionID self)) m)
  else (self, m).

(** [TransactionAgent.settle] *)
Definition TransactionAgent_settle (self : TransactionAgent) (m : SettlementModel)
  : Result (TransactionAgent * SettlementModel) :=
  let m := log_event "attempting to settle" (NumId (TransactionID self)) m in
  if settleable (tx_state self) then
    if checkCash (buyer self) && checkSecurities (seller self) then
      let '(m1, buyer_settled) :=
        call_account (account (buyer self)) (updateCashBalance (- tx_amount self)) m in
      let '(m2, seller_settled) :=
        call_account (account (seller self))
          (updateSecurities (securityType (seller self)) (- tx_amount self)) m1 in
      if PyNum.gtb buyer_settled 0 && PyNum.gtb seller_settled 0 then
        Returned (set_tx_state "Settled" self,
                  log_event "settled fully" (NumId (TransactionID self)) m2)
      else
        Returned (set_tx_state "Failed" self,
                  log_event "ERROR: failed to settle" (NumId (TransactionID self)) m2)
    else
      bind (fun m' => (self, m')) (createChildren (buyer self) m) (fun m1 =>
      bind (fun m' => (self, m')) (createChildren (seller self) m1) (fun m2 =>
      Returned (set_tx_state "Partially_Settled" self,
                log_event "partially settled" (NumId (TransactionID self)) m2)))
  else Returned (self, m).

(** [TransactionAgent.step].  A transaction in state [Exists] calls
    [self.transition], which no class defines. *)
Definition TransactionAgent_step (self : TransactionAgent) (m : SettlementModel)
  : Result (TransactionAgent * SettlementModel) :=
  let m := log_event "executing step" (NumId (TransactionID self)) m in
  if String.eqb (tx_state self) "Exists" then Raised "AttributeError" (self, m)
  else
    let '(self, m) :=
      if String.eqb (tx_state self) "Pending" then TransactionAgent_validate self m
      else (self, m) in
    let '(self, m) :=
      if String.eqb (tx_state self) "Validated" then TransactionAgent_match self m
      else (self, m) in
    if settleable (tx_state self) then TransactionAgent_settle self m
    else Returned (self, m).

Definition total_cash (m : SettlementModel) : Q :=
  foldr Qplus 0 (cashBalance <$> model_accounts m).

Definition total_holdings (securityType : string) (m : SettlementModel) : Q :=
  foldr Qplus 0 ((fun a => holding a securityType) <$> model_accounts m).

(** Accounts and operations whose numbers are [PyNum.exact]. *)
Definition exact_account (a : AccountAgent) : Prop :=
  PyNum.exact (cashBalance a) = true
  /\ PyNum.exact (creditLimit a) = true
  /\ map_Forall (fun _ q => PyNum.exact q = true) (securities a).

Definition exact_op (op : LedgerOp) : Prop :=
  match op with
  | UpdateCash amount => PyNum.exact amount = true
  | UpdateSecurities _ amount => PyNum.exact amount = true
  end.

(** No holding is negative. *)
Definition holdings_invariant (a : AccountAgent) : Prop :=
  map_Forall (fun _ q => 0 <= q) (securities a).

End AgentSim.

(** ** Python dictionaries in insertion order *)

Module Dict.

Section Ops.
Context {V : Type}.

Fixpoint get (k : string) (d : list (string * V)) : option V :=
  match d with
  | [] => None
  | (k', v) :: d' => if String.eqb k' k then Some v else get k d'
  end.

Definition mem (k : string) (d : list (string * V)) : bool :=
  match get k d with Some _ => true | None => false end.

(** [d[k] = v]: an existing key keeps its place, a new key goes last. *)
Fixpoint set (k : string) (v : V) (d : list (string * V)) : list (string * V) :=
  match d with
  | [] => [(k, v)]
  | (k', v') :: d' =>
      if String.eqb k' k then (k, v) :: d' else (k', v') :: set k v d'
  end.

(** [del d[k]] *)
Definition del (k : string) (d : list (string * V)) : list (string * V) :=
  filter (fun kv => kv.1 ≠ k) d.

Definition keys (d : list (string * V)) : list string := fst <$> d.

End Ops.

End Dict.

(** ** The second program: the staged settlement pipeline *)

Module Euroclear.

(** [Logger.log(step, agent_name, event, tx_id, details)]: a row without
    its timestamp and its formatted details.  The header row of the CSV is
    not part of the list. *)
Record LogRow : Type := mkRow {
  row_step : nat;
  row_agent : string;
  row_event : string;
  row_tx : string
}.

Record Message : Type := mkMessage {
  sender : string;
  msg_type : string;
  content : list (string * string)
}.

Record Account : Type := mkAccount {
  account_type : string;
  balance : Q;
  min_balance : Q
}.

Definition deposit (amount : Q) (self : Account) : Account :=
  mkAccount (account_type self) (balance self + amount) (min_balance self).

Definition check_balance (self : Account) (amount : Q) : bool :=
  PyNum.geb (balance self - amount) (min_balance self).

Definition withdraw (amount : Q) (self : Account) : Account * bool :=
  if check_balance self amount then
    (mkAccount (account_type self) (balance self - amount) (min_balance self), true)
  else (self, false).

Record SettlementInstruction : Type := mkInstruction {
  instruction_id : string;
  transaction_id : string;
  instruction_type : string;
  security_id : string;
  quantity : Q;
  price : Q;
  sendingInstitution : nat;
  receivingInstitution : nat;
  status : string
}.

Definition set_status (v : string) (i : SettlementInstruction) : SettlementInstruction :=
  mkInstruction (instruction_id i) (transaction_id i) (instruction_type i) (security_id i)
    (quantity i) (price i) (sendingInstitution i) (receivingInstitution i) v.

Definition validate (self : SettlementInstruction) : bool :=
  PyNum.gtb (quantity self) 0 && PyNum.gtb (price self) 0.

(** [status not in ["Canceled", "Settled"]] *)
Definition live (st : string) : bool :=
  negb (String.eqb st "Canceled" || String.eqb st "Settled").

Definition cancel (self : SettlementInstruction) : SettlementInstruction :=
  if live (status self) then set_status "Canceled" self else self.

Record CancelInstruction : Type := mkCancel {
  cancel_id : string;
  cancel_transaction_id : string;
  cancel_sendingInstitution : nat;
  cancel_status : string
}.

(** What the [instructions] queue holds. *)
Inductive QueueItem : Type :=
| Instruction (i : SettlementInstruction)
| Cancellation (c : CancelInstruction).

Record ClearingReport : Type := mkClearingReport {
  cr_transaction_id : string;
  cr_payer : nat;
  cr_deliverer : nat;
  cr_quantity : Q;
  cr_price : Q;
  cr_net_amount : Q;
  cr_risk : Q
}.

Record PositioningReport : Type := mkPositioningReport {
  pr_transaction_id : string;
  pr_payer : nat;
  pr_deliverer : nat;
  pr_quantity : Q;
  pr_net_amount : Q
}.

Record SettlementConfirmation : Type := mkConfirmation {
  sc_transaction_id : string;
  settlement_status : string;
  adjusted_quantity : Q;
  adjusted_net_amount : Q
}.

Record InstitutionAgent : Type := mkInstitution {
  unique_id : nat;
  name : string;
  cash_account : Account;
  security_account : Account;
  inbox : list Message
}.

Definition set_inbox (v : list Message) (i : InstitutionAgent) : InstitutionAgent :=
  mkInstitution (unique_id i) (name i) (cash_account i) (security_account i) v.

(** The two accounts of an institution. *)
Inductive AccountKind : Type := Cash | Security.

Definition get_account (k : AccountKind) (i : InstitutionAgent) : Account :=
  match k with Cash => cash_account i | Security => security_account i end.

Definition put_account (k : AccountKind) (a : Account) (i : InstitutionAgent)
  : InstitutionAgent :=
  match k with
  | Cash => mkInstitution (unique_id i) (name i) a (security_account i) (inbox i)
  | Security => mkInstitution (unique_id i) (name i) (cash_account i) a (inbox i)
  end.

(** [{"Payment": ..., "Security": ...}]; [None] while a leg is missing.
    A leg stored under any other key is never read again. *)
Record Pair : Type := mkPair {
  pair_Payment : option SettlementInstruction;
  pair_Security : option SettlementInstruction
}.

Record SettlementModel : Type := mkModel {
  current_step : nat;
  logger : list LogRow;
  institutions : list InstitutionAgent;
  instructions : list QueueItem;
  validated_instructions : list SettlementInstruction;
  matched_pairs : list (string * Pair);
  clearing_reports : list ClearingReport;
  positioning_reports : list PositioningReport;
  settlement_confirmations : list SettlementConfirmation;
  tx_counter : nat;
  total_possible_net : Q
}.

Definition set_current_step (v : nat) (m : SettlementModel) : SettlementModel :=
  mkModel v (logger m) (institutions m) (instructions m) (validated_instructions m)
    (matched_pairs m) (clearing_reports m) (positioning_reports m)
    (settlement_confirmations m) (tx_counter m) (total_possible_net m).

Definition set_logger (v : list LogRow) (m : SettlementModel) : SettlementModel :=
  mkModel (current_step m) v (institutions m) (instructions m) (validated_instructions m)
    (matched_pairs m) (clearing_reports m) (positioning_reports m)
    (settlement_confirmations m) (tx_counter m) (total_possible_net m).

Definition set_institutions (v : list InstitutionAgent) (m : SettlementModel)
  : SettlementModel :=
  mkModel (current_step m) (logger m) v (instructions m) (validated_instructions m)
    (matched_pairs m) (clearing_reports m) (positioning_reports m)
    (settlement_confirmations m) (tx_counter m) (total_possible_net m).

Definition set_instructions (v : list QueueItem) (m : SettlementModel) : SettlementModel :=
  mkModel (current_step m) (logger m) (institutions m) v (validated_instructions m)
    (matched_pairs m) (clearing_reports m) (positioning_reports m)
    (settlement_confirmations m) (tx_counter m) (total_possible_net m).

Definition set_validated_instructions (v : list SettlementInstruction)
  (m : SettlementModel) : SettlementModel :=
  mkModel (current_step m) (logger m) (institutions m) (instructions m) v
    (matched_pairs m) (clearing_reports m) (positioning_reports m)
    (settlement_confirmations m) (tx_counter m) (total_possible_net m).

Definition set_matched_pairs (v : list (string * Pair)) (m : SettlementModel)
  : SettlementModel :=
  mkModel (current_step m) (logger m) (institutions m) (instructions m)
    (validated_instructions m) v (clearing_reports m) (positioning_reports m)
    (settlement_confirmations m) (tx_counter m) (total_possible_net m).

Definition set_clearing_reports (v : list ClearingReport) (m : SettlementModel)
  : SettlementModel :=
  mkModel (current_step m) (logger m) (institutions m) (instructions m)
    (validated_instructions m) (matched_pairs m) v (positioning_reports m)
    (settlement_confirmations m) (tx_counter m) (total_possible_net m).

Definition set_positioning_reports (v : list PositioningReport) (m : SettlementModel)
  : SettlementModel :=
  mkModel (current_step m) (logger m) (institutions m) (instructions m)
    (validated_instructions m) (matched_pairs m) (clearing_reports m) v
    (settlement_confirmations m) (tx_counter m) (total_possible_net m).

Definition set_settlement_confirmations (v : list SettlementConfirmation)
  (m : SettlementModel) : SettlementModel :=
  mkModel (current_step m) (logger m) (institutions m) (instructions m)
    (validated_instructions m) (matched_pairs m) (clearing_reports m)
    (positioning_reports m) v (tx_counter m) (total_possible_net m).

Definition set_tx_counter (v : nat) (m : SettlementModel) : SettlementModel :=
  mkModel (current_step m) (logger m) (institutions m) (instructions m)
    (validated_instructions m) (matched_pairs m) (clearing_reports m)
    (positioning_reports m) (settlement_confirmations m) v (total_possible_net m).

Definition set_total_possible_net (v : Q) (m : SettlementModel) : SettlementModel :=
  mkModel (current_step m) (logger m) (institutions m) (instructions m)
    (validated_instructions m) (matched_pairs m) (clearing_reports m)
    (positioning_reports m) (settlement_confirmations m) (tx_counter m) v.

(** [self.model.logger.log(self.model.current_step, agent, event, tx, ...)] *)
Definition log (agent event tx : string) (m : SettlementModel) : SettlementModel :=
  set_logger (logger m ++ [mkRow (current_step m) agent event tx]) m.

(** A mutation of the institution object stored at [r]. *)
Definition update_institution (r : nat) (f : InstitutionAgent -> InstitutionAgent)
  (m : SettlementModel) : SettlementModel :=
  match institutions m !! r with
  | Some i => set_institutions (<[r := f i]> (institutions m)) m
  | None => m
  end.

(** [send_message]: append to the inbox of the institution stored at
    [recipient]. *)
Definition send_message (from : string) (recipient : nat) (msg_type : string)
  (content : list (string * string)) (m : SettlementModel) : SettlementModel :=
  update_institution recipient
    (fun i => set_inbox (inbox i ++ [mkMessage from msg_type content]) i) m.

(** Account methods called through an institution of the store. *)
Definition acct_deposit (r : nat) (k : AccountKind) (amount : Q) (m : SettlementModel)
  : SettlementModel :=
  update_institution r (fun i => put_account k (deposit amount (get_account k i)) i) m.

Definition acct_withdraw (r : nat) (k : AccountKind) (amount : Q) (m : SettlementModel)
  : SettlementModel * bool :=
  match institutions m !! r with
  | Some i =>
      let '(a, ok) := withdraw amount (get_account k i) in
      (set_institutions (<[r := put_account k a i]> (institutions m)) m, ok)
  | None => (m, false)
  end.

(** A loop whose body may raise: the exception ends the loop. *)
Fixpoint for_each {A : Type} (body : A -> SettlementModel -> Result SettlementModel)
  (l : list A) (m : SettlementModel) : Result SettlementModel :=
  match l with
  | [] => Returned m
  | x :: l' =>
      match body x m with
      | Returned m' => for_each body l' m'
      | Raised e m' => Raised e m'
      end
  end.

(** *** InstitutionAgent *)

Definition lookup_str (k : string) (d : list (string * string)) : string :=
  default "" (Dict.get k d).

Definition process_message (self_name : string) (m : SettlementModel) (msg : Message)
  : SettlementModel :=
  if String.eqb (msg_type msg) "validation_result" then
    if String.eqb (lookup_str "status" (content msg)) "Invalid" then
      log self_name "ReceivedInvalidation" (lookup_str "instruction_id" (content msg)) m
    else
      log self_name "ReceivedValidation" (lookup_str "instruction_id" (content msg)) m
  else if String.eqb (msg_type msg) "settlement_confirmation" then
    log self_name "SettlementConfirmation" (lookup_str "transaction_id" (content msg)) m
  else m.

(** [while self.inbox: msg = self.inbox.pop(0) ...] *)
Definition process_messages (self : nat) (m : SettlementModel) : SettlementModel :=
  match institutions m !! self with
  | Some i => foldl (process_message (name i)) (update_institution self (set_inbox []) m) (inbox i)
  | None => m
  end.

Definition item_pending (self : nat) (it : QueueItem) : option string :=
  match it with
  | Instruction i =>
      if Nat.eqb (sendingInstitution i) self && live (status i)
      then Some (transaction_id i) else None
  | Cancellation c =>
      if Nat.eqb (cancel_sendingInstitution c) self && live (cancel_status c)
      then Some (cancel_transaction_id c) else None
  end.

Definition pending_tx (self : nat) (m : SettlementModel) : list string :=
  omap (item_pending self) (instructions m)
  ++ omap (fun i => item_pending self (Instruction i)) (validated_instructions m).

(** [f"TX-{self.model.tx_counter}"] *)
Definition tx_name (n : nat) : string := "TX-" +:+ pretty n.

(** [InstitutionAgent.step].  The random draws are arguments:
    [cancel_choice] is the transaction picked for cancellation when the
    cancellation draw succeeds, [initiate] the counterparty, quantity and
    price picked when the initiation draw succeeds. *)
Definition institution_step (self : nat) (cancel_choice : option string)
  (initiate : option (nat * Q * Q)) (m : SettlementModel) : SettlementModel :=
  match institutions m !! self with
  | None => m
  | Some me =>
      let m1 := process_messages self m in
      let m2 :=
        match cancel_choice with
        | Some tx_to_cancel =>
            if bool_decide (tx_to_cancel ∈ pending_tx self m1) then
              let cancel_instr := mkCancel ("CANCEL-" +:+ tx_to_cancel) tx_to_cancel self "New" in
              log (name me) "IssuedCancellation" tx_to_cancel
                (set_instructions (instructions m1 ++ [Cancellation cancel_instr]) m1)
            else m1
        | None => m1
        end in
      match initiate with
      | Some (counterparty, quantity, price) =>
          if bool_decide (counterparty < length (institutions m2))%nat
             && negb (Nat.eqb counterparty self) then
            let tx_id := tx_name (tx_counter m2) in
            let m3 := set_tx_counter (tx_counter m2 + 1) m2 in
            let payment_instr :=
              mkInstruction (tx_id +:+ "-P") tx_id "Payment" "SEC-XYZ" quantity price
                self counterparty "New" in
            let security_instr :=
              mkInstruction (tx_id +:+ "-S") tx_id "Security" "SEC-XYZ" quantity price
                counterparty self "New" in
            log (name me) "InitiatedTransaction" tx_id
              (set_instructions
                 (instructions m3 ++ [Instruction payment_instr; Instruction security_instr]) m3)
          else m2
      | None => m2
      end
  end.

(** *** ValidationAgent *)

Definition cancel_tx (tx : string) (instr : SettlementInstruction) : SettlementInstruction :=
  if String.eqb (transaction_id instr) tx && live (status instr) then cancel instr else instr.

Definition cancel_item (tx : string) (it : QueueItem) : QueueItem :=
  match it with
  | Instruction i => Instruction (cancel_tx tx i)
  | Cancellation c => Cancellation c
  end.

(** [process_cancel_instruction].  The legs held in the matched pair are
    canceled and the pair is deleted; nothing else refers to those legs, so
    only the deletion is visible. *)
Definition process_cancel_instruction (cancel_instr : CancelInstruction)
  (m : SettlementModel) : SettlementModel :=
  let tx := cancel_transaction_id cancel_instr in
  let m1 := set_instructions (cancel_item tx <$> instructions m) m in
  let m2 := set_validated_instructions (cancel_tx tx <$> validated_instructions m1) m1 in
  let m3 := if Dict.mem tx (matched_pairs m2)
            then set_matched_pairs (Dict.del tx (matched_pairs m2)) m2 else m2 in
  log "ValidationAgent" "ProcessedCancellation" tx m3.

Definition is_cancellation (it : QueueItem) : bool :=
  match it with Cancellation _ => true | Instruction _ => false end.

Definition cancel_pass (m : SettlementModel) (it : QueueItem) : SettlementModel :=
  match it with
  | Cancellation c => process_cancel_instruction c m
  | Instruction _ => m
  end.

Definition validate_item (m : SettlementModel) (it : QueueItem) : SettlementModel :=
  match it with
  | Cancellation _ => m
  | Instruction instr =>
      if String.eqb (status instr) "Canceled" then
        log "ValidationAgent" "SkippedCanceledInstruction" (instruction_id instr) m
      else if validate instr then
        let m1 := set_validated_instructions (validated_instructions m ++ [instr]) m in
        let m2 := send_message "ValidationAgent" (sendingInstitution instr) "validation_result"
                    [("instruction_id", instruction_id instr); ("status", "Valid")] m1 in
        log "ValidationAgent" "ValidatedInstruction" (instruction_id instr) m2
      else
        let m1 := send_message "ValidationAgent" (sendingInstitution instr) "validation_result"
                    [("instruction_id", instruction_id instr); ("status", "Invalid")] m in
        log "ValidationAgent" "ValidatedInstruction" (instruction_id instr) m1
  end.

(** [ValidationAgent.step].  The first loop runs over the queue as it was
    on entry; [remaining_instructions] collects the same objects, so it
    holds them with the status they have once every cancellation ran. *)
Definition validation_step (m : SettlementModel) : SettlementModel :=
  let m1 := foldl cancel_pass m (instructions m) in
  let remaining_instructions :=
    List.filter (fun it => negb (is_cancellation it)) (instructions m1) in
  let m2 := set_instructions remaining_instructions m1 in
  match instructions m2 with
  | [] => m2
  | new_instr => foldl validate_item (set_instructions [] m2) new_instr
  end.

(** Views of the queue, used to state what [validation_step] does: the
    transactions named by the queued cancellations, the queued settlement
    instructions, an instruction once every cancellation of a list was
    applied to it, and the notice sent for an instruction. *)
Definition queued_cancellations (q : list QueueItem) : list string :=
  omap (fun it => match it with
                  | Cancellation c => Some (cancel_transaction_id c)
                  | Instruction _ => None
                  end) q.

Definition queued_instructions (q : list QueueItem) : list SettlementInstruction :=
  omap (fun it => match it with
                  | Instruction i => Some i
                  | Cancellation _ => None
                  end) q.

Definition cancel_all (txs : list string) (instr : SettlementInstruction)
  : SettlementInstruction :=
  foldl (fun i tx => cancel_tx tx i) instr txs.

Definition cancel_item_all (txs : list string) (it : QueueItem) : QueueItem :=
  foldl (fun it tx => cancel_item tx it) it txs.

(** The rows logged for a list of cancellations and for a list of
    instructions met by the validation loop. *)
Definition cancel_rows (step : nat) (txs : list string) : list LogRow :=
  (fun tx => mkRow step "ValidationAgent" "ProcessedCancellation" tx) <$> txs.

Definition validation_row (step : nat) (instr : SettlementInstruction) : LogRow :=
  mkRow step "ValidationAgent"
    (if String.eqb (status instr) "Canceled"
     then "SkippedCanceledInstruction" else "ValidatedInstruction")
    (instruction_id instr).

Definition validation_notice (instr : SettlementInstruction) : Message :=
  mkMessage "ValidationAgent" "validation_result"
    [("instruction_id", instruction_id instr);
     ("status", if validate instr then "Valid" else "Invalid")].

(** *** MatchingAgent *)

Definition empty_pair : Pair := mkPair None None.

(** [pair[instr.instruction_type] = instr] *)
Definition set_slot (instr : SettlementInstruction) (pair : Pair) : Pair :=
  if String.eqb (instruction_type instr) "Payment" then
    mkPair (Some instr) (pair_Security pair)
  else if String.eqb (instruction_type instr) "Security" then
    mkPair (pair_Payment pair) (Some instr)
  else pair.

Definition insert_leg (pairs : list (string * Pair)) (instr : SettlementInstruction)
  : list (string * Pair) :=
  if String.eqb (status instr) "Canceled" then pairs
  else
    let tx := transaction_id instr in
    let pairs1 := if Dict.mem tx pairs then pairs else Dict.set tx empty_pair pairs in
    Dict.set tx (set_slot instr (default empty_pair (Dict.get tx pairs1))) pairs1.

Definition is_complete (pair : Pair) : bool :=
  match pair_Payment pair, pair_Security pair with
  | Some p, Some s =>
      negb (String.eqb (status p) "Canceled") && negb (String.eqb (status s) "Canceled")
  | _, _ => false
  end.

(** The slots after the first loop of [MatchingAgent.step]. *)
Definition fill_slots (m : SettlementModel) : list (string * Pair) :=
  foldl insert_leg (matched_pairs m) (validated_instructions m).

(** The last validated instruction of transaction [tx] and leg kind [ty]
    that is not Canceled, if there is one. *)
Definition latest_leg (ty tx : string) (l : list SettlementInstruction)
  : option SettlementInstruction :=
  last (filter (fun i => status i <> "Canceled" /\ transaction_id i = tx
                         /\ instruction_type i = ty) l).

(** The legs held for [tx], none if the table has no entry. *)
Definition legs_of (tx : string) (pairs : list (string * Pair)) : Pair :=
  default empty_pair (Dict.get tx pairs).

Definition matching_step (m : SettlementModel) : SettlementModel :=
  let m1 := set_validated_instructions [] (set_matched_pairs (fill_slots m) m) in
  let complete := filter (fun kv => is_complete kv.2 = true) (matched_pairs m1) in
  log "MatchingAgent" "MatchedTransactions" "" (set_matched_pairs complete m1).

(** *** ClearingAgent *)

Definition risk_factor : Q := 5 # 100.

Definition drop_pair (tx : string) (m : SettlementModel) : SettlementModel :=
  set_matched_pairs (Dict.del tx (matched_pairs m)) m.

(** One turn of the loop of [ClearingAgent.step]; reading [.status] of a
    missing leg raises. *)
Definition clear_pair (entry : string * Pair) (m : SettlementModel)
  : Result SettlementModel :=
  let '(tx, legs) := entry in
  let skip := drop_pair tx (log "ClearingAgent" "CanceledPair" tx m) in
  match pair_Payment legs with
  | None => Raised "AttributeError" m
  | Some payment =>
      if String.eqb (status payment) "Canceled" then Returned skip
      else
        match pair_Security legs with
        | None => Raised "AttributeError" m
        | Some security =>
            if String.eqb (status security) "Canceled" then Returned skip
            else
              let net_amount := quantity payment * price payment in
              let risk := net_amount * risk_factor in
              let report :=
                mkClearingReport tx (sendingInstitution payment) (sendingInstitution security)
                  (quantity payment) (price payment) net_amount risk in
              let m1 := set_clearing_reports (clearing_reports m ++ [report]) m in
              let m2 := set_total_possible_net (total_possible_net m1 + net_amount) m1 in
              Returned (drop_pair tx (log "ClearingAgent" "ClearingReport" tx m2))
        end
  end.

Definition clearing_step (m : SettlementModel) : Result SettlementModel :=
  bind id (for_each clear_pair (matched_pairs m) m)
    (fun m' => Returned (log "ClearingAgent" "ClearingComplete" "" m')).

(** *** PositioningAgent *)

Definition position_report (m : SettlementModel) (report : ClearingReport)
  : SettlementModel :=
  let pos_report :=
    mkPositioningReport (cr_transaction_id report) (cr_payer report) (cr_deliverer report)
      (cr_quantity report) (cr_net_amount report) in
  log "PositioningAgent" "PositioningReport" (cr_transaction_id report)
    (set_positioning_reports (positioning_reports m ++ [pos_report]) m).

Definition positioning_step (m : SettlementModel) : SettlementModel :=
  let m1 := foldl position_report m (clearing_reports m) in
  log "PositioningAgent" "PositioningComplete" "" (set_clearing_reports [] m1).

(** *** SettlementAgent *)

(** The cash-sufficiency block of [SettlementAgent.step]: the report is
    skipped, or the division by [price] raises, or processing goes on with
    the (possibly adjusted) net amount and quantity. *)
Inductive CashCheck : Type :=
| CashSkip
| CashDivisionByZero
| CashGo (net_amount quantity : Q) (adjusted : bool).

Definition cash_check (payer : InstitutionAgent) (net_amount quantity price : Q)
  : CashCheck :=
  if negb (check_balance (cash_account payer) net_amount) then
    let allowed_cash := balance (cash_account payer) - min_balance (cash_account payer) in
    if PyNum.leb allowed_cash 0 then CashSkip
    else
      let net_amount := allowed_cash in
      if Qeq_bool price 0 then CashDivisionByZero
      else CashGo net_amount (inject_Z (PyNum.int (net_amount / price))) true
  else CashGo net_amount quantity false.

(** The security-sufficiency block: [None] when the report is skipped. *)
Definition security_check (deliverer : InstitutionAgent) (net_amount quantity price : Q)
  (adjusted : bool) : option (Q * Q * bool) :=
  if negb (check_balance (security_account deliverer) quantity) then
    let allowed_qty :=
      balance (security_account deliverer) - min_balance (security_account deliverer) in
    if PyNum.leb allowed_qty 0 then None
    else Some (allowed_qty * price, allowed_qty, true)
  else Some (net_amount, quantity, adjusted).

(** The transfer block: the two withdrawals, the two deposits, and the
    confirmation. *)
Definition transfer (report : PositioningReport) (net_amount quantity : Q)
  (adjusted : bool) (m : SettlementModel) : SettlementModel :=
  let tx := pr_transaction_id report in
  let '(m1, paid) := acct_withdraw (pr_payer report) Cash net_amount m in
  if paid then
    let m2 := acct_deposit (pr_payer report) Security quantity m1 in
    let m3 := acct_deposit (pr_deliverer report) Cash net_amount m2 in
    let '(m4, delivered) := acct_withdraw (pr_deliverer report) Security quantity m3 in
    if delivered then
      let settlement_status := if adjusted then "Partial" else "Full" in
      let confirmation := mkConfirmation tx settlement_status quantity net_amount in
      let m5 := set_settlement_confirmations (settlement_confirmations m4 ++ [confirmation]) m4 in
      let m6 := send_message "SettlementAgent" (pr_payer report) "settlement_confirmation"
                  [("transaction_id", tx); ("settlement_status", settlement_status)] m5 in
      let m7 := send_message "SettlementAgent" (pr_deliverer report) "settlement_confirmation"
                  [("transaction_id", tx); ("settlement_status", settlement_status)] m6 in
      log "SettlementAgent" "SettledTransaction" tx m7
    else log "SettlementAgent" "SettlementFailed" tx m4
  else log "SettlementAgent" "SettlementFailed" tx m1.

(** [price = net_amount / quantity if quantity else 0] *)
Definition report_price (report : PositioningReport) : Q :=
  if PyNum.truthy (pr_quantity report)
  then pr_net_amount report / pr_quantity report else 0.

(** One turn of the loop of [SettlementAgent.step].  A report always
    refers to institutions of the store. *)
Definition settle_report (report : PositioningReport) (m : SettlementModel)
  : Result SettlementModel :=
  match institutions m !! pr_payer report, institutions m !! pr_deliverer report with
  | Some payer, Some deliverer =>
      let price := report_price report in
      match cash_check payer (pr_net_amount report) (pr_quantity report) price with
      | CashSkip =>
          Returned (log "SettlementAgent" "SettlementSkipped" (pr_transaction_id report) m)
      | CashDivisionByZero => Raised "ZeroDivisionError" m
      | CashGo net_amount quantity adjusted =>
          match security_check deliverer net_amount quantity price adjusted with
          | None =>
              Returned (log "SettlementAgent" "SettlementSkipped" (pr_transaction_id report) m)
          | Some (net_amount, quantity, adjusted) =>
              Returned (transfer report net_amount quantity adjusted m)
          end
      end
  | _, _ => Returned m
  end.

Definition settlement_step (m : SettlementModel) : Result SettlementModel :=
  bind id (for_each settle_report (positioning_reports m) m)
    (fun m' => Returned (set_positioning_reports [] m')).

(** *** The model *)

Definition new_InstitutionAgent (unique_id : nat) (name : string) : InstitutionAgent :=
  mkInstitution unique_id name
    (mkAccount "Cash" 1000000 10000) (mkAccount "Security" 10000 100) [].

(** [SettlementModel.__init__] *)
Definition new_SettlementModel : SettlementModel :=
  mkModel 0 []
    [new_InstitutionAgent 1 "Institution_1"; new_InstitutionAgent 2 "Institution_2";
     new_InstitutionAgent 3 "Institution_3"; new_InstitutionAgent 4 "Institution_4"]
    [] [] [] [] [] [] 1 0.

(** What the scheduler can run.  [Tick] is the start of
    [SettlementModel.step]; within a tick the scheduler runs the agents in
    an order of its own choosing. *)
Inductive Event : Type :=
| Tick
| Institution (self : nat) (cancel_choice : option string) (initiate : option (nat * Q * Q))
| Validation
| Matching
| Clearing
| Positioning
| Settlement.

Definition step (ev : Event) (m : SettlementModel) : Result SettlementModel :=
  match ev with
  | Tick =>
      let m1 := set_current_step (current_step m + 1) m in
      Returned (log "Model" "StepStart" "" m1)
  | Institution self cancel_choice initiate =>
      Returned (institution_step self cancel_choice initiate m)
  | Validation => Returned (validation_step m)
  | Matching => Returned (matching_step m)
  | Clearing => clearing_step m
  | Positioning => Returned (positioning_step m)
  | Settlement => settlement_step m
  end.

Definition run (evs : list Event) (m : SettlementModel) : Result SettlementModel :=
  for_each step evs m.

(** What the pipeline holds of a transaction: the queues and the name
    counter. *)
Definition queues (m : SettlementModel) :=
  (instructions m, validated_instructions m, matched_pairs m,
   clearing_reports m, positioning_reports m, tx_counter m).



(** The sum of the balances of all cash accounts, or of all security
    accounts. *)
Definition total (k : AccountKind) (m : SettlementModel) : Q :=
  foldr Qplus 0 ((fun i => balance (get_account k i)) <$> institutions m).

Definition total_cash (m : SettlementModel) : Q := total Cash m.
Definition total_securities (m : SettlementModel) : Q := total Security m.

(** [SettlementModel.calculate_settlement_efficiency] *)
Definition total_settled (m : SettlementModel) : Q :=
  foldr Qplus 0 (adjusted_net_amount <$> settlement_confirmations m).


(** *** Well-formed states

    The accounts of the store, without the inboxes. *)
Definition accounts_of (m : SettlementModel) : list (Account * Account) :=
  (fun i => (cash_account i, security_account i)) <$> institutions m.

(** Both accounts of every institution are at or above their minimum
    balance. *)
Definition accounts_above_min (m : SettlementModel) : Prop :=
  Forall (fun a : Account * Account =>
            min_balance a.1 <= balance a.1 /\ min_balance a.2 <= balance a.2)
    (accounts_of m).

(** What the stages leave in the queues when they are fed by one another:
    validated instructions are valid, a matched pair has both legs and a
    valid Payment leg, and reports carry a positive quantity and a positive
    net amount. *)
Definition sound (m : SettlementModel) : Prop :=
  accounts_above_min m
  /\ (forall i, i ∈ validated_instructions m -> validate i = true)
  /\ (forall tx legs, (tx, legs) ∈ matched_pairs m ->
        exists p s, pair_Payment legs = Some p /\ pair_Security legs = Some s
                    /\ validate p = true)
  /\ (forall r, r ∈ clearing_reports m -> 0 < cr_quantity r /\ 0 < cr_net_amount r)
  /\ (forall r, r ∈ positioning_reports m -> 0 < pr_quantity r /\ 0 < pr_net_amount r).

(** The net amounts of the reports still on their way to settlement. *)
Definition pending_net (m : SettlementModel) : Q :=
  foldr Qplus 0 (cr_net_amount <$> clearing_reports m)
  + foldr Qplus 0 (pr_net_amount <$> positioning_reports m).

(** The report [ClearingAgent.step] makes of a pair with both legs, unless
    a leg is Canceled. *)
Definition report_of (entry : string * Pair) : option ClearingReport :=
  match pair_Payment entry.2, pair_Security entry.2 with
  | Some payment, Some security =>
      if String.eqb (status payment) "Canceled" || String.eqb (status security) "Canceled"
      then None
      else Some (mkClearingReport entry.1 (sendingInstitution payment)
                   (sendingInstitution security) (quantity payment) (price payment)
                   (quantity payment * price payment)
                   (quantity payment * price payment * risk_factor))
  | _, _ => None
  end.

(** The positioning report made of a clearing report. *)
Definition positioned (report : ClearingReport) : PositioningReport :=
  mkPositioningReport (cr_transaction_id report) (cr_payer report) (cr_deliverer report)
    (cr_quantity report) (cr_net_amount report).

(** The log of [m'] extends the log of [m] by rows that do not report the
    event [e]. *)
Definition logs_without (e : string) (m m' : SettlementModel) : Prop :=
  forall row, row ∈ logger m' -> row ∈ logger m \/ row_event row <> e.

(** The confirmed net amounts never exceed what was cleared: what is
    settled and what is still on its way add up to at most
    [total_possible_net]. *)
Definition accounted (m : SettlementModel) : Prop :=
  0 <= total_settled m /\ total_settled m + pending_net m <= total_possible_net m.

(** The row [process_messages] logs for a message, none for a message of
    another type. *)
Definition message_row (step : nat) (self_name : string) (msg : Message) : option LogRow :=
  if String.eqb (msg_type msg) "validation_result" then
    Some (mkRow step self_name
            (if String.eqb (lookup_str "status" (content msg)) "Invalid"
             then "ReceivedInvalidation" else "ReceivedValidation")
            (lookup_str "instruction_id" (content msg)))
  else if String.eqb (msg_type msg) "settlement_confirmation" then
    Some (mkRow step self_name "SettlementConfirmation"
            (lookup_str "transaction_id" (content msg)))
  else None.


(** Every entry of the table holds both legs. *)
Definition both_legs (pairs : list (string * Pair)) : Prop :=
  forall e, e ∈ pairs -> exists p s, pair_Payment e.2 = Some p /\ pair_Security e.2 = Some s.

(** The row [ClearingAgent.step] logs for an entry with both legs. *)
Definition clearing_row (step : nat) (entry : string * Pair) : LogRow :=
  mkRow step "ClearingAgent"
    (match report_of entry with Some _ => "ClearingReport" | None => "CanceledPair" end)
    entry.1.

(** [total_possible_net] after the net amounts of [reports] were added one
    by one. *)
Definition add_nets (t : Q) (reports : list ClearingReport) : Q :=
  foldl (fun t r => t + cr_net_amount r) t reports.

(** A message of a type [process_messages] handles carries the keys the
    handler reads.  Every message the stages send does. *)
Definition carries (msg : Message) : bool :=
  if String.eqb (msg_type msg) "validation_result" then
    Dict.mem "status" (content msg) && Dict.mem "instruction_id" (content msg)
  else if String.eqb (msg_type msg) "settlement_confirmation" then
    Dict.mem "transaction_id" (content msg) && Dict.mem "settlement_status" (content msg)
  else true.

Definition inbox_keyed (i : InstitutionAgent) : Prop :=
  Forall (fun msg => carries msg = true) (inbox i).



(** The two legs [InstitutionAgent.step] creates for a transaction [tx]
    in which [self] pays [counterparty]. *)
Definition payment_leg (tx : string) (self counterparty : nat) (quantity price : Q)
  : SettlementInstruction :=
  mkInstruction (tx +:+ "-P") tx "Payment" "SEC-XYZ" quantity price self counterparty "New".

Definition security_leg (tx : string) (self counterparty : nat) (quantity price : Q)
  : SettlementInstruction :=
  mkInstruction (tx +:+ "-S") tx "Security" "SEC-XYZ" quantity price counterparty self "New".

(** One pass of the pipeline after [self] has initiated a transaction
    with [counterparty]. *)
Definition trade (self counterparty : nat) (quantity price : Q) : list Event :=
  [Institution self None (Some (counterparty, quantity, price));
   Validation; Matching; Clearing; Positioning; Settlement].

End Euroclear.

(** ** The cash ledger on binary64 floats

    [updateCashBalance] takes [amount: float].  Here its numbers are
    binary64 floats and [+], [<], [>=] are the floating-point operations
    Python performs. *)

Module AgentSimFloat.
Import PrimFloat.
Local Open Scope float_scope.

Record AccountAgent : Type := mkAccountAgent {
  accountID : nat;
  state : string;
  participant : nat;
  cashBalance : float;
  securities : gmap string float;
  creditLimit : float
}.

Definition set_cashBalance (v : float) (a : AccountAgent) : AccountAgent :=
  mkAccountAgent (accountID a) (state a) (participant a) v (securities a) (creditLimit a).

Definition set_creditLimit (v : float) (a : AccountAgent) : AccountAgent :=
  mkAccountAgent (accountID a) (state a) (participant a) (cashBalance a) (securities a) v.

(** [AccountAgent.updateCashBalance]: the account after the call, the
    value returned and the lines logged. *)
Definition updateCashBalance (amount : float) (self : AccountAgent)
  : AccountAgent * float * list AgentSim.LogEntry :=
  let total_available := cashBalance self + creditLimit self in
  if (amount <? 0) && (total_available + amount <? 0) then
    (self, 0, [AgentSim.mkLog (AgentSim.NumId (accountID self)) "ERROR: insufficient funds"])
  else
    let self' :=
      if 0 <=? cashBalance self + amount then
        set_cashBalance (cashBalance self + amount) self
      else
        let remaining := amount + cashBalance self in
        set_creditLimit (creditLimit self + remaining) (set_cashBalance 0 self) in
    (self', amount, [AgentSim.mkLog (AgentSim.NumId (accountID self)) "updated cash balance"]).

(** [cashBalance + creditLimit >= 0] *)
Definition cash_invariant (a : AccountAgent) : bool :=
  0 <=? cashBalance a + creditLimit a.

End AgentSimFloat.

(** ** Concrete states used as examples *)

Module Scenarios.

(** An account with cash 100 and a credit limit of 50. *)
Definition acct_100_50 : AgentSim.AccountAgent := AgentSim.new_AccountAgent 7 0 100 50.

Definition ops_sample : list AgentSim.LedgerOp :=
  [AgentSim.UpdateCash (-120); AgentSim.UpdateSecurities "bond" 5;
   AgentSim.UpdateSecurities "bond" (-7); AgentSim.UpdateCash (-40);
   AgentSim.UpdateCash 10].

(** The spec's partial-fill example: cash 100, nothing below zero. *)
Definition payer_100 : Euroclear.InstitutionAgent :=
  Euroclear.mkInstitution 1 "Institution_1"
    (Euroclear.mkAccount "Cash" 100 0) (Euroclear.mkAccount "Security" 0 0) [].

(** An institution as the model creates it: cash 1000000 with minimum
    10000, securities 10000 with minimum 100. *)
Definition inst_1 : Euroclear.InstitutionAgent :=
  Euroclear.new_InstitutionAgent 1 "Institution_1".
Definition inst_2 : Euroclear.InstitutionAgent :=
  Euroclear.new_InstitutionAgent 2 "Institution_2".

(** A model holding the given institutions and nothing else. *)
Definition model_of (insts : list Euroclear.InstitutionAgent) : Euroclear.SettlementModel :=
  Euroclear.mkModel 0 [] insts [] [] [] [] [] [] 1 0.

Definition m_two : Euroclear.SettlementModel := model_of [inst_1; inst_2].

(** Institution 1 pays 200 for 10 units delivered by institution 2. *)
Definition report_1 : Euroclear.PositioningReport :=
  Euroclear.mkPositioningReport "TX-1" 0 1 10 200.

(** A deliverer whose securities are already at the minimum balance. *)
Definition inst_short : Euroclear.InstitutionAgent :=
  Euroclear.mkInstitution 2 "Institution_2"
    (Euroclear.mkAccount "Cash" 1000000 10000) (Euroclear.mkAccount "Security" 100 100) [].

Definition m_short : Euroclear.SettlementModel := model_of [inst_1; inst_short].

(** One institution on both sides of a report with a negative quantity. *)
Definition inst_self : Euroclear.InstitutionAgent :=
  Euroclear.mkInstitution 1 "Institution_1"
    (Euroclear.mkAccount "Cash" 1000 0) (Euroclear.mkAccount "Security" 50 100) [].

Definition m_self : Euroclear.SettlementModel := model_of [inst_self].

Definition report_self : Euroclear.PositioningReport :=
  Euroclear.mkPositioningReport "TX-2" 0 0 (-60) (-600).

(** The first program: a buyer with cash 100 and credit 50, a seller
    holding 80 bonds, both owned by institution 0. *)
Definition buyer_acct : AgentSim.AccountAgent := AgentSim.new_AccountAgent 0 0 100 50.

Definition seller_acct : AgentSim.AccountAgent :=
  AgentSim.mkAccountAgent 1 "Pending" 0 0 {[ "bond" := 80 ]} 0.

Definition sim_model : AgentSim.SettlementModel :=
  AgentSim.mkModel [AgentSim.new_InstitutionAgent 0] [buyer_acct; seller_acct] [].

Definition leg (uniqueID role : string) (amount : Q) (account : nat)
  : AgentSim.InstructionAgent :=
  AgentSim.mkInstructionAgent uniqueID "mother" "bond" amount false "pending" role account.

(** A matched transaction for [amount] bonds from account 1 to account 0. *)
Definition matched_tx (amount : Q) : AgentSim.TransactionAgent :=
  AgentSim.mkTransactionAgent 3 "Matched" (leg "seller_3" "seller" amount 1)
    (leg "buyer_3" "buyer" amount 0) amount 5.

(** The same with a buyer that has cash 10 and no credit, after its
    institution opted out of partial settlement. *)
Definition poor_buyer_acct : AgentSim.AccountAgent := AgentSim.new_AccountAgent 0 0 10 0.

Definition opted_out_model : AgentSim.SettlementModel :=
  AgentSim.call_institution 0 AgentSim.opt_out_partial
    (AgentSim.mkModel [AgentSim.new_InstitutionAgent 0] [poor_buyer_acct; seller_acct] []).

(** The pipeline: a payer with cash 100 and a report asking 150 for 15
    units. *)
Definition m_poor : Euroclear.SettlementModel := model_of [payer_100; inst_2].


(** Reports with quantity zero. *)
Definition report_zero : Euroclear.PositioningReport :=
  Euroclear.mkPositioningReport "TX-9" 0 1 0 500.



(** The two legs of a transaction between institutions 0 and 1, as
    [InstitutionAgent.step] creates them. *)
Definition pay_leg (tx : string) (quantity price : Q) : Euroclear.SettlementInstruction :=
  Euroclear.mkInstruction (tx +:+ "-P") tx "Payment" "SEC-XYZ" quantity price 0 1 "New".

Definition sec_leg (tx : string) (quantity price : Q) : Euroclear.SettlementInstruction :=
  Euroclear.mkInstruction (tx +:+ "-S") tx "Security" "SEC-XYZ" quantity price 1 0 "New".

Definition cancel_of (tx : string) : Euroclear.CancelInstruction :=
  Euroclear.mkCancel ("CANCEL-" +:+ tx) tx 0 "New".

(** A queue in which the cancellation of TX-2 stands after the legs it
    cancels; TX-3 has quantity zero. *)
Definition m_queue : Euroclear.SettlementModel :=
  Euroclear.set_tx_counter 4
    (Euroclear.set_instructions
       [Euroclear.Instruction (pay_leg "TX-1" 10 20);
        Euroclear.Instruction (sec_leg "TX-1" 10 20);
        Euroclear.Instruction (pay_leg "TX-2" 5 30);
        Euroclear.Instruction (sec_leg "TX-2" 5 30);
        Euroclear.Instruction (pay_leg "TX-3" 0 30);
        Euroclear.Cancellation (cancel_of "TX-2")]
       Euroclear.new_SettlementModel).



(** Only the Payment leg of TX-1 has been validated. *)
Definition m_one_leg : Euroclear.SettlementModel :=
  Euroclear.set_validated_instructions [pay_leg "TX-1" 10 20] Euroclear.new_SettlementModel.

(** Both legs of TX-1 have been validated. *)
Definition m_both_legs : Euroclear.SettlementModel :=
  Euroclear.set_validated_instructions
    [pay_leg "TX-1" 10 20; sec_leg "TX-1" 10 20] Euroclear.new_SettlementModel.

(** An institution of the first program that owns accounts 0 and 1. *)
Definition inst_two_accounts : AgentSim.InstitutionAgent :=
  AgentSim.mkInstitutionAgent 0 true [0%nat; 1%nat].


(** An institution with three messages in its inbox. *)
Definition inst_mail : Euroclear.InstitutionAgent :=
  Euroclear.mkInstitution 1 "Institution_1"
    (Euroclear.mkAccount "Cash" 1000 100) (Euroclear.mkAccount "Security" 50 5)
    [Euroclear.mkMessage "ValidationAgent" "validation_result"
       [("instruction_id", "TX-1-P"); ("status", "Invalid")];
     Euroclear.mkMessage "Nobody" "greeting" [];
     Euroclear.mkMessage "SettlementAgent" "settlement_confirmation"
       [("transaction_id", "TX-0"); ("settlement_status", "Full")]].

Definition m_mail : Euroclear.SettlementModel := model_of [inst_mail; inst_2].



Import PrimFloat.

(** An account with cash 0.1 and a credit limit of 0.2, in binary64, and
    the debit of all that is available, [-(0.1 + 0.2)]. *)
#[warnings="-inexact-float"]
Definition acct_tenths : AgentSimFloat.AccountAgent :=
  AgentSimFloat.mkAccountAgent 7 "Pending" 0 0.1%float ∅ 0.2%float.

Definition debit_all_tenths : PrimFloat.float :=
  PrimFloat.opp (PrimFloat.add (AgentSimFloat.cashBalance acct_tenths)
                   (AgentSimFloat.creditLimit acct_tenths)).
End Scenarios.

(** * Facts about Python numbers *)

Module PyNumFacts.
Import PyNum.

Lemma geb_true x y : geb x y = true <-> y <= x.
Proof. apply Qle_bool_iff. Qed.

Lemma geb_false x y : geb x y = false <-> x < y.
Proof.
  unfold geb. rewrite <- not_true_iff_false, Qle_bool_iff.
  split; [apply Qnot_le_lt | apply Qlt_not_le].
Qed.

Lemma leb_true x y : leb x y = true <-> x <= y.
Proof. apply Qle_bool_iff. Qed.

Lemma leb_false x y : leb x y = false <-> y < x.
Proof. apply (geb_false y x). Qed.

Lemma ltb_true x y : ltb x y = true <-> x < y.
Proof.
  unfold ltb. rewrite negb_true_iff. apply (geb_false x y).
Qed.

Lemma ltb_false x y : ltb x y = false <-> y <= x.
Proof.
  unfold ltb. rewrite negb_false_iff. apply Qle_bool_iff.
Qed.

Lemma gtb_true x y : gtb x y = true <-> y < x.
Proof. apply (ltb_true y x). Qed.

Lemma gtb_false x y : gtb x y = false <-> x <= y.
Proof. apply (ltb_false y x). Qed.

Lemma truthy_true x : truthy x = true <-> ~ x == 0.
Proof.
  unfold truthy. rewrite negb_true_iff, <- not_true_iff_false, Qeq_bool_iff.
  reflexivity.
Qed.

Lemma truthy_false x : truthy x = false <-> x == 0.
Proof.
  unfold truthy. rewrite negb_false_iff. apply Qeq_bool_iff.
Qed.

(** On a non-negative number truncation is the floor. *)
Lemma int_floor x : 0 <= x -> int x = Qfloor x.
Proof.
  destruct x as [n d]. unfold int, Qfloor, Qle. simpl.
  intros H. apply Z.quot_div_nonneg; lia.
Qed.

End PyNumFacts.

Ltac py_bool :=
  repeat match goal with
  | H : PyNum.geb _ _ = true |- _ => apply PyNumFacts.geb_true in H
  | H : PyNum.geb _ _ = false |- _ => apply PyNumFacts.geb_false in H
  | H : PyNum.leb _ _ = true |- _ => apply PyNumFacts.leb_true in H
  | H : PyNum.leb _ _ = false |- _ => apply PyNumFacts.leb_false in H
  | H : PyNum.ltb _ _ = true |- _ => apply PyNumFacts.ltb_true in H
  | H : PyNum.ltb _ _ = false |- _ => apply PyNumFacts.ltb_false in H
  | H : PyNum.gtb _ _ = true |- _ => apply PyNumFacts.gtb_true in H
  | H : PyNum.gtb _ _ = false |- _ => apply PyNumFacts.gtb_false in H
  | H : PyNum.truthy _ = true |- _ => apply PyNumFacts.truthy_true in H
  | H : PyNum.truthy _ = false |- _ => apply PyNumFacts.truthy_false in H
  end.

(** * Facts about the first program *)

Module AgentSimFacts.
Import AgentSim.

Lemma updateCashBalance_invariant amount a :
  balance_invariant a -> balance_invariant (updateCashBalance amount a).1.1.
Proof.
  intros [Hc Hs]. unfold updateCashBalance.
  destruct (PyNum.ltb amount 0) eqn:Ea, (PyNum.ltb (cashBalance a + creditLimit a + amount) 0) eqn:Eb;
    simpl; try (split; assumption);
    destruct (PyNum.geb (cashBalance a + amount) 0) eqn:Ec; py_bool;
    split; simpl; try assumption; lra.
Qed.

Lemma updateSecurities_invariant ty amount a :
  balance_invariant a -> balance_invariant (updateSecurities ty amount a).1.1.
Proof.
  intros [Hc Hs]. unfold updateSecurities.
  destruct (PyNum.ltb (holding a ty + amount) 0) eqn:E; simpl; [split; assumption|].
  py_bool. split; simpl; [assumption|].
  apply map_Forall_insert_2; assumption.
Qed.

Lemma apply_op_invariant a op : balance_invariant a -> balance_invariant (apply_op a op).
Proof.
  destruct op; simpl; [apply updateCashBalance_invariant | apply updateSecurities_invariant].
Qed.

Lemma history_invariant ops : forall a,
  balance_invariant a -> Forall balance_invariant (history a ops).
Proof.
  induction ops as [|op ops IH]; intros a Ha; simpl; constructor.
  - apply apply_op_invariant, Ha.
  - apply IH, apply_op_invariant, Ha.
Qed.

Lemma apply_op_holdings a op : holdings_invariant a -> holdings_invariant (apply_op a op).
Proof.
  intros Hs. destruct op as [amount|ty amount]; simpl.
  - unfold updateCashBalance.
    destruct (PyNum.ltb amount 0 && PyNum.ltb (cashBalance a + creditLimit a + amount) 0);
      simpl; [exact Hs|].
    destruct (PyNum.geb (cashBalance a + amount) 0); exact Hs.
  - unfold updateSecurities.
    destruct (PyNum.ltb (holding a ty + amount) 0) eqn:E; simpl; [exact Hs|].
    py_bool. apply map_Forall_insert_2; assumption.
Qed.

Lemma history_holdings ops : forall a,
  holdings_invariant a -> Forall holdings_invariant (history a ops).
Proof.
  induction ops as [|op ops IH]; intros a Ha; simpl; constructor.
  - apply apply_op_holdings, Ha.
  - apply IH, apply_op_holdings, Ha.
Qed.

(** C6 (amended).  From an account that satisfies the invariant (cash
    plus credit limit not negative, no negative holding):

    - no holding is negative after any operation of any sequence of cash
      and security updates;
    - cash plus credit limit is not negative after any of them either, as
      long as the amounts and the balances are integers of magnitude at
      most 2^50, so that no sum rounds;
    - a cash debit [d] that exceeds the cash but not cash plus credit is
      applied, leaves the cash at zero and the credit limit at
      [creditLimit + (-d + cash)]; for such integers that is the credit
      limit lowered by exactly the deficit [d - cash], and the invariant
      is kept. *)
Theorem ledger_keeps_balance_invariant (a : AccountAgent) (ops : list LedgerOp) :
  balance_invariant a ->
  Forall holdings_invariant (history a ops)
  /\ (exact_account a -> Forall exact_op ops -> Forall exact_account (history a ops) ->
      Forall balance_invariant (history a ops))
  /\ (forall d, 0 < d -> cashBalance a < d -> d <= cashBalance a + creditLimit a ->
      let '(a', returned, _) := updateCashBalance (- d) a in
      returned = - d
      /\ cashBalance a' = 0
      /\ creditLimit a' = creditLimit a + (- d + cashBalance a)
      /\ securities a' = securities a
      /\ (PyNum.exact (cashBalance a) = true -> PyNum.exact (creditLimit a) = true ->
          PyNum.exact d = true ->
          creditLimit a' == creditLimit a - (d - cashBalance a)
          /\ balance_invariant a')).
Proof.
  intros Ha. split; [apply history_holdings, Ha|].
  split; [intros _ _ _; apply history_invariant, Ha|].
  intros d Hd Hlt Hle.
  pose proof (updateCashBalance_invariant (- d) a Ha) as Hinv.
  unfold updateCashBalance in *.
  destruct (PyNum.ltb (- d) 0) eqn:Ea,
           (PyNum.ltb (cashBalance a + creditLimit a + - d) 0) eqn:Eb;
    py_bool; simpl in *; try lra;
    destruct (PyNum.geb (cashBalance a + - d) 0) eqn:Ec; py_bool; simpl in *; try lra.
  split; [reflexivity|]. split; [reflexivity|]. split; [reflexivity|].
  split; [reflexivity|]. intros _ _ _. split; [lra | exact Hinv].
Qed.

Lemma ledger_keeps_balance_invariant_witness :
  Forall holdings_invariant (history Scenarios.acct_100_50 Scenarios.ops_sample)
  /\ Forall balance_invariant (history Scenarios.acct_100_50 Scenarios.ops_sample)
  /\ (let '(a', returned, _) := updateCashBalance (- (120)) Scenarios.acct_100_50 in
      returned = - (120)
      /\ cashBalance a' = 0
      /\ creditLimit a' == 50 - (120 - 100)
      /\ balance_invariant a').
Proof.
  destruct (ledger_keeps_balance_invariant Scenarios.acct_100_50 Scenarios.ops_sample)
    as (Hh & Hb & Hd).
  - split; [vm_compute; discriminate | apply map_Forall_empty].
  - split; [exact Hh|]. split.
    + apply Hb.
      * split; [reflexivity|]. split; [reflexivity | apply map_Forall_empty].
      * repeat constructor.
      * repeat (apply Forall_cons; split;
                [split; [reflexivity|]; split; [reflexivity|];
                 first [apply map_Forall_empty
                       | apply map_Forall_singleton; reflexivity]|]).
        apply Forall_nil_2.
    + assert (H3 : 120 <= cashBalance Scenarios.acct_100_50 + creditLimit Scenarios.acct_100_50)
        by (vm_compute; discriminate).
      pose proof (Hd 120 eq_refl eq_refl H3) as Hd'.
      destruct (updateCashBalance (- (120)) Scenarios.acct_100_50) as [[a' returned] lines].
      destruct Hd' as (R & C & _ & _ & Hx).
      destruct (Hx eq_refl eq_refl eq_refl) as [Hl Hi].
      split; [exact R|]. split; [exact C|]. split; [exact Hl | exact Hi].
Defined.

(** C6, as stated, fails for amounts that are binary floating-point
    numbers.  An account with cash 0.1 and a credit limit of 0.2 satisfies
    the invariant.  The debit of [0.1 + 0.2] passes the sufficiency test,
    so it is applied: the cash is set to 0 and the credit limit to
    [0.2 + (-(0.1 + 0.2) + 0.1)], which rounds to a number below zero
    (about -2.8e-17).  Cash plus credit limit is negative afterwards. *)
Lemma float_debit_breaks_invariant :
  AgentSimFloat.cash_invariant Scenarios.acct_tenths = true
  /\ (let '(a', returned, _) :=
        AgentSimFloat.updateCashBalance Scenarios.debit_all_tenths Scenarios.acct_tenths in
      returned = Scenarios.debit_all_tenths
      /\ AgentSimFloat.cashBalance a' = PrimFloat.zero
      /\ PrimFloat.ltb (AgentSimFloat.creditLimit a') PrimFloat.zero = true
      /\ AgentSimFloat.cash_invariant a' = false).
Proof.
  vm_compute. repeat split.
Qed.

Lemma cash_call_returns r x m :
  (call_account r (updateCashBalance x) m).2 = 0
  \/ (call_account r (updateCashBalance x) m).2 = x.
Proof.
  unfold call_account. destruct (model_accounts m !! r) as [a|]; [|auto].
  unfold updateCashBalance.
  destruct (PyNum.ltb x 0 && PyNum.ltb (cashBalance a + creditLimit a + x) 0); simpl; auto.
Qed.

Lemma createChildren_returned self m m1 : createChildren self m = Returned m1 -> m1 = m.
Proof.
  unfold createChildren.
  destruct (model_accounts m !! account self) as [acct|]; [|congruence].
  destruct (String.eqb (role self) "buyer" && negb (checkSufficientCash acct (amount self))).
  - cbv zeta. destruct (PyNum.gtb _ 0); [discriminate | congruence].
  - destruct (String.eqb (role self) "seller"
              && negb (checkSufficientSecurities acct (securityType self) (amount self)));
      [|congruence].
    cbv zeta. destruct (PyNum.gtb _ 0); [discriminate | congruence].
Qed.

(** An attempt of [TransactionAgent.settle] for an amount that is not
    negative, that returns without marking the transaction [Failed],
    changed no account. *)
Lemma settle_unfailed_keeps_accounts self m t' m' :
  0 <= tx_amount self ->
  TransactionAgent_settle self m = Returned (t', m') ->
  tx_state t' <> "Failed" ->
  model_accounts m' = model_accounts m.
Proof.
  intros Hamt. unfold TransactionAgent_settle.
  destruct (settleable (tx_state self)).
  2:{ intros H _. injection H as <- <-. reflexivity. }
  destruct (checkCash (buyer self) && checkSecurities (seller self)).
  - set (m0 := log_event "attempting to settle" (NumId (TransactionID self)) m).
    pose proof (cash_call_returns (account (buyer self)) (- tx_amount self) m0) as Hret.
    destruct (call_account (account (buyer self)) (updateCashBalance (- tx_amount self)) m0)
      as [m1 buyer_settled].
    destruct (call_account (account (seller self)) _ m1) as [m2 seller_settled].
    simpl in Hret.
    assert (Hb : PyNum.gtb buyer_settled 0 = false).
    { apply PyNumFacts.gtb_false. destruct Hret as [->| ->]; lra. }
    rewrite Hb. simpl. intros H Hst. injection H as <- <-. contradiction Hst. reflexivity.
  - destruct (createChildren (buyer self) _) as [m1|e m1] eqn:E1; simpl; [|discriminate].
    destruct (createChildren (seller self) m1) as [m2|e m2] eqn:E2; simpl; [|discriminate].
    apply createChildren_returned in E1, E2. subst m2 m1.
    intros H _. injection H as <- <-. reflexivity.
Qed.

(** C5, as stated, fails on [TransactionAgent.settle].  A transaction for
    the amount -60 passes both updates (the returned deltas are 60, which
    is positive), so the attempt ends [Settled] and does not fail; the buyer
    has been given 60 in cash and the seller 60 bonds, and nothing has been
    taken from anyone: the total cash rises from 100 to 160 and the bonds
    from 80 to 140. *)
Lemma transaction_settle_not_conservative :
  total_cash Scenarios.sim_model == 100
  /\ total_holdings "bond" Scenarios.sim_model == 80
  /\ (exists t' m',
        TransactionAgent_settle (Scenarios.matched_tx (-60)) Scenarios.sim_model = Returned (t', m')
        /\ tx_state t' = "Settled"
        /\ total_cash m' == 160
        /\ total_holdings "bond" m' == 140).
Proof.
  split; [reflexivity|]. split; [reflexivity|].
  eexists. eexists. split; [vm_compute; reflexivity|].
  split; [reflexivity|]. split; reflexivity.
Qed.

End AgentSimFacts.

(** * Facts about the settlement pipeline *)

Module EuroclearFacts.
Import Euroclear.

(** ** Accounts *)

Lemma check_balance_true a amount :
  check_balance a amount = true <-> min_balance a <= balance a - amount.
Proof. apply PyNumFacts.geb_true. Qed.

Lemma check_balance_false a amount :
  check_balance a amount = false <-> balance a - amount < min_balance a.
Proof. apply PyNumFacts.geb_false. Qed.

(** C10.  [withdraw] either succeeds, when the balance less the amount is
    at least the minimum balance, returning [True] with the balance lowered
    by exactly the amount (which is then still at least the minimum), or it
    fails, returning [False] with the account untouched. *)
Theorem withdraw_all_or_nothing (a : Account) (amount : Q) :
  (min_balance a <= balance a - amount
   /\ withdraw amount a
      = (mkAccount (account_type a) (balance a - amount) (min_balance a), true)
   /\ min_balance a <= balance (withdraw amount a).1)
  \/ (balance a - amount < min_balance a /\ withdraw amount a = (a, false)).
Proof.
  unfold withdraw. destruct (check_balance a amount) eqn:E.
  - apply check_balance_true in E. left. auto.
  - apply check_balance_false in E. right. auto.
Qed.

(** ** The cash-sufficiency block *)

Lemma quotient_nonneg (a p : Q) : 0 < a -> 0 < p -> 0 <= a / p.
Proof.
  intros Ha Hp. apply Qle_shift_div_l; [assumption|]. lra.
Qed.

(** C2 (amended).  The payer cannot fully fund the transfer exactly when
    [balance - net_amount < min_balance] on its cash account; the block has
    no partial-settlement gate.  Then [allowed_cash = balance -
    min_balance]; the report is skipped when [allowed_cash <= 0]; otherwise
    the net amount becomes [allowed_cash], the quantity becomes
    [int(net_amount / price)], which is the floor for a positive price, and
    the result is marked adjusted.  When the payer can fund the transfer
    nothing is adjusted. *)
Theorem cash_check_spec (payer : InstitutionAgent) (net_amount quantity price : Q) :
  ~ price == 0 ->
  let cash := cash_account payer in
  let allowed_cash := balance cash - min_balance cash in
  (min_balance cash <= balance cash - net_amount
   /\ cash_check payer net_amount quantity price = CashGo net_amount quantity false)
  \/ (balance cash - net_amount < min_balance cash
      /\ allowed_cash <= 0
      /\ cash_check payer net_amount quantity price = CashSkip)
  \/ (balance cash - net_amount < min_balance cash
      /\ 0 < allowed_cash
      /\ cash_check payer net_amount quantity price
         = CashGo allowed_cash (inject_Z (PyNum.int (allowed_cash / price))) true
      /\ (0 < price -> PyNum.int (allowed_cash / price) = Qfloor (allowed_cash / price))).
Proof.
  intros Hp cash allowed_cash. unfold cash_check. fold cash. fold allowed_cash.
  destruct (check_balance cash net_amount) eqn:E; simpl.
  - left. apply check_balance_true in E. auto.
  - right. apply check_balance_false in E.
    destruct (PyNum.leb allowed_cash 0) eqn:El; py_bool.
    + left. auto.
    + right. destruct (Qeq_bool price 0) eqn:Ez.
      * apply Qeq_bool_iff in Ez. contradiction.
      * repeat split; try assumption.
        intros Hpos. apply PyNumFacts.int_floor, quotient_nonneg; assumption.
Qed.

Lemma cash_check_spec_witness :
  cash_check Scenarios.payer_100 150 15 10 = CashGo 100 (inject_Z 10) true.
Proof.
  assert (Hp : ~ 10 == 0) by (intros H; vm_compute in H; discriminate H).
  destruct (cash_check_spec Scenarios.payer_100 150 15 10 Hp)
    as [[H _] | [[_ [H _]] | [_ [_ [H _]]]]].
  - vm_compute in H. contradiction H. reflexivity.
  - vm_compute in H. contradiction H. reflexivity.
  - rewrite H. reflexivity.
Defined.

(** C2, as stated, fails.  An institution as the model creates it (cash
    1000000, minimum balance 10000) cannot fully fund a net amount of
    995000 in the code: the amount is cut to 990000.  The criterion of the
    claim, [cash - net + creditLimit < 0], is false there for every credit
    limit that is not negative. *)
Lemma cash_check_not_credit_limit :
  cash_check Scenarios.inst_1 995000 100 9950 = CashGo 990000 (inject_Z 99) true
  /\ forall creditLimit : Q, 0 <= creditLimit ->
       ~ balance (cash_account Scenarios.inst_1) - 995000 + creditLimit < 0.
Proof.
  split; [reflexivity|].
  intros c Hc. simpl. lra.
Qed.

(** ** The store of institutions *)

Lemma set_institutions_id m : set_institutions (institutions m) m = m.
Proof. destruct m; reflexivity. Qed.

Lemma put_get_account k i : put_account k (get_account k i) i = i.
Proof. destruct i, k; reflexivity. Qed.

Lemma update_institution_Some r f m i :
  institutions m !! r = Some i ->
  update_institution r f m = set_institutions (<[r := f i]> (institutions m)) m.
Proof. intros H. unfold update_institution. rewrite H. reflexivity. Qed.

Lemma acct_withdraw_ok r k amount m i :
  institutions m !! r = Some i ->
  check_balance (get_account k i) amount = true ->
  acct_withdraw r k amount m
  = (set_institutions
       (<[r := put_account k
                 (mkAccount (account_type (get_account k i))
                    (balance (get_account k i) - amount)
                    (min_balance (get_account k i))) i]> (institutions m)) m,
     true).
Proof.
  intros Hi Hc. unfold acct_withdraw, withdraw. rewrite Hi, Hc. reflexivity.
Qed.

Lemma acct_withdraw_fail r k amount m i :
  institutions m !! r = Some i ->
  check_balance (get_account k i) amount = false ->
  acct_withdraw r k amount m = (m, false).
Proof.
  intros Hi Hc. unfold acct_withdraw, withdraw. rewrite Hi, Hc.
  rewrite put_get_account, list_insert_id by assumption.
  rewrite set_institutions_id. reflexivity.
Qed.

Lemma acct_deposit_Some r k amount m i :
  institutions m !! r = Some i ->
  acct_deposit r k amount m
  = set_institutions
      (<[r := put_account k (deposit amount (get_account k i)) i]> (institutions m)) m.
Proof.
  intros H. unfold acct_deposit. rewrite (update_institution_Some _ _ _ _ H). reflexivity.
Qed.

Lemma lookup_insert_same {A : Type} (l : list A) (i : nat) (x y : A) :
  l !! i = Some x -> <[i := y]> l !! i = Some y.
Proof. intros H. apply list_lookup_insert_eq, (lookup_lt_Some _ _ _ H). Qed.

Lemma lookup_insert_other {A : Type} (l : list A) (i j : nat) (x y : A) :
  i <> j -> l !! j = Some x -> <[i := y]> l !! j = Some x.
Proof. intros Hne H. rewrite list_lookup_insert_ne; assumption. Qed.

(** ** The transfer block *)

Section Transfer.

Variables (report : PositioningReport) (net_amount quantity : Q) (adjusted : bool).
Variables (m : SettlementModel) (p d : InstitutionAgent).
Hypothesis Hp : institutions m !! pr_payer report = Some p.
Hypothesis Hd : institutions m !! pr_deliverer report = Some d.
Hypothesis Hne : pr_payer report <> pr_deliverer report.

(** The payer after its cash was debited and its securities credited. *)
Let p1 : InstitutionAgent :=
  mkInstitution (unique_id p) (name p)
    (mkAccount (account_type (cash_account p))
       (balance (cash_account p) - net_amount) (min_balance (cash_account p)))
    (deposit quantity (security_account p)) (inbox p).

(** The deliverer after its cash was credited. *)
Let d1 : InstitutionAgent :=
  mkInstitution (unique_id d) (name d)
    (deposit net_amount (cash_account d)) (security_account d) (inbox d).

Lemma transfer_payer_fails :
  check_balance (cash_account p) net_amount = false ->
  transfer report net_amount quantity adjusted m
  = log "SettlementAgent" "SettlementFailed" (pr_transaction_id report) m.
Proof.
  intros Ep. unfold transfer. rewrite (acct_withdraw_fail _ Cash _ _ p Hp Ep). reflexivity.
Qed.

(** The three legs that precede the deliverer's debit. *)
Lemma three_legs :
  check_balance (cash_account p) net_amount = true ->
  acct_deposit (pr_deliverer report) Cash net_amount
    (acct_deposit (pr_payer report) Security quantity
       (acct_withdraw (pr_payer report) Cash net_amount m).1)
  = set_institutions
      (<[pr_deliverer report := d1]> (<[pr_payer report := p1]> (institutions m))) m.
Proof.
  intros Ep. rewrite (acct_withdraw_ok _ Cash _ _ p Hp Ep). simpl.
  erewrite (acct_deposit_Some _ Security)
    by (simpl; eapply lookup_insert_same; eassumption).
  erewrite (acct_deposit_Some _ Cash)
    by (simpl; rewrite list_insert_insert_eq; eapply lookup_insert_other; eassumption).
  simpl. rewrite list_insert_insert_eq. reflexivity.
Qed.

Lemma transfer_deliverer_fails :
  check_balance (cash_account p) net_amount = true ->
  check_balance (security_account d) quantity = false ->
  transfer report net_amount quantity adjusted m
  = log "SettlementAgent" "SettlementFailed" (pr_transaction_id report)
      (set_institutions
         (<[pr_deliverer report := d1]> (<[pr_payer report := p1]> (institutions m))) m).
Proof.
  intros Ep Ed. pose proof (three_legs Ep) as H3. unfold transfer.
  destruct (acct_withdraw (pr_payer report) Cash net_amount m) as [m1 paid] eqn:E1.
  rewrite (acct_withdraw_ok _ Cash _ _ p Hp Ep) in E1. injection E1 as <- <-.
  simpl in H3. rewrite H3.
  erewrite (acct_withdraw_fail _ Security)
    by (simpl; first [eapply lookup_insert_same; eapply lookup_insert_other; eassumption
                     | exact Ed]).
  reflexivity.
Qed.

Lemma transfer_settles :
  check_balance (cash_account p) net_amount = true ->
  check_balance (security_account d) quantity = true ->
  let st := if adjusted then "Partial" else "Full" in
  let tx := pr_transaction_id report in
  let d2 :=
    mkInstitution (unique_id d) (name d)
      (deposit net_amount (cash_account d))
      (mkAccount (account_type (security_account d))
         (balance (security_account d) - quantity) (min_balance (security_account d)))
      (inbox d) in
  transfer report net_amount quantity adjusted m
  = log "SettlementAgent" "SettledTransaction" tx
      (send_message "SettlementAgent" (pr_deliverer report) "settlement_confirmation"
         [("transaction_id", tx); ("settlement_status", st)]
         (send_message "SettlementAgent" (pr_payer report) "settlement_confirmation"
            [("transaction_id", tx); ("settlement_status", st)]
            (set_settlement_confirmations
               (settlement_confirmations m ++ [mkConfirmation tx st quantity net_amount])
               (set_institutions
                  (<[pr_deliverer report := d2]> (<[pr_payer report := p1]> (institutions m)))
                  m)))).
Proof.
  intros Ep Ed st tx d2. pose proof (three_legs Ep) as H3. unfold transfer.
  destruct (acct_withdraw (pr_payer report) Cash net_amount m) as [m1 paid] eqn:E1.
  rewrite (acct_withdraw_ok _ Cash _ _ p Hp Ep) in E1. injection E1 as <- <-.
  simpl in H3. rewrite H3.
  erewrite (acct_withdraw_ok _ Security)
    by (simpl; first [eapply lookup_insert_same; eapply lookup_insert_other; eassumption
                     | exact Ed]).
  simpl. rewrite list_insert_insert_eq. reflexivity.
Qed.

End Transfer.

(** C1 (amended).  For distinct payer and deliverer the transfer block runs
    in this order: debit the payer's cash (on failure log SettlementFailed
    and change nothing); credit the payer's securities; credit the
    deliverer's cash; debit the deliverer's securities (on failure log
    SettlementFailed and keep the three legs already applied, so the payer
    already holds the securities); on success record the confirmation,
    notify both institutions, and log SettledTransaction. *)
Theorem transfer_order (report : PositioningReport) (net_amount quantity : Q)
  (adjusted : bool) (m : SettlementModel) (p d : InstitutionAgent) :
  institutions m !! pr_payer report = Some p ->
  institutions m !! pr_deliverer report = Some d ->
  pr_payer report <> pr_deliverer report ->
  let tx := pr_transaction_id report in
  let p1 :=
    mkInstitution (unique_id p) (name p)
      (mkAccount (account_type (cash_account p))
         (balance (cash_account p) - net_amount) (min_balance (cash_account p)))
      (deposit quantity (security_account p)) (inbox p) in
  let d1 :=
    mkInstitution (unique_id d) (name d)
      (deposit net_amount (cash_account d)) (security_account d) (inbox d) in
  let d2 :=
    mkInstitution (unique_id d) (name d)
      (deposit net_amount (cash_account d))
      (mkAccount (account_type (security_account d))
         (balance (security_account d) - quantity) (min_balance (security_account d)))
      (inbox d) in
  let st := if adjusted then "Partial" else "Full" in
  let store_with (d' : InstitutionAgent) :=
    <[pr_deliverer report := d']> (<[pr_payer report := p1]> (institutions m)) in
  (check_balance (cash_account p) net_amount = false
   /\ transfer report net_amount quantity adjusted m
      = log "SettlementAgent" "SettlementFailed" tx m)
  \/ (check_balance (cash_account p) net_amount = true
      /\ check_balance (security_account d) quantity = false
      /\ transfer report net_amount quantity adjusted m
         = log "SettlementAgent" "SettlementFailed" tx
             (set_institutions (store_with d1) m))
  \/ (check_balance (cash_account p) net_amount = true
      /\ check_balance (security_account d) quantity = true
      /\ transfer report net_amount quantity adjusted m
         = log "SettlementAgent" "SettledTransaction" tx
             (send_message "SettlementAgent" (pr_deliverer report) "settlement_confirmation"
                [("transaction_id", tx); ("settlement_status", st)]
                (send_message "SettlementAgent" (pr_payer report) "settlement_confirmation"
                   [("transaction_id", tx); ("settlement_status", st)]
                   (set_settlement_confirmations
                      (settlement_confirmations m
                       ++ [mkConfirmation tx st quantity net_amount])
                      (set_institutions (store_with d2) m))))).
Proof.
  intros Hp Hd Hne tx p1 d1 d2 st store_with.
  destruct (check_balance (cash_account p) net_amount) eqn:Ep.
  - right. destruct (check_balance (security_account d) quantity) eqn:Ed.
    + right. split; [reflexivity|]. split; [reflexivity|].
      apply (transfer_settles report net_amount quantity adjusted m p d Hp Hd Hne Ep Ed).
    + left. split; [reflexivity|]. split; [reflexivity|].
      apply (transfer_deliverer_fails report net_amount quantity adjusted m p d Hp Hd Hne Ep Ed).
  - left. split; [reflexivity|].
    apply (transfer_payer_fails report net_amount quantity adjusted m p Hp Ep).
Qed.

Lemma transfer_order_witness :
  settlement_confirmations (transfer Scenarios.report_1 200 10 false Scenarios.m_two)
  = [mkConfirmation "TX-1" "Full" 10 200].
Proof.
  destruct (transfer_order Scenarios.report_1 200 10 false Scenarios.m_two
              Scenarios.inst_1 Scenarios.inst_2 eq_refl eq_refl)
    as [[H _] | [[_ [H _]] | [_ [_ H]]]].
  - discriminate.
  - vm_compute in H. discriminate H.
  - vm_compute in H. discriminate H.
  - rewrite H. reflexivity.
Defined.

(** C1, as stated, fails.  With a deliverer whose securities are at the
    minimum balance, the transfer block logs SettlementFailed, produces no
    confirmation and leaves the deliverer's securities at 100, yet the
    payer's securities went from 10000 to 10010: they are credited before
    the deliverer is debited.  The same happens through the whole loop body
    when one institution is both payer and deliverer of a report with
    quantity -60: its securities go from 50 to -10. *)
Lemma payer_securities_credited_before_deliverer_debit :
  let m' := transfer Scenarios.report_1 200 10 false Scenarios.m_short in
  logger m' = [mkRow 0 "SettlementAgent" "SettlementFailed" "TX-1"]
  /\ settlement_confirmations m' = []
  /\ security_account <$> institutions m' !! 1%nat = Some (mkAccount "Security" 100 100)
  /\ security_account <$> institutions Scenarios.m_short !! 0%nat
     = Some (mkAccount "Security" 10000 100)
  /\ security_account <$> institutions m' !! 0%nat = Some (mkAccount "Security" 10010 100)
  /\ exists m'',
       settle_report Scenarios.report_self Scenarios.m_self = Returned m''
       /\ logger m'' = [mkRow 0 "SettlementAgent" "SettlementFailed" "TX-2"]
       /\ security_account <$> institutions Scenarios.m_self !! 0%nat
          = Some (mkAccount "Security" 50 100)
       /\ security_account <$> institutions m'' !! 0%nat
          = Some (mkAccount "Security" (-10) 100).
Proof.
  repeat split.
  eexists. repeat split.
Qed.

(** ** Totals over the store *)

Lemma sum_insert {A : Type} (f : A -> Q) (l : list A) : forall (r : nat) (x y : A),
  l !! r = Some x ->
  foldr Qplus 0 (f <$> <[r := y]> l) == foldr Qplus 0 (f <$> l) - f x + f y.
Proof.
  induction l as [|a l IH]; intros [|r] x y Hx; try discriminate.
  - injection Hx as ->. cbn [list_insert insert fmap list_fmap foldr].
    generalize (foldr Qplus 0 (f <$> l)). intros s. ring.
  - cbn in Hx. cbn [list_insert insert fmap list_fmap foldr].
    change (f a + foldr Qplus 0 (f <$> <[r:=y]> l)
            == f a + foldr Qplus 0 (f <$> l) - f x + f y).
    rewrite (IH r x y Hx). ring.
Qed.

Lemma other_account k k' a i :
  k <> k' -> get_account k' (put_account k a i) = get_account k' i.
Proof. destruct k, k'; intros H; try contradiction; reflexivity. Qed.

Lemma same_account k a i : get_account k (put_account k a i) = a.
Proof. destruct k; reflexivity. Qed.

Lemma total_set_institutions k l m :
  total k (set_institutions l m) = foldr Qplus 0 ((fun i => balance (get_account k i)) <$> l).
Proof. reflexivity. Qed.

Lemma acct_withdraw_total r k amount m m1 :
  acct_withdraw r k amount m = (m1, true) ->
  total k m1 == total k m - amount
  /\ (forall k', k <> k' -> total k' m1 == total k' m)
  /\ settlement_confirmations m1 = settlement_confirmations m.
Proof.
  unfold acct_withdraw, withdraw. destruct (institutions m !! r) as [i|] eqn:Hi; [|discriminate].
  destruct (check_balance (get_account k i) amount); [|discriminate].
  intros H. injection H as <-. repeat split.
  - rewrite total_set_institutions, (sum_insert _ _ r i _ Hi), same_account. unfold total. simpl. lra.
  - intros k' Hk. rewrite total_set_institutions, (sum_insert _ _ r i _ Hi), other_account by assumption.
    unfold total. lra.
Qed.

Lemma acct_withdraw_false r k amount m m1 :
  acct_withdraw r k amount m = (m1, false) -> m1 = m.
Proof.
  unfold acct_withdraw, withdraw. destruct (institutions m !! r) as [i|] eqn:Hi.
  - destruct (check_balance (get_account k i) amount); [discriminate|].
    intros H. injection H as <-.
    rewrite put_get_account, list_insert_id by assumption. apply set_institutions_id.
  - intros H. injection H as <-. reflexivity.
Qed.

Lemma acct_withdraw_valid r k amount m m1 :
  acct_withdraw r k amount m = (m1, true) -> is_Some (institutions m !! r).
Proof.
  unfold acct_withdraw. destruct (institutions m !! r); [eauto | discriminate].
Qed.

Lemma acct_deposit_total r k amount m :
  is_Some (institutions m !! r) ->
  total k (acct_deposit r k amount m) == total k m + amount
  /\ (forall k', k <> k' -> total k' (acct_deposit r k amount m) == total k' m)
  /\ settlement_confirmations (acct_deposit r k amount m) = settlement_confirmations m.
Proof.
  intros [i Hi]. rewrite (acct_deposit_Some _ _ _ _ _ Hi). repeat split.
  - rewrite total_set_institutions, (sum_insert _ _ r i _ Hi), same_account. unfold total. simpl. lra.
  - intros k' Hk. rewrite total_set_institutions, (sum_insert _ _ r i _ Hi), other_account by assumption.
    unfold total. lra.
Qed.

Lemma send_message_total k from r ty c m :
  total k (send_message from r ty c m) == total k m
  /\ settlement_confirmations (send_message from r ty c m) = settlement_confirmations m.
Proof.
  unfold send_message, update_institution.
  destruct (institutions m !! r) as [i|] eqn:Hi; [|split; reflexivity].
  split; [|reflexivity].
  rewrite total_set_institutions, (sum_insert _ _ r i _ Hi). unfold total.
  destruct i, k; simpl; lra.
Qed.

Lemma lookup_set_institutions_length r k amount m m1 ok :
  acct_withdraw r k amount m = (m1, ok) ->
  length (institutions m1) = length (institutions m).
Proof.
  unfold acct_withdraw. destruct (institutions m !! r) as [i|] eqn:Hi.
  - destruct (withdraw amount (get_account k i)). intros H. injection H as <- _.
    simpl. apply length_insert.
  - intros H. injection H as <- _. reflexivity.
Qed.

Lemma acct_deposit_length r k amount m :
  length (institutions (acct_deposit r k amount m)) = length (institutions m).
Proof.
  unfold acct_deposit, update_institution. destruct (institutions m !! r); [|reflexivity].
  simpl. apply length_insert.
Qed.

Lemma valid_ref_length {A : Type} (l l' : list A) (r : nat) :
  length l' = length l -> is_Some (l !! r) -> is_Some (l' !! r).
Proof.
  intros Hl H. apply lookup_lt_is_Some. rewrite Hl. apply lookup_lt_is_Some, H.
Qed.

(** The transfer block conserves both totals whenever it records a
    confirmation. *)
Lemma transfer_conserves report net_amount quantity adjusted m c :
  settlement_confirmations (transfer report net_amount quantity adjusted m)
  = settlement_confirmations m ++ [c] ->
  total_cash (transfer report net_amount quantity adjusted m) == total_cash m
  /\ total_securities (transfer report net_amount quantity adjusted m) == total_securities m.
Proof.
  unfold transfer, total_cash, total_securities.
  destruct (acct_withdraw (pr_payer report) Cash net_amount m) as [m1 paid] eqn:E1.
  destruct paid.
  2:{ apply acct_withdraw_false in E1. subst m1. simpl. intros H.
      apply (f_equal length) in H. rewrite length_app in H. simpl in H. lia. }
  set (m2 := acct_deposit (pr_payer report) Security quantity m1).
  set (m3 := acct_deposit (pr_deliverer report) Cash net_amount m2).
  destruct (acct_withdraw (pr_deliverer report) Security quantity m3) as [m4 delivered] eqn:E4.
  pose proof (acct_withdraw_valid _ _ _ _ _ E1) as Vp.
  pose proof (acct_withdraw_total _ _ _ _ _ E1) as (T1 & O1 & C1).
  assert (Vp1 : is_Some (institutions m1 !! pr_payer report)).
  { eapply valid_ref_length; [|exact Vp]. eapply lookup_set_institutions_length, E1. }
  pose proof (acct_deposit_total (pr_payer report) Security quantity m1 Vp1) as (T2 & O2 & C2).
  fold m2 in T2, O2, C2.
  destruct delivered.
  2:{ apply acct_withdraw_false in E4. subst m4. simpl. intros H.
      unfold m3 in H. unfold acct_deposit, update_institution in H.
      destruct (institutions m2 !! pr_deliverer report); simpl in H;
        rewrite C2, C1 in H; apply (f_equal length) in H; rewrite length_app in H;
        simpl in H; lia. }
  intros _.
  pose proof (acct_withdraw_valid _ _ _ _ _ E4) as Vd3.
  assert (Vd2 : is_Some (institutions m2 !! pr_deliverer report)).
  { eapply valid_ref_length; [|exact Vd3]. symmetry. apply acct_deposit_length. }
  pose proof (acct_deposit_total (pr_deliverer report) Cash net_amount m2 Vd2) as (T3 & O3 & C3).
  fold m3 in T3, O3, C3.
  pose proof (acct_withdraw_total _ _ _ _ _ E4) as (T4 & O4 & C4).
  assert (Hcs : Cash <> Security) by discriminate.
  assert (Hsc : Security <> Cash) by discriminate.
  pose proof (O1 Security Hcs). pose proof (O2 Cash Hsc).
  pose proof (O3 Security Hcs). pose proof (O4 Cash Hsc).
  split.
  - change (total Cash (log "SettlementAgent" "SettledTransaction" (pr_transaction_id report) ?x))
      with (total Cash x).
    rewrite (proj1 (send_message_total Cash _ _ _ _ _)).
    rewrite (proj1 (send_message_total Cash _ _ _ _ _)).
    change (total Cash (set_settlement_confirmations ?l m4)) with (total Cash m4).
    lra.
  - change (total Security (log "SettlementAgent" "SettledTransaction" (pr_transaction_id report) ?x))
      with (total Security x).
    rewrite (proj1 (send_message_total Security _ _ _ _ _)).
    rewrite (proj1 (send_message_total Security _ _ _ _ _)).
    change (total Security (set_settlement_confirmations ?l m4)) with (total Security m4).
    lra.
Qed.

(** ** Reports the payer cannot fund *)




(** ** Reports with quantity zero *)

Lemma send_message_accounts k from r ty c m j :
  get_account k <$> institutions (send_message from r ty c m) !! j
  = get_account k <$> institutions m !! j.
Proof.
  unfold send_message, update_institution.
  destruct (institutions m !! r) as [i|] eqn:Hi; [|reflexivity]. simpl.
  destruct (decide (r = j)) as [->|Hne].
  - rewrite (lookup_insert_same _ _ _ _ Hi), Hi. destruct i, k; reflexivity.
  - rewrite list_lookup_insert_ne by assumption. reflexivity.
Qed.

Lemma send_message_confirmations from r ty c m :
  settlement_confirmations (send_message from r ty c m) = settlement_confirmations m.
Proof.
  unfold send_message, update_institution. destruct (institutions m !! r); reflexivity.
Qed.

(** What a settled transfer between distinct institutions leaves in the
    accounts and in the list of confirmations. *)
Lemma settled_transfer report net_amount quantity adjusted m p d :
  institutions m !! pr_payer report = Some p ->
  institutions m !! pr_deliverer report = Some d ->
  pr_payer report <> pr_deliverer report ->
  check_balance (cash_account p) net_amount = true ->
  check_balance (security_account d) quantity = true ->
  let m' := transfer report net_amount quantity adjusted m in
  settlement_confirmations m'
  = settlement_confirmations m
    ++ [mkConfirmation (pr_transaction_id report) (if adjusted then "Partial" else "Full")
          quantity net_amount]
  /\ get_account Cash <$> institutions m' !! pr_payer report
     = Some (mkAccount (account_type (cash_account p))
               (balance (cash_account p) - net_amount) (min_balance (cash_account p)))
  /\ get_account Security <$> institutions m' !! pr_payer report
     = Some (deposit quantity (security_account p))
  /\ get_account Cash <$> institutions m' !! pr_deliverer report
     = Some (deposit net_amount (cash_account d))
  /\ get_account Security <$> institutions m' !! pr_deliverer report
     = Some (mkAccount (account_type (security_account d))
               (balance (security_account d) - quantity) (min_balance (security_account d))).
Proof.
  intros Hp Hd Hne Ep Ed m'.
  pose proof (transfer_settles report net_amount quantity adjusted m p d Hp Hd Hne Ep Ed) as H.
  simpl in H. subst m'. rewrite H. clear H.
  split.
  { change (settlement_confirmations (log ?a ?b ?c ?x)) with (settlement_confirmations x).
    rewrite !send_message_confirmations. reflexivity. }
  change (institutions (log ?a ?b ?c ?x)) with (institutions x).
  rewrite !send_message_accounts. simpl.
  assert (Hne' : pr_deliverer report <> pr_payer report) by congruence.
  assert (Hd' : is_Some (<[pr_payer report := p]> (institutions m) !! pr_deliverer report)).
  { rewrite list_lookup_insert_ne by assumption. eauto. }
  repeat split.
  - rewrite list_lookup_insert_ne by assumption.
    rewrite (lookup_insert_same _ _ _ _ Hp). reflexivity.
  - rewrite list_lookup_insert_ne by assumption.
    rewrite (lookup_insert_same _ _ _ _ Hp). reflexivity.
  - rewrite list_lookup_insert_eq; [reflexivity|].
    rewrite length_insert. apply (lookup_lt_Some _ _ _ Hd).
  - rewrite list_lookup_insert_eq; [reflexivity|].
    rewrite length_insert. apply (lookup_lt_Some _ _ _ Hd).
Qed.

Lemma update_institution_other r f m j :
  j <> r -> institutions (update_institution r f m) !! j = institutions m !! j.
Proof.
  intros H. unfold update_institution. destruct (institutions m !! r); [|reflexivity].
  simpl. apply list_lookup_insert_ne. auto.
Qed.

Lemma acct_withdraw_other r k amount m j :
  j <> r -> institutions (acct_withdraw r k amount m).1 !! j = institutions m !! j.
Proof.
  intros H. unfold acct_withdraw. destruct (institutions m !! r) as [i|]; [|reflexivity].
  destruct (withdraw amount (get_account k i)). simpl. apply list_lookup_insert_ne. auto.
Qed.

(** The transfer block touches the payer and the deliverer only. *)
Lemma transfer_others report net_amount quantity adjusted m r :
  r <> pr_payer report -> r <> pr_deliverer report ->
  institutions (transfer report net_amount quantity adjusted m) !! r = institutions m !! r.
Proof.
  intros Hp Hd. unfold transfer.
  pose proof (acct_withdraw_other (pr_payer report) Cash net_amount m r Hp) as H1.
  destruct (acct_withdraw (pr_payer report) Cash net_amount m) as [m1 paid].
  simpl in H1. destruct paid; [|exact H1].
  set (m3 := acct_deposit (pr_deliverer report) Cash net_amount
               (acct_deposit (pr_payer report) Security quantity m1)).
  assert (H3 : institutions m3 !! r = institutions m !! r).
  { unfold m3, acct_deposit. rewrite !update_institution_other by assumption. exact H1. }
  pose proof (acct_withdraw_other (pr_deliverer report) Security quantity m3 r Hd) as H4.
  destruct (acct_withdraw (pr_deliverer report) Security quantity m3) as [m4 delivered].
  simpl in H4. destruct delivered; [|simpl; congruence].
  change (institutions
            (send_message "SettlementAgent" (pr_deliverer report) "settlement_confirmation"
               [("transaction_id", pr_transaction_id report);
                ("settlement_status", if adjusted then "Partial" else "Full")]
               (send_message "SettlementAgent" (pr_payer report) "settlement_confirmation"
                  [("transaction_id", pr_transaction_id report);
                   ("settlement_status", if adjusted then "Partial" else "Full")]
                  (set_settlement_confirmations
                     (settlement_confirmations m4
                      ++ [mkConfirmation (pr_transaction_id report)
                            (if adjusted then "Partial" else "Full") quantity net_amount])
                     m4))) !! r
          = institutions m !! r).
  unfold send_message. rewrite !update_institution_other by assumption.
  simpl. congruence.
Qed.

(** A report for which a confirmation is recorded went through the
    transfer block. *)
Lemma confirmed_report_transferred report m m' c :
  settle_report report m = Returned m' ->
  settlement_confirmations m' = settlement_confirmations m ++ [c] ->
  exists net_amount quantity adjusted,
    m' = transfer report net_amount quantity adjusted m.
Proof.
  unfold settle_report.
  assert (Hno : forall l : list SettlementConfirmation, l = l ++ [c] -> False).
  { intros l H. apply (f_equal length) in H. rewrite length_app in H. simpl in H. lia. }
  destruct (institutions m !! pr_payer report) as [p|];
    [destruct (institutions m !! pr_deliverer report) as [d|]|].
  - destruct (cash_check p (pr_net_amount report) (pr_quantity report) (report_price report))
      as [| |net_amount quantity adjusted].
    + intros H. injection H as <-. intros H. destruct (Hno _ H).
    + discriminate.
    + destruct (security_check d net_amount quantity (report_price report) adjusted)
        as [[[net' quantity'] adjusted']|].
      * intros H. injection H as <-. eauto.
      * intros H. injection H as <-. intros H. destruct (Hno _ H).
  - intros H. injection H as <-. intros H. destruct (Hno _ H).
  - intros H. injection H as <-. intros H. destruct (Hno _ H).
Qed.

(** C5 (amended).  Whenever the Settlement stage settles a report, that
    is, records a confirmation for it:

    - between two distinct institutions, the cash of the payer is debited
      and the cash of the deliverer credited with the same amount, the net
      amount of the confirmation; the securities of the payer are credited
      and those of the deliverer debited with the same quantity, the
      quantity of the confirmation; and no other institution changes;
    - when the settlement is Full and the four balances, the net amount and
      the quantity are integers of magnitude at most 2^50, so that none of
      these updates rounds, the sum of the balances of all cash accounts
      and the sum of the balances of all security accounts are what they
      were before.

    In the first program, an attempt of [TransactionAgent.settle] for an
    amount that is not negative, that returns without marking the
    transaction Failed, changes no account. *)
Theorem settlement_conserves (report : PositioningReport) (m m' : SettlementModel)
  (c : SettlementConfirmation) (p d : InstitutionAgent) :
  settle_report report m = Returned m' ->
  settlement_confirmations m' = settlement_confirmations m ++ [c] ->
  institutions m !! pr_payer report = Some p ->
  institutions m !! pr_deliverer report = Some d ->
  (pr_payer report <> pr_deliverer report ->
   balance <$> (cash_account <$> institutions m' !! pr_payer report)
   = Some (balance (cash_account p) - adjusted_net_amount c)
   /\ balance <$> (cash_account <$> institutions m' !! pr_deliverer report)
      = Some (balance (cash_account d) + adjusted_net_amount c)
   /\ balance <$> (security_account <$> institutions m' !! pr_payer report)
      = Some (balance (security_account p) + adjusted_quantity c)
   /\ balance <$> (security_account <$> institutions m' !! pr_deliverer report)
      = Some (balance (security_account d) - adjusted_quantity c)
   /\ forall r, r <> pr_payer report -> r <> pr_deliverer report ->
                institutions m' !! r = institutions m !! r)
  /\ (settlement_status c = "Full" ->
      PyNum.exact (balance (cash_account p)) = true ->
      PyNum.exact (balance (security_account p)) = true ->
      PyNum.exact (balance (cash_account d)) = true ->
      PyNum.exact (balance (security_account d)) = true ->
      PyNum.exact (pr_net_amount report) = true ->
      PyNum.exact (pr_quantity report) = true ->
      total_cash m' == total_cash m /\ total_securities m' == total_securities m)
  /\ (forall (tx : AgentSim.TransactionAgent) (sm : AgentSim.SettlementModel) tx' sm',
        0 <= AgentSim.tx_amount tx ->
        AgentSim.TransactionAgent_settle tx sm = Returned (tx', sm') ->
        AgentSim.tx_state tx' <> "Failed" ->
        AgentSim.model_accounts sm' = AgentSim.model_accounts sm).
Proof.
  intros Hr Hc Hp Hd.
  destruct (confirmed_report_transferred report m m' c Hr Hc) as (n & q & a & ->).
  assert (Hno : forall l : list SettlementConfirmation, l = l ++ [c] -> False).
  { intros l H. apply (f_equal length) in H. rewrite length_app in H. simpl in H. lia. }
  split; [|split].
  - intros Hne.
    destruct (check_balance (cash_account p) n) eqn:Ep.
    2:{ rewrite (transfer_payer_fails report n q a m p Hp Ep) in Hc. destruct (Hno _ Hc). }
    destruct (check_balance (security_account d) q) eqn:Ed.
    2:{ rewrite (transfer_deliverer_fails report n q a m p d Hp Hd Hne Ep Ed) in Hc.
        destruct (Hno _ Hc). }
    destruct (settled_transfer report n q a m p d Hp Hd Hne Ep Ed)
      as (F & Bpc & Bps & Bdc & Bds).
    cbv zeta in F, Bpc, Bps, Bdc, Bds.
    rewrite F in Hc. apply app_inj_tail in Hc as [_ <-]. simpl.
    change cash_account with (get_account Cash).
    change security_account with (get_account Security).
    rewrite Bpc, Bps, Bdc, Bds. simpl.
    repeat (split; [reflexivity|]).
    intros r H1 H2. apply transfer_others; assumption.
  - intros _ _ _ _ _ _ _. exact (transfer_conserves report n q a m c Hc).
  - intros tx sm tx' sm'. apply AgentSimFacts.settle_unfailed_keeps_accounts.
Qed.

Lemma settlement_conserves_witness :
  balance <$> (cash_account
                 <$> institutions (result_state
                                     (settle_report Scenarios.report_1 Scenarios.m_two)) !! 0%nat)
  = Some (1000000 - 200)
  /\ balance <$> (cash_account
                    <$> institutions (result_state
                                        (settle_report Scenarios.report_1 Scenarios.m_two))
                        !! 1%nat)
     = Some (1000000 + 200)
  /\ total_cash (result_state (settle_report Scenarios.report_1 Scenarios.m_two))
     == total_cash Scenarios.m_two
  /\ total_securities (result_state (settle_report Scenarios.report_1 Scenarios.m_two))
     == total_securities Scenarios.m_two.
Proof.
  destruct (settlement_conserves Scenarios.report_1 Scenarios.m_two
              (result_state (settle_report Scenarios.report_1 Scenarios.m_two))
              (mkConfirmation "TX-1" "Full" 10 200) Scenarios.inst_1 Scenarios.inst_2)
    as (Ha & Hb & _); try reflexivity.
  destruct Ha as (B1 & B2 & _); [discriminate|].
  destruct Hb as [T1 T2]; try reflexivity.
  split; [exact B1|]. split; [exact B2|]. split; [exact T1 | exact T2].
Defined.


(** C8, as stated, fails.  A report with quantity zero and net amount 500
    between two institutions as the model creates them is settled: a Full
    confirmation is recorded and 500 moves from the payer's cash to the
    deliverer's.  With a payer that has cash 100 the same report ends the
    step with a division by zero. *)
Lemma zero_quantity_not_skipped :
  pr_quantity Scenarios.report_zero == 0
  /\ (exists m',
        settle_report Scenarios.report_zero Scenarios.m_two = Returned m'
        /\ settlement_confirmations m' = [mkConfirmation "TX-9" "Full" 0 500]
        /\ cash_account <$> institutions Scenarios.m_two !! 0%nat
           = Some (mkAccount "Cash" 1000000 10000)
        /\ cash_account <$> institutions m' !! 0%nat = Some (mkAccount "Cash" 999500 10000)
        /\ cash_account <$> institutions m' !! 1%nat = Some (mkAccount "Cash" 1000500 10000))
  /\ settle_report Scenarios.report_zero Scenarios.m_poor
     = Raised "ZeroDivisionError" Scenarios.m_poor
  /\ settlement_step (set_positioning_reports [Scenarios.report_zero] Scenarios.m_poor)
     = Raised "ZeroDivisionError"
         (set_positioning_reports [Scenarios.report_zero] Scenarios.m_poor).
Proof.
  split; [reflexivity|]. split; [|split; reflexivity].
  eexists. split; [vm_compute; reflexivity|]. repeat split.
Qed.

(** C8 (amended).  For a report with quantity zero the Settlement stage
    takes the price to be 0 without dividing and does not skip the report.
    When the payer's cash account can fund the net amount and the
    deliverer's securities are at or above their minimum balance, the
    report is settled like any other: the net amount leaves the payer's
    cash account and reaches the deliverer's, the security accounts move by
    the quantity, and a Full confirmation is recorded. *)
Theorem zero_quantity_report_settles (report : PositioningReport) (m : SettlementModel)
  (p d : InstitutionAgent) :
  institutions m !! pr_payer report = Some p ->
  institutions m !! pr_deliverer report = Some d ->
  pr_payer report <> pr_deliverer report ->
  pr_quantity report == 0 ->
  min_balance (cash_account p) <= balance (cash_account p) - pr_net_amount report ->
  min_balance (security_account d) <= balance (security_account d) ->
  report_price report = 0
  /\ exists m',
       settle_report report m = Returned m'
       /\ settlement_confirmations m'
          = settlement_confirmations m
            ++ [mkConfirmation (pr_transaction_id report) "Full"
                  (pr_quantity report) (pr_net_amount report)]
       /\ cash_account <$> institutions m' !! pr_payer report
          = Some (mkAccount (account_type (cash_account p))
                    (balance (cash_account p) - pr_net_amount report)
                    (min_balance (cash_account p)))
       /\ security_account <$> institutions m' !! pr_payer report
          = Some (deposit (pr_quantity report) (security_account p))
       /\ cash_account <$> institutions m' !! pr_deliverer report
          = Some (deposit (pr_net_amount report) (cash_account d))
       /\ security_account <$> institutions m' !! pr_deliverer report
          = Some (mkAccount (account_type (security_account d))
                    (balance (security_account d) - pr_quantity report)
                    (min_balance (security_account d))).
Proof.
  intros Hp Hd Hne Hq Hfund Hsec.
  assert (Hprice : report_price report = 0).
  { unfold report_price. apply PyNumFacts.truthy_false in Hq. rewrite Hq. reflexivity. }
  split; [exact Hprice|].
  assert (Ep : check_balance (cash_account p) (pr_net_amount report) = true)
    by (apply check_balance_true; assumption).
  assert (Ed : check_balance (security_account d) (pr_quantity report) = true).
  { apply check_balance_true. rewrite Hq. lra. }
  eexists. split.
  - unfold settle_report, cash_check, security_check. rewrite Hp, Hd, Ep. simpl.
    rewrite Ed. reflexivity.
  - apply (settled_transfer report _ _ false m p d Hp Hd Hne Ep Ed).
Qed.

Lemma zero_quantity_report_settles_witness :
  exists m',
    settle_report Scenarios.report_zero Scenarios.m_two = Returned m'
    /\ settlement_confirmations m' = [mkConfirmation "TX-9" "Full" 0 500].
Proof.
  destruct (zero_quantity_report_settles Scenarios.report_zero Scenarios.m_two
              Scenarios.inst_1 Scenarios.inst_2) as [_ [m' [H1 [H2 _]]]];
    try reflexivity; try (vm_compute; discriminate).
  exists m'. split; [exact H1 | exact H2].
Defined.

(** ** Validation *)

Lemma validate_iff (i : SettlementInstruction) :
  validate i = true <-> 0 < quantity i /\ 0 < price i.
Proof.
  unfold validate. rewrite andb_true_iff, !PyNumFacts.gtb_true. reflexivity.
Qed.

Lemma cancel_pass_fold (items : list QueueItem) : forall m,
  let txs := queued_cancellations items in
  let m' := foldl cancel_pass m items in
  instructions m' = cancel_item_all txs <$> instructions m
  /\ validated_instructions m' = cancel_all txs <$> validated_instructions m
  /\ institutions m' = institutions m
  /\ current_step m' = current_step m
  /\ logger m' = logger m ++ cancel_rows (current_step m) txs.
Proof.
  induction items as [|it items IH]; intros m; simpl.
  - rewrite !list_fmap_id, app_nil_r. auto.
  - destruct it as [i|c]; simpl.
    + apply IH.
    + destruct (IH (process_cancel_instruction c m)) as (H1 & H2 & H3 & H4 & H5).
      rewrite H1, H2, H3, H4, H5. clear IH H1 H2 H3 H4 H5.
      unfold process_cancel_instruction.
      destruct (Dict.mem (cancel_transaction_id c) (matched_pairs _)); simpl;
        rewrite <- !list_fmap_compose, <- app_assoc; auto.
Qed.

Lemma cancel_item_all_instruction txs : forall i,
  cancel_item_all txs (Instruction i) = Instruction (cancel_all txs i).
Proof. induction txs as [|tx txs IH]; intros i; simpl; [reflexivity | apply IH]. Qed.

Lemma cancel_item_all_cancellation txs : forall c,
  cancel_item_all txs (Cancellation c) = Cancellation c.
Proof. induction txs as [|tx txs IH]; intros c; simpl; [reflexivity | apply IH]. Qed.

Lemma remaining_after_cancel txs items :
  List.filter (fun it => negb (is_cancellation it)) (cancel_item_all txs <$> items)
  = Instruction <$> (cancel_all txs <$> queued_instructions items).
Proof.
  induction items as [|[i|c] items IH]; simpl; [reflexivity| |].
  - rewrite cancel_item_all_instruction. simpl. f_equal. apply IH.
  - rewrite cancel_item_all_cancellation. simpl. apply IH.
Qed.

Lemma send_message_inbox from r' ty c m r :
  inbox <$> institutions (send_message from r' ty c m) !! r
  = (fun ib => if decide (r' = r) then ib ++ [mkMessage from ty c] else ib)
      <$> (inbox <$> institutions m !! r).
Proof.
  unfold send_message, update_institution.
  destruct (decide (r' = r)) as [->|Hne].
  - destruct (institutions m !! r) as [i|] eqn:Hi; simpl.
    + rewrite (lookup_insert_same _ _ _ _ Hi), ?Hi. reflexivity.
    + rewrite ?Hi. reflexivity.
  - destruct (institutions m !! r') as [i|] eqn:Hi; simpl.
    + rewrite list_lookup_insert_ne by assumption.
      destruct (institutions m !! r); reflexivity.
    + destruct (institutions m !! r); reflexivity.
Qed.

(** A message changes nothing but an inbox. *)
Ltac update_field :=
  unfold send_message, acct_deposit, update_institution;
  match goal with
  | |- context [institutions ?m !! ?r] => destruct (institutions m !! r)
  end; reflexivity.

Lemma send_message_current_step from r ty c m :
  current_step (send_message from r ty c m) = current_step m.
Proof. update_field. Qed.

Lemma send_message_logger from r ty c m :
  logger (send_message from r ty c m) = logger m.
Proof. update_field. Qed.

Lemma send_message_instructions from r ty c m :
  instructions (send_message from r ty c m) = instructions m.
Proof. update_field. Qed.

Lemma send_message_validated_instructions from r ty c m :
  validated_instructions (send_message from r ty c m) = validated_instructions m.
Proof. update_field. Qed.

Lemma send_message_matched_pairs from r ty c m :
  matched_pairs (send_message from r ty c m) = matched_pairs m.
Proof. update_field. Qed.

Lemma send_message_clearing_reports from r ty c m :
  clearing_reports (send_message from r ty c m) = clearing_reports m.
Proof. update_field. Qed.

Lemma send_message_positioning_reports from r ty c m :
  positioning_reports (send_message from r ty c m) = positioning_reports m.
Proof. update_field. Qed.

Lemma send_message_tx_counter from r ty c m :
  tx_counter (send_message from r ty c m) = tx_counter m.
Proof. update_field. Qed.

Lemma send_message_total_possible_net from r ty c m :
  total_possible_net (send_message from r ty c m) = total_possible_net m.
Proof. update_field. Qed.

Ltac send_simpl :=
  rewrite ?send_message_current_step, ?send_message_logger, ?send_message_instructions,
    ?send_message_validated_instructions, ?send_message_matched_pairs,
    ?send_message_clearing_reports, ?send_message_positioning_reports,
    ?send_message_tx_counter, ?send_message_confirmations.

Lemma validate_fold (pending : list SettlementInstruction) : forall m,
  let m' := foldl validate_item m (Instruction <$> pending) in
  let checked := filter (fun i => status i <> "Canceled") pending in
  instructions m' = instructions m
  /\ validated_instructions m'
     = validated_instructions m ++ filter (fun i => validate i = true) checked
  /\ (forall r,
        inbox <$> institutions m' !! r
        = (fun ib => ib ++ (validation_notice
                              <$> filter (fun i => sendingInstitution i = r) checked))
            <$> (inbox <$> institutions m !! r))
  /\ current_step m' = current_step m
  /\ logger m' = logger m ++ (validation_row (current_step m) <$> pending).
Proof.
  induction pending as [|i pending IH]; intros m; simpl.
  - rewrite !app_nil_r. repeat split; try reflexivity.
    intros r. destruct (institutions m !! r); simpl; [rewrite app_nil_r|]; reflexivity.
  - change (list_fmap SettlementInstruction QueueItem Instruction pending)
      with (Instruction <$> pending).
    unfold validation_row at 1.
    destruct (String.eqb_spec (status i) "Canceled") as [Hc|Hc].
    + rewrite filter_cons_False by (intros H; apply H, Hc).
      destruct (IH (log "ValidationAgent" "SkippedCanceledInstruction" (instruction_id i) m))
        as (H1 & H2 & H3 & H4 & H5).
      rewrite H1, H2, H4, H5. simpl. rewrite <- app_assoc. split; [reflexivity|]. split; [reflexivity|]. split; [|split; reflexivity].
      intros r. rewrite H3. reflexivity.
    + rewrite filter_cons_True by assumption.
      destruct (validate i) eqn:Hv.
      * rewrite filter_cons_True by assumption.
        match goal with |- context [foldl validate_item ?m0 _] =>
          destruct (IH m0) as (H1 & H2 & H3 & H4 & H5) end.
        rewrite H1, H2, H4, H5. simpl. send_simpl. simpl. rewrite <- !app_assoc. split; [reflexivity|]. split; [reflexivity|]. split; [|split; reflexivity].
        intros r. rewrite H3.
        change (institutions (log ?a ?b ?c ?x)) with (institutions x).
        rewrite send_message_inbox. simpl.
        destruct (institutions m !! r) as [j|]; simpl; [|reflexivity].
        rewrite filter_cons.
        destruct (decide (sendingInstitution i = r)); [|reflexivity].
        rewrite fmap_cons, <- app_assoc.
        replace (validation_notice i :: nil) with [validation_notice i] by reflexivity.
        unfold validation_notice at 2. rewrite Hv. reflexivity.
      * rewrite filter_cons_False by (rewrite Hv; discriminate).
        match goal with |- context [foldl validate_item ?m0 _] =>
          destruct (IH m0) as (H1 & H2 & H3 & H4 & H5) end.
        rewrite H1, H2, H4, H5. simpl. send_simpl. simpl. rewrite <- !app_assoc. split; [reflexivity|]. split; [reflexivity|]. split; [|split; reflexivity].
        intros r. rewrite H3.
        change (institutions (log ?a ?b ?c ?x)) with (institutions x).
        rewrite send_message_inbox. simpl.
        destruct (institutions m !! r) as [j|]; simpl; [|reflexivity].
        rewrite filter_cons.
        destruct (decide (sendingInstitution i = r)); [|reflexivity].
        rewrite fmap_cons, <- app_assoc.
        replace (validation_notice i :: nil) with [validation_notice i] by reflexivity.
        unfold validation_notice at 2. rewrite Hv. reflexivity.
Qed.

Lemma cancel_tx_same tx i :
  transaction_id i = tx -> live (status (cancel_tx tx i)) = false.
Proof.
  intros <-. unfold cancel_tx, cancel. rewrite String.eqb_refl. simpl.
  destruct (live (status i)) eqn:E; simpl; [reflexivity | exact E].
Qed.

Lemma cancel_tx_other tx i : transaction_id i <> tx -> cancel_tx tx i = i.
Proof.
  intros H. unfold cancel_tx. apply String.eqb_neq in H. rewrite H. reflexivity.
Qed.


Lemma cancel_tx_dead tx i : live (status i) = false -> cancel_tx tx i = i.
Proof.
  intros H. unfold cancel_tx. rewrite H, andb_false_r. reflexivity.
Qed.

Lemma cancel_all_dead txs : forall i, live (status i) = false -> cancel_all txs i = i.
Proof.
  induction txs as [|tx txs IH]; intros i H; simpl; [reflexivity|].
  rewrite cancel_tx_dead by assumption. apply IH, H.
Qed.

Lemma cancel_all_named txs : forall i,
  transaction_id i ∈ txs -> live (status (cancel_all txs i)) = false.
Proof.
  induction txs as [|tx txs IH]; intros i H; simpl.
  - inversion H.
  - destruct (decide (transaction_id i = tx)) as [E|E].
    + rewrite cancel_all_dead; apply cancel_tx_same, E.
    + rewrite cancel_tx_other by assumption. apply IH.
      apply elem_of_cons in H as [H|H]; [contradiction | assumption].
Qed.

Lemma cancel_all_unnamed txs : forall i, transaction_id i ∉ txs -> cancel_all txs i = i.
Proof.
  induction txs as [|tx txs IH]; intros i H; simpl; [reflexivity|].
  apply not_elem_of_cons in H as [H1 H2].
  rewrite cancel_tx_other by assumption. apply IH, H2.
Qed.

Lemma validation_step_unfold m :
  let m1 := foldl cancel_pass m (instructions m) in
  let txs := queued_cancellations (instructions m) in
  let pending := cancel_all txs <$> queued_instructions (instructions m) in
  validation_step m = foldl validate_item (set_instructions [] m1) (Instruction <$> pending).
Proof.
  intros m1 txs pending. unfold validation_step. fold m1.
  destruct (cancel_pass_fold (instructions m) m) as (H1 & _). fold m1 txs in H1.
  rewrite H1, remaining_after_cancel. fold pending. simpl.
  destruct pending as [|i pending]; reflexivity.
Qed.


(** ** Dictionaries *)

Lemma keys_set {V : Type} (k : string) (v : V) (d : list (string * V)) (k' : string) :
  k' ∈ Dict.keys (Dict.set k v d) <-> k' = k \/ k' ∈ Dict.keys d.
Proof.
  unfold Dict.keys. induction d as [|[k0 v0] d IH]; simpl.
  - rewrite list_elem_of_singleton. split; [auto|]. intros [H|H]; [exact H | inversion H].
  - destruct (String.eqb_spec k0 k) as [->|Hne]; simpl; rewrite !elem_of_cons.
    + tauto.
    + rewrite IH. tauto.
Qed.

Lemma keys_filter {V : Type} (P : string * V -> Prop) `{forall x, Decision (P x)}
  (d : list (string * V)) (k : string) :
  k ∈ Dict.keys (filter P d) -> k ∈ Dict.keys d.
Proof.
  unfold Dict.keys. rewrite !list_elem_of_fmap. intros [kv [-> Hin]].
  apply list_elem_of_filter in Hin as [_ Hin]. eauto.
Qed.

Lemma keys_del {V : Type} (k : string) (d : list (string * V)) (k' : string) :
  k' ∈ Dict.keys (Dict.del k d) <-> k' <> k /\ k' ∈ Dict.keys d.
Proof.
  unfold Dict.keys, Dict.del. rewrite !list_elem_of_fmap. split.
  - intros [kv [-> Hin]]. apply list_elem_of_filter in Hin as [Hne Hin]. eauto.
  - intros [Hne [kv [-> Hin]]]. exists kv. split; [reflexivity|].
    apply list_elem_of_filter. auto.
Qed.


(** ** What leaves the queues alone *)

Lemma queues_log a e t m : queues (log a e t m) = queues m.
Proof. reflexivity. Qed.

Lemma queues_update_institution r f m : queues (update_institution r f m) = queues m.
Proof. unfold update_institution. destruct (institutions m !! r); reflexivity. Qed.

Lemma queues_send_message from r ty c m : queues (send_message from r ty c m) = queues m.
Proof. apply queues_update_institution. Qed.

Lemma queues_acct_deposit r k a m : queues (acct_deposit r k a m) = queues m.
Proof. apply queues_update_institution. Qed.

Lemma queues_acct_withdraw r k a m :
  queues (acct_withdraw r k a m).1 = queues m
  /\ settlement_confirmations (acct_withdraw r k a m).1 = settlement_confirmations m.
Proof.
  unfold acct_withdraw. destruct (institutions m !! r) as [i|]; [|split; reflexivity].
  destruct (withdraw a (get_account k i)). split; reflexivity.
Qed.

Lemma confirmations_update_institution r f m :
  settlement_confirmations (update_institution r f m) = settlement_confirmations m.
Proof. unfold update_institution. destruct (institutions m !! r); reflexivity. Qed.


(** The transfer block touches no queue, and the only confirmation it can
    add bears the transaction of the report. *)
Lemma transfer_queues report net_amount quantity adjusted m :
  let m' := transfer report net_amount quantity adjusted m in
  queues m' = queues m
  /\ (settlement_confirmations m' = settlement_confirmations m
      \/ exists c, sc_transaction_id c = pr_transaction_id report
                   /\ settlement_confirmations m' = settlement_confirmations m ++ [c]).
Proof.
  unfold transfer.
  pose proof (queues_acct_withdraw (pr_payer report) Cash net_amount m) as [Q1 C1].
  destruct (acct_withdraw (pr_payer report) Cash net_amount m) as [m1 paid]. simpl in Q1, C1.
  destruct paid; [|split; [rewrite queues_log; exact Q1 | left; exact C1]].
  set (m3 := acct_deposit (pr_deliverer report) Cash net_amount
               (acct_deposit (pr_payer report) Security quantity m1)).
  assert (Q3 : queues m3 = queues m).
  { unfold m3. rewrite !queues_acct_deposit. exact Q1. }
  assert (C3 : settlement_confirmations m3 = settlement_confirmations m).
  { unfold m3, acct_deposit. rewrite !confirmations_update_institution. exact C1. }
  pose proof (queues_acct_withdraw (pr_deliverer report) Security quantity m3) as [Q4 C4].
  destruct (acct_withdraw (pr_deliverer report) Security quantity m3) as [m4 delivered].
  simpl in Q4, C4.
  destruct delivered.
  - split.
    + rewrite queues_log, !queues_send_message. simpl. rewrite <- Q3, <- Q4. reflexivity.
    + right. eexists. split; [|].
      2:{ change (settlement_confirmations (log ?a ?b ?c ?x)) with (settlement_confirmations x).
          rewrite !send_message_confirmations. simpl. rewrite C4, C3. reflexivity. }
      reflexivity.
  - split; [rewrite queues_log, Q4; exact Q3 | left; simpl; rewrite C4; exact C3].
Qed.


(** ** What each stage does to the queues *)

Lemma position_fold reports : forall m,
  let m' := foldl position_report m reports in
  instructions m' = instructions m
  /\ validated_instructions m' = validated_instructions m
  /\ matched_pairs m' = matched_pairs m
  /\ clearing_reports m' = clearing_reports m
  /\ positioning_reports m'
     = positioning_reports m
       ++ ((fun r => mkPositioningReport (cr_transaction_id r) (cr_payer r) (cr_deliverer r)
                       (cr_quantity r) (cr_net_amount r)) <$> reports)
  /\ tx_counter m' = tx_counter m
  /\ settlement_confirmations m' = settlement_confirmations m.
Proof.
  induction reports as [|r reports IH]; intros m; simpl.
  - rewrite app_nil_r. repeat split.
  - destruct (IH (position_report m r)) as (H1 & H2 & H3 & H4 & H5 & H6 & H7).
    rewrite H1, H2, H3, H4, H5, H6, H7. simpl. rewrite <- app_assoc. repeat split.
Qed.

Lemma keys_insert_leg pairs instr k :
  k ∈ Dict.keys (insert_leg pairs instr) ->
  k ∈ Dict.keys pairs \/ (k = transaction_id instr /\ status instr <> "Canceled").
Proof.
  unfold insert_leg. destruct (String.eqb_spec (status instr) "Canceled") as [Hc|Hc]; [auto|].
  intros H. apply keys_set in H as [->|H]; [auto|].
  destruct (Dict.mem (transaction_id instr) pairs); [auto|].
  apply keys_set in H as [->|H]; auto.
Qed.

Lemma keys_fill_slots l : forall pairs k,
  k ∈ Dict.keys (foldl insert_leg pairs l) ->
  k ∈ Dict.keys pairs
  \/ exists instr, instr ∈ l /\ k = transaction_id instr /\ status instr <> "Canceled".
Proof.
  induction l as [|i l IH]; intros pairs k H; simpl in H; [auto|].
  apply IH in H as [H|(instr & Hin & Hk & Hs)].
  - apply keys_insert_leg in H as [H|[Hk Hs]]; [auto|].
    right. exists i. split; [apply list_elem_of_here | auto].
  - right. exists instr. split; [apply list_elem_of_further, Hin | auto].
Qed.

Lemma cancel_pass_rest (items : list QueueItem) : forall m,
  let m' := foldl cancel_pass m items in
  (forall k, k ∈ Dict.keys (matched_pairs m') ->
             k ∈ Dict.keys (matched_pairs m) /\ k ∉ queued_cancellations items)
  /\ clearing_reports m' = clearing_reports m
  /\ positioning_reports m' = positioning_reports m
  /\ tx_counter m' = tx_counter m
  /\ settlement_confirmations m' = settlement_confirmations m.
Proof.
  induction items as [|it items IH]; intros m; simpl.
  - repeat split; try assumption. intros H0. inversion H0.
  - destruct it as [i|c]; simpl; [apply IH|].
    destruct (IH (process_cancel_instruction c m)) as (H1 & H2 & H3 & H4 & H5).
    rewrite H2, H3, H4, H5. clear H2 H3 H4 H5.
    assert (Hk : forall k, k ∈ Dict.keys (matched_pairs (process_cancel_instruction c m)) ->
                           k ∈ Dict.keys (matched_pairs m) /\ k <> cancel_transaction_id c).
    { intros k. unfold process_cancel_instruction. simpl.
      destruct (Dict.mem (cancel_transaction_id c) (matched_pairs m)) eqn:E; simpl.
      - intros H. apply keys_del in H. tauto.
      - intros H. split; [exact H|]. intros ->. revert E H. unfold Dict.mem, Dict.keys.
        induction (matched_pairs m) as [|[k0 v0] d IHd]; simpl; [intros _ H; inversion H|].
        destruct (String.eqb_spec k0 (cancel_transaction_id c)); [discriminate|].
        intros E H. apply elem_of_cons in H as [H|H]; [congruence | auto]. }
    split; [|unfold process_cancel_instruction;
              destruct (Dict.mem (cancel_transaction_id c) (matched_pairs _)); repeat split].
    intros k H. apply H1 in H as [H Hn]. apply Hk in H as [H Hne].
    split; [exact H|]. rewrite not_elem_of_cons. auto.
Qed.

Lemma validate_fold_rest (pending : list SettlementInstruction) : forall m,
  let m' := foldl validate_item m (Instruction <$> pending) in
  matched_pairs m' = matched_pairs m
  /\ clearing_reports m' = clearing_reports m
  /\ positioning_reports m' = positioning_reports m
  /\ tx_counter m' = tx_counter m
  /\ settlement_confirmations m' = settlement_confirmations m.
Proof.
  induction pending as [|i pending IH]; intros m; simpl; [repeat split|].
  change (list_fmap SettlementInstruction QueueItem Instruction pending)
    with (Instruction <$> pending).
  match goal with |- context [foldl validate_item ?m0 _] =>
    destruct (IH m0) as (H1 & H2 & H3 & H4 & H5) end.
  rewrite H1, H2, H3, H4, H5.
  destruct (String.eqb (status i) "Canceled"); [repeat split|].
  destruct (validate i); simpl; send_simpl; repeat split.
Qed.


Lemma live_Canceled : live "Canceled" = false.
Proof. reflexivity. Qed.



(** ** A cancelled transaction stays out of the pipeline *)

Section Suppressed.

Variable T : string.
Variable c0 : list SettlementConfirmation.




(** *** Settlement *)



(** *** Positioning *)


(** *** Clearing *)



(** *** Matching *)


(** *** Validation *)


(** *** Institutions and ticks *)




End Suppressed.

(** *** The cancellation itself *)

Lemma live_false st : live st = false <-> st = "Canceled" \/ st = "Settled".
Proof.
  unfold live. rewrite negb_false_iff, orb_true_iff, !String.eqb_eq. reflexivity.
Qed.

Lemma cancel_tx_status tx i :
  status (cancel_tx tx i) = status i \/ status (cancel_tx tx i) = "Canceled".
Proof.
  unfold cancel_tx, cancel.
  destruct (String.eqb (transaction_id i) tx && live (status i)); [|auto].
  destruct (live (status i)); auto.
Qed.

Lemma cancel_all_status txs : forall i,
  status (cancel_all txs i) = status i \/ status (cancel_all txs i) = "Canceled".
Proof.
  unfold cancel_all. induction txs as [|tx txs IH]; intros i; simpl; [auto|].
  destruct (IH (cancel_tx tx i)) as [-> | ->]; [apply cancel_tx_status | auto].
Qed.

Lemma cancel_all_canceled txs i :
  transaction_id i ∈ txs -> status i <> "Settled" -> status (cancel_all txs i) = "Canceled".
Proof.
  intros Hin Hs. pose proof (cancel_all_named txs i Hin) as H.
  apply live_false in H as [H|H]; [exact H|].
  destruct (cancel_all_status txs i) as [E|E]; [congruence | exact E].
Qed.

Lemma cancel_all_only_status txs : forall i,
  cancel_all txs i = i \/ cancel_all txs i = set_status "Canceled" i.
Proof.
  induction txs as [|tx txs IH]; intros i; [left; reflexivity|].
  assert (H : cancel_tx tx i = i \/ cancel_tx tx i = set_status "Canceled" i).
  { unfold cancel_tx, cancel.
    destruct (String.eqb (transaction_id i) tx && live (status i)); [|auto].
    destruct (live (status i)); auto. }
  simpl. destruct H as [-> | ->]; [apply IH|].
  right. apply cancel_all_dead. reflexivity.
Qed.

(** C9.  The Validation step applies every queued cancellation to the
    whole queue before it validates anything: an instruction is judged with
    the status it has after all of them, wherever they stand in the queue.
    A cancellation changes nothing but the status of an instruction, and
    sets it to Canceled for every instruction of the transaction it names
    that is not Settled.
    Of the remaining instructions that are not Canceled, those with
    quantity > 0 and price > 0 (and only those) are appended to the
    validated queue, each with a Valid notice to the sending institution;
    the others are dropped with an Invalid notice; Canceled instructions
    get neither, only a SkippedCanceledInstruction log row.  The incoming
    queue is empty afterwards. *)
Theorem validation_step_spec (m : SettlementModel) :
  let txs := queued_cancellations (instructions m) in
  let pending := cancel_all txs <$> queued_instructions (instructions m) in
  let checked := filter (fun i => status i <> "Canceled") pending in
  let m' := validation_step m in
  (forall i, validate i = true <-> 0 < quantity i /\ 0 < price i)
  /\ (forall i, transaction_id i ∈ txs -> live (status (cancel_all txs i)) = false)
  /\ (forall i, transaction_id i ∉ txs -> cancel_all txs i = i)
  /\ (forall i, transaction_id i ∈ txs -> status i <> "Settled" ->
                status (cancel_all txs i) = "Canceled")
  /\ (forall i, cancel_all txs i = i \/ cancel_all txs i = set_status "Canceled" i)
  /\ (forall i, status i = "Canceled" -> i ∉ checked)
  /\ instructions m' = []
  /\ validated_instructions m'
     = (cancel_all txs <$> validated_instructions m)
       ++ filter (fun i => validate i = true) checked
  /\ (forall r,
        inbox <$> institutions m' !! r
        = (fun ib => ib ++ (validation_notice
                              <$> filter (fun i => sendingInstitution i = r) checked))
            <$> (inbox <$> institutions m !! r))
  /\ logger m'
     = logger m ++ cancel_rows (current_step m) txs
       ++ (validation_row (current_step m) <$> pending).
Proof.
  intros txs pending checked m'.
  split; [apply validate_iff|].
  split; [apply cancel_all_named|].
  split; [apply cancel_all_unnamed|].
  split; [intros i; apply cancel_all_canceled|].
  split; [apply cancel_all_only_status|].
  split.
  { intros i Hi Hin. apply list_elem_of_filter in Hin as [Hn _]. contradiction. }
  subst m'. rewrite validation_step_unfold. fold txs pending.
  destruct (cancel_pass_fold (instructions m) m) as (_ & C2 & C3 & C4 & C5).
  fold txs in C2, C5.
  match goal with |- context [foldl validate_item ?m0 _] =>
    destruct (validate_fold pending m0) as (V1 & V2 & V3 & V4 & V5) end.
  fold checked in V2, V3. simpl in V1, V2, V3, V4, V5.
  rewrite V1, V2, V5, C2, C4, C5, <- app_assoc.
  split; [reflexivity|]. split; [reflexivity|]. split; [|reflexivity].
  intros r. rewrite V3, C3. reflexivity.
Qed.

Lemma validation_step_spec_witness :
  validated_instructions (validation_step Scenarios.m_queue)
  = [Scenarios.pay_leg "TX-1" 10 20; Scenarios.sec_leg "TX-1" 10 20]
  /\ (inbox <$> institutions (validation_step Scenarios.m_queue) !! 0%nat
      = Some [validation_notice (Scenarios.pay_leg "TX-1" 10 20);
              validation_notice (Scenarios.pay_leg "TX-3" 0 30)]).
Proof.
  destruct (validation_step_spec Scenarios.m_queue)
    as (_ & _ & _ & _ & _ & _ & _ & Hv & Hi & _).
  split; [rewrite Hv | rewrite Hi]; reflexivity.
Defined.





(** ** Matching *)

(** C3, as stated, fails.  With only the Payment leg of TX-1 validated,
    the Matching step leaves no entry for TX-1 in the table and empties the
    validated queue; when the Security leg is validated later, the next
    Matching step finds no Payment leg and again keeps nothing.  Both legs
    validated together do make a pair. *)
Lemma incomplete_pair_discarded :
  let m1 := matching_step Scenarios.m_one_leg in
  let m2 := matching_step
              (set_validated_instructions [Scenarios.sec_leg "TX-1" 10 20] m1) in
  Dict.get "TX-1" (fill_slots Scenarios.m_one_leg)
  = Some (mkPair (Some (Scenarios.pay_leg "TX-1" 10 20)) None)
  /\ matched_pairs m1 = []
  /\ validated_instructions m1 = []
  /\ matched_pairs m2 = []
  /\ validated_instructions m2 = []
  /\ matched_pairs
       (matching_step Scenarios.m_both_legs)
     = [("TX-1", mkPair (Some (Scenarios.pay_leg "TX-1" 10 20))
                   (Some (Scenarios.sec_leg "TX-1" 10 20)))].
Proof. repeat split. Qed.

Lemma is_complete_iff (legs : Pair) :
  is_complete legs = true
  <-> exists p s, pair_Payment legs = Some p /\ pair_Security legs = Some s
                  /\ status p <> "Canceled" /\ status s <> "Canceled".
Proof.
  unfold is_complete. destruct (pair_Payment legs) as [p|], (pair_Security legs) as [s|].
  - rewrite andb_true_iff, !negb_true_iff, !String.eqb_neq. split.
    + intros [H1 H2]. exists p, s. auto.
    + intros (p' & s' & Hp & Hs & H1 & H2). injection Hp as <-. injection Hs as <-. auto.
  - split; [discriminate|]. intros (p' & s' & _ & Hs & _). discriminate.
  - split; [discriminate|]. intros (p' & s' & Hp & _). discriminate.
  - split; [discriminate|]. intros (p' & s' & Hp & _). discriminate.
Qed.

Lemma get_set_eq {V : Type} (k : string) (v : V) (d : list (string * V)) :
  Dict.get k (Dict.set k v d) = Some v.
Proof.
  induction d as [|[k0 v0] d IH]; simpl.
  - rewrite String.eqb_refl. reflexivity.
  - destruct (String.eqb_spec k0 k) as [->|Hne]; simpl.
    + rewrite String.eqb_refl. reflexivity.
    + apply String.eqb_neq in Hne. rewrite Hne. exact IH.
Qed.

Lemma get_set_ne {V : Type} (k k' : string) (v : V) (d : list (string * V)) :
  k <> k' -> Dict.get k' (Dict.set k v d) = Dict.get k' d.
Proof.
  intros Hne. induction d as [|[k0 v0] d IH]; simpl.
  - apply String.eqb_neq in Hne. rewrite Hne. reflexivity.
  - destruct (String.eqb_spec k0 k) as [->|Hk]; simpl.
    + apply String.eqb_neq in Hne. rewrite Hne. reflexivity.
    + rewrite IH. reflexivity.
Qed.

Lemma legs_of_prepared tx pairs :
  legs_of tx (if Dict.mem tx pairs then pairs else Dict.set tx empty_pair pairs)
  = legs_of tx pairs.
Proof.
  unfold legs_of, Dict.mem. destruct (Dict.get tx pairs) as [v|] eqn:E.
  - rewrite E. reflexivity.
  - rewrite get_set_eq. reflexivity.
Qed.

(** The slots of [tx] after one validated instruction was put in. *)
Lemma legs_of_insert_leg pairs instr tx :
  let legs := legs_of tx (insert_leg pairs instr) in
  let put ty := status instr <> "Canceled" /\ transaction_id instr = tx
                /\ instruction_type instr = ty in
  pair_Payment legs
  = (if decide (put "Payment") then Some instr else pair_Payment (legs_of tx pairs))
  /\ pair_Security legs
     = (if decide (put "Security") then Some instr else pair_Security (legs_of tx pairs)).
Proof.
  intros legs put. subst legs put. unfold insert_leg.
  destruct (String.eqb_spec (status instr) "Canceled") as [Hc|Hc].
  { split; case_decide as H; try reflexivity; destruct H as [H _]; contradiction. }
  destruct (decide (transaction_id instr = tx)) as [<-|Hne].
  - unfold legs_of at 1 3. rewrite get_set_eq. simpl.
    change (default empty_pair (Dict.get (transaction_id instr) ?d))
      with (legs_of (transaction_id instr) d).
    rewrite legs_of_prepared. unfold set_slot.
    destruct (String.eqb_spec (instruction_type instr) "Payment") as [Hp|Hp].
    + split; case_decide as H; simpl; try reflexivity.
      * destruct H. auto.
      * destruct H as (_ & _ & H). rewrite Hp in H. discriminate.
    + destruct (String.eqb_spec (instruction_type instr) "Security") as [Hs|Hs].
      * split; case_decide as H; simpl; try reflexivity.
        -- destruct H as (_ & _ & H). contradiction.
        -- destruct H. auto.
      * split; case_decide as H; simpl; try reflexivity;
          destruct H as (_ & _ & H); contradiction.
  - unfold legs_of at 1 3. rewrite get_set_ne by assumption.
    assert (E : Dict.get tx (if Dict.mem (transaction_id instr) pairs then pairs
                             else Dict.set (transaction_id instr) empty_pair pairs)
                = Dict.get tx pairs).
    { destruct (Dict.mem (transaction_id instr) pairs); [reflexivity|].
      apply get_set_ne, Hne. }
    rewrite E. fold (legs_of tx pairs).
    split; case_decide as H; try reflexivity; destruct H as (_ & H & _); contradiction.
Qed.

(** The slots of [tx] after the whole validated queue was put in: the
    latest live leg of each kind, or else what the table held. *)
Lemma legs_of_fill l : forall pairs tx,
  let legs := legs_of tx (foldl insert_leg pairs l) in
  pair_Payment legs
  = from_option Some (pair_Payment (legs_of tx pairs)) (latest_leg "Payment" tx l)
  /\ pair_Security legs
     = from_option Some (pair_Security (legs_of tx pairs)) (latest_leg "Security" tx l).
Proof.
  induction l as [|i l IH]; intros pairs tx; simpl; [split; reflexivity|].
  destruct (IH (insert_leg pairs i) tx) as [HP HS].
  destruct (legs_of_insert_leg pairs i tx) as [IP IS].
  simpl in HP, HS, IP, IS. rewrite HP, HS, IP, IS. clear HP HS IP IS IH.
  unfold latest_leg. rewrite !filter_cons.
  split; case_decide as H; rewrite ?last_cons;
    match goal with |- context [last ?x] => destruct (last x) end; reflexivity.
Qed.

(** C3 (amended).  The Matching step puts every validated instruction that
    is not Canceled into the slot of its transaction and leg kind (the
    latest one wins, a slot without a new leg keeps what it held), empties
    the validated queue, and then keeps in the table exactly the
    transactions whose Payment slot and Security slot are both filled with
    neither leg Canceled.  Every other pair, in particular one with a
    single leg, is discarded at the end of the step, so an incomplete pair
    does not stay pending for a later tick. *)
Theorem matching_keeps_complete_pairs (m : SettlementModel) :
  let m' := matching_step m in
  validated_instructions m' = []
  /\ (forall tx legs,
        (tx, legs) ∈ matched_pairs m'
        <-> (tx, legs) ∈ fill_slots m
            /\ exists p s, pair_Payment legs = Some p /\ pair_Security legs = Some s
                            /\ status p <> "Canceled" /\ status s <> "Canceled")
  /\ (forall tx,
        pair_Payment (legs_of tx (fill_slots m))
        = from_option Some (pair_Payment (legs_of tx (matched_pairs m)))
            (latest_leg "Payment" tx (validated_instructions m))
        /\ pair_Security (legs_of tx (fill_slots m))
           = from_option Some (pair_Security (legs_of tx (matched_pairs m)))
               (latest_leg "Security" tx (validated_instructions m)))
  /\ (forall tx, tx ∈ Dict.keys (matched_pairs m') ->
        tx ∈ Dict.keys (matched_pairs m)
        \/ exists instr, instr ∈ validated_instructions m
                          /\ tx = transaction_id instr /\ status instr <> "Canceled").
Proof.
  intros m'. split; [reflexivity|]. split; [|split].
  - intros tx legs. subst m'. unfold matching_step. simpl.
    rewrite list_elem_of_filter. simpl. rewrite is_complete_iff. tauto.
  - intros tx. apply legs_of_fill.
  - intros tx H. subst m'. unfold matching_step in H. simpl in H.
    apply keys_filter in H. apply keys_fill_slots in H. exact H.
Qed.

Lemma matching_keeps_complete_pairs_witness :
  ("TX-1", mkPair (Some (Scenarios.pay_leg "TX-1" 10 20))
             (Some (Scenarios.sec_leg "TX-1" 10 20)))
  ∈ matched_pairs (matching_step Scenarios.m_both_legs).
Proof.
  destruct (matching_keeps_complete_pairs Scenarios.m_both_legs) as (_ & H & _ & _).
  apply H. split.
  - vm_compute. constructor.
  - eexists. eexists. repeat split; discriminate.
Defined.

End EuroclearFacts.

(** * More about the first program *)

Module AgentSimExtra.
Import AgentSim.

(** ** Cash *)

(** X1.  A debit of [d > 0] is applied exactly when [checkSufficientCash]
    accepts [d].  Then the call returns [-d]; the cash becomes [cash - d]
    if that is not negative, and otherwise the cash becomes 0 and the
    credit limit [creditLimit + (-d + cash)].  When cash, credit limit and
    [d] are integers of magnitude at most 2^50, so that no sum rounds, cash
    plus credit limit has gone down by [d].  When the test rejects [d] the
    account is untouched and the call returns 0. *)
Theorem cash_debit_iff_sufficient (a : AccountAgent) (d : Q) :
  0 < d ->
  let a' := (updateCashBalance (- d) a).1.1 in
  (checkSufficientCash a d = true
   /\ (updateCashBalance (- d) a).1.2 = - d
   /\ ((0 <= cashBalance a + - d
        /\ cashBalance a' = cashBalance a + - d /\ creditLimit a' = creditLimit a)
       \/ (cashBalance a + - d < 0
           /\ cashBalance a' = 0
           /\ creditLimit a' = creditLimit a + (- d + cashBalance a)))
   /\ (PyNum.exact (cashBalance a) = true -> PyNum.exact (creditLimit a) = true ->
       PyNum.exact d = true ->
       cashBalance a' + creditLimit a' == cashBalance a + creditLimit a - d))
  \/ (checkSufficientCash a d = false
      /\ (updateCashBalance (- d) a).1 = (a, 0)).
Proof.
  intros Hd. cbv zeta. unfold checkSufficientCash, updateCashBalance.
  destruct (PyNum.geb (cashBalance a + creditLimit a) d) eqn:Es; py_bool.
  - left. split; [reflexivity|].
    destruct (PyNum.ltb (- d) 0) eqn:Ea,
             (PyNum.ltb (cashBalance a + creditLimit a + - d) 0) eqn:Eb;
      py_bool; simpl; try lra;
      destruct (PyNum.geb (cashBalance a + - d) 0) eqn:Ec; py_bool; simpl;
      (split; [reflexivity|]);
      (split; [first [left; split; [exact Ec|]; split; reflexivity
                     | right; split; [exact Ec|]; split; reflexivity]|]);
      intros _ _ _; lra.
  - right. split; [reflexivity|].
    destruct (PyNum.ltb (- d) 0) eqn:Ea,
             (PyNum.ltb (cashBalance a + creditLimit a + - d) 0) eqn:Eb;
      py_bool; simpl; try reflexivity; lra.
Qed.

Lemma cash_debit_iff_sufficient_witness :
  (updateCashBalance (- (120)) Scenarios.acct_100_50).1.2 = - (120)
  /\ cashBalance (updateCashBalance (- (120)) Scenarios.acct_100_50).1.1
     + creditLimit (updateCashBalance (- (120)) Scenarios.acct_100_50).1.1
     == 100 + 50 - 120
  /\ (updateCashBalance (- (200)) Scenarios.acct_100_50).1 = (Scenarios.acct_100_50, 0).
Proof.
  split; [|split].
  - destruct (cash_debit_iff_sufficient Scenarios.acct_100_50 120) as [(_ & H & _)|[H _]];
      [reflexivity | exact H | discriminate H].
  - destruct (cash_debit_iff_sufficient Scenarios.acct_100_50 120)
      as [(_ & _ & _ & H)|[H _]]; [reflexivity | | discriminate H].
    apply H; reflexivity.
  - destruct (cash_debit_iff_sufficient Scenarios.acct_100_50 200) as [[H _]|[_ H]];
      [reflexivity | discriminate H | exact H].
Defined.

(** X2.  Whatever the amount, [updateCashBalance] either rejects it (a
    debit for which [(cash + creditLimit) + amount] is negative: nothing
    changes, 0 is returned) or applies it.  Applied, it returns the
    amount; the cash becomes [cash + amount] if that is not negative, and
    otherwise 0 with the credit limit at [creditLimit + (amount + cash)];
    the cash is not negative afterwards; and when cash, credit limit and
    amount are integers of magnitude at most 2^50, so that no sum rounds,
    cash plus credit limit has moved by exactly the amount.  In both cases
    the credit limit does not grow (used credit is never given back), and
    the holdings are untouched. *)
Theorem cash_update_accounting (a : AccountAgent) (amount : Q) :
  let a' := (updateCashBalance amount a).1.1 in
  let returned := (updateCashBalance amount a).1.2 in
  ((amount < 0 /\ cashBalance a + creditLimit a + amount < 0 /\ a' = a /\ returned = 0)
   \/ (returned = amount
       /\ ((0 <= cashBalance a + amount
            /\ cashBalance a' = cashBalance a + amount /\ creditLimit a' = creditLimit a)
           \/ (cashBalance a + amount < 0
               /\ cashBalance a' = 0
               /\ creditLimit a' = creditLimit a + (amount + cashBalance a)))
       /\ 0 <= cashBalance a'
       /\ (PyNum.exact (cashBalance a) = true -> PyNum.exact (creditLimit a) = true ->
           PyNum.exact amount = true ->
           cashBalance a' + creditLimit a' == cashBalance a + creditLimit a + amount)))
  /\ creditLimit a' <= creditLimit a
  /\ securities a' = securities a
  /\ accountID a' = accountID a.
Proof.
  unfold updateCashBalance.
  destruct (PyNum.ltb amount 0) eqn:Ea,
           (PyNum.ltb (cashBalance a + creditLimit a + amount) 0) eqn:Eb;
    py_bool; simpl.
  1: { split; [left; auto|]. split; [lra|]. split; reflexivity. }
  all: destruct (PyNum.geb (cashBalance a + amount) 0) eqn:Ec; py_bool; simpl;
    (split;
     [right; split; [reflexivity|];
      split; [first [left; split; [exact Ec|]; split; reflexivity
                    | right; split; [exact Ec|]; split; reflexivity]|];
      split; [lra|]; intros _ _ _; lra|]);
    (split; [lra|]); split; reflexivity.
Qed.

(** ** Holdings *)

Lemma holding_insert_same a ty v :
  holding (set_securities (<[ty := v]> (securities a)) a) ty = v.
Proof. unfold holding. simpl. rewrite lookup_insert_eq. reflexivity. Qed.

Lemma holding_insert_other a ty ty' v :
  ty <> ty' -> holding (set_securities (<[ty := v]> (securities a)) a) ty' = holding a ty'.
Proof. intros H. unfold holding. simpl. rewrite lookup_insert_ne by assumption. reflexivity. Qed.

(** X3.  [updateSecurities] changes the holding of the named security only, and
    neither cash nor credit limit.  It applies the amount exactly when the
    holding stays non-negative (for a debit [d]: exactly when
    [checkSufficientSecurities] accepts [d]); otherwise the account is
    untouched and 0 is returned. *)
Theorem securities_update_frame (a : AccountAgent) (ty : string) (amount : Q) :
  let a' := (updateSecurities ty amount a).1.1 in
  let returned := (updateSecurities ty amount a).1.2 in
  (forall ty', ty <> ty' -> holding a' ty' = holding a ty')
  /\ cashBalance a' = cashBalance a
  /\ creditLimit a' = creditLimit a
  /\ ((0 <= holding a ty + amount
       /\ holding a' ty = holding a ty + amount /\ returned = amount)
      \/ (holding a ty + amount < 0 /\ a' = a /\ returned = 0))
  /\ (checkSufficientSecurities a ty (- amount) = true <-> 0 <= holding a ty + amount).
Proof.
  unfold updateSecurities, checkSufficientSecurities.
  destruct (PyNum.ltb (holding a ty + amount) 0) eqn:E; py_bool; simpl.
  - split; [reflexivity|]. split; [reflexivity|]. split; [reflexivity|].
    split; [right; auto|]. rewrite PyNumFacts.geb_true. split; lra.
  - split; [intros ty' H; apply holding_insert_other, H|].
    split; [reflexivity|]. split; [reflexivity|].
    split; [left; split; [exact E|]; split; [apply holding_insert_same | reflexivity]|].
    rewrite PyNumFacts.geb_true. split; lra.
Qed.

(** X4.  Crediting [x >= 0] units of a security and debiting them again
    brings the holding back to where it was, when that was not negative and
    both numbers are integers of magnitude at most 2^50, so that neither
    sum rounds: both calls are applied. *)
Theorem securities_credit_debit_round_trip (a : AccountAgent) (ty : string) (x : Q) :
  0 <= holding a ty -> 0 <= x ->
  PyNum.exact (holding a ty) = true -> PyNum.exact x = true ->
  let a1 := (updateSecurities ty x a).1.1 in
  let a2 := (updateSecurities ty (- x) a1).1.1 in
  (updateSecurities ty x a).1.2 = x
  /\ (updateSecurities ty (- x) a1).1.2 = - x
  /\ holding a2 ty == holding a ty
  /\ forall ty', ty <> ty' -> holding a2 ty' = holding a ty'.
Proof.
  intros Hh Hx _ _ a1 a2.
  assert (H1 : (updateSecurities ty x a).1
               = (set_securities (<[ty := holding a ty + x]> (securities a)) a, x)).
  { unfold updateSecurities.
    destruct (PyNum.ltb (holding a ty + x) 0) eqn:E1; py_bool; [lra | reflexivity]. }
  assert (Ha1 : a1 = set_securities (<[ty := holding a ty + x]> (securities a)) a)
    by (subst a1; rewrite H1; reflexivity).
  assert (H2 : (updateSecurities ty (- x) a1).1
               = (set_securities (<[ty := holding a1 ty + - x]> (securities a1)) a1, - x)).
  { unfold updateSecurities.
    destruct (PyNum.ltb (holding a1 ty + - x) 0) eqn:E2; py_bool; [|reflexivity].
    rewrite Ha1, holding_insert_same in E2. lra. }
  subst a2. rewrite H1, H2. simpl.
  split; [reflexivity|]. split; [reflexivity|]. split.
  - rewrite holding_insert_same, Ha1, holding_insert_same. lra.
  - intros ty' H. rewrite holding_insert_other by assumption.
    rewrite Ha1. apply holding_insert_other, H.
Qed.

Lemma securities_credit_debit_round_trip_witness :
  holding (updateSecurities "bond" (- 30)
             (updateSecurities "bond" 30 Scenarios.seller_acct).1.1).1.1 "bond"
  == 80.
Proof.
  destruct (securities_credit_debit_round_trip Scenarios.seller_acct "bond" 30)
    as (_ & _ & H & _);
    [vm_compute; discriminate | vm_compute; discriminate | reflexivity | reflexivity |].
  rewrite H. reflexivity.
Defined.

(** ** Institutions *)

Lemma add_account_present x i : x ∈ accounts i -> (add_account x i).1 = i.
Proof.
  intros H. unfold add_account. rewrite bool_decide_eq_true_2 by assumption. reflexivity.
Qed.

Lemma add_account_absent x i :
  x ∉ accounts i ->
  (add_account x i).1
  = mkInstitutionAgent (institutionID i) (allow_partial i) (accounts i ++ [x]).
Proof.
  intros H. unfold add_account. rewrite bool_decide_eq_false_2 by assumption. reflexivity.
Qed.

(** X5.  [add_account] keeps the list of accounts free of duplicates: the
    account is in the list afterwards, the accounts already there stay,
    and adding it a second time changes nothing. *)
Theorem add_account_no_duplicates (i : InstitutionAgent) (x : nat) :
  NoDup (accounts i) ->
  let i' := (add_account x i).1 in
  NoDup (accounts i')
  /\ x ∈ accounts i'
  /\ (forall y, y ∈ accounts i' <-> y = x \/ y ∈ accounts i)
  /\ (add_account x i').1 = i'
  /\ allow_partial i' = allow_partial i.
Proof.
  intros Hnd i'. subst i'.
  destruct (decide (x ∈ accounts i)) as [E|E].
  - rewrite (add_account_present x i E).
    split; [exact Hnd|]. split; [exact E|].
    split; [intros y; split; [auto | intros [->|H]; assumption]|].
    split; [apply add_account_present, E | reflexivity].
  - rewrite (add_account_absent x i E). simpl.
    assert (Hin : x ∈ accounts i ++ [x]) by (apply elem_of_app; right; constructor).
    split.
    { apply NoDup_app. split; [exact Hnd|]. split; [|apply NoDup_singleton].
      intros y Hy Hy'. apply list_elem_of_singleton in Hy'. subst y. contradiction. }
    split; [exact Hin|].
    split.
    { intros y. rewrite elem_of_app, list_elem_of_singleton. tauto. }
    split; [|reflexivity].
    apply add_account_present. exact Hin.
Qed.

Lemma add_account_no_duplicates_witness :
  accounts (add_account 1 Scenarios.inst_two_accounts).1 = [0%nat; 1%nat]
  /\ NoDup (accounts (add_account 2 Scenarios.inst_two_accounts).1).
Proof.
  assert (Hnd : NoDup (accounts Scenarios.inst_two_accounts)).
  { refine (bool_decide_unpack _ _). vm_compute. exact I. }
  split; [reflexivity|].
  exact (proj1 (add_account_no_duplicates Scenarios.inst_two_accounts 2 Hnd)).
Defined.

(** X6.  The partial-settlement flag: a step that draws the toggle flips the
    flag and two such steps restore the institution; a step that does not
    draw it changes nothing; opting out (or in) twice is refused the second
    time with an ERROR line and no change.  The accounts are never
    touched. *)
Theorem partial_flag_toggle (i : InstitutionAgent) :
  allow_partial (institution_step true i).1 = negb (allow_partial i)
  /\ (institution_step true (institution_step true i).1).1 = i
  /\ (institution_step false i).1 = i
  /\ accounts (institution_step true i).1 = accounts i
  /\ opt_out_partial (opt_out_partial i).1
     = ((opt_out_partial i).1,
        [mkLog (NumId (institutionID i)) "ERROR: already opted out of partial settlements"])
  /\ opt_in_partial (opt_in_partial i).1
     = ((opt_in_partial i).1,
        [mkLog (NumId (institutionID i)) "ERROR: already opted in for partial settlements"]).
Proof.
  destruct i as [id [|] accts]; repeat split.
Qed.

(** X7.  Ending an account twice: the first call ends it, the second is
    refused with an ERROR line and changes nothing; balances and holdings
    are never touched. *)
Theorem end_account_once (a : AccountAgent) :
  state (end_account a).1 = "Ended"
  /\ end_account (end_account a).1
     = ((end_account a).1,
        [mkLog (NumId (accountID a)) "ERROR: Attempt to end an already ended Account"])
  /\ cashBalance (end_account a).1 = cashBalance a
  /\ creditLimit (end_account a).1 = creditLimit a
  /\ securities (end_account a).1 = securities a.
Proof.
  assert (Hended : forall b, state b = "Ended" ->
            end_account b
            = (b, [mkLog (NumId (accountID b)) "ERROR: Attempt to end an already ended Account"])).
  { intros b Hb. unfold end_account. rewrite Hb. reflexivity. }
  destruct (String.eqb_spec (state a) "Ended") as [E|E].
  - rewrite !(Hended a E). simpl. rewrite (Hended a E). repeat split. exact E.
  - assert (H1 : (end_account a).1 = set_state "Ended" a).
    { unfold end_account. apply String.eqb_neq in E. rewrite E. reflexivity. }
    rewrite !H1. rewrite (Hended (set_state "Ended" a) eq_refl). repeat split.
Qed.

(** ** Instructions and transactions *)

Lemma call_account_Some r f m a :
  model_accounts m !! r = Some a ->
  call_account r f m
  = (mkModel (participants m) (<[r := (f a).1.1]> (model_accounts m))
       (activity_log m ++ (f a).2),
     (f a).1.2).
Proof.
  intros H. unfold call_account. rewrite H. destruct (f a) as [[a' ret] lines]. reflexivity.
Qed.

Lemma call_account_lookup r f m a :
  model_accounts m !! r = Some a ->
  model_accounts (call_account r f m).1 !! r = Some (f a).1.1.
Proof.
  intros H. rewrite (call_account_Some _ _ _ _ H). simpl.
  apply list_lookup_insert_eq, (lookup_lt_Some _ _ _ H).
Qed.

(** X8.  [createChildren] of a seller never creates anything nor touches an
    account: the amount it would split is the truth value of a failed
    sufficiency test. *)
Theorem createChildren_seller_noop (self : InstructionAgent) (m : SettlementModel) :
  role self = "seller" -> createChildren self m = Returned m.
Proof.
  intros Hr. unfold createChildren. rewrite Hr.
  destruct (model_accounts m !! account self) as [acct|]; [|reflexivity]. simpl.
  destruct (checkSufficientSecurities acct (securityType self) (amount self)); reflexivity.
Qed.

Lemma createChildren_seller_noop_witness :
  createChildren (Scenarios.leg "seller_3" "seller" 500 1) Scenarios.sim_model
  = Returned Scenarios.sim_model.
Proof. apply createChildren_seller_noop. reflexivity. Defined.

(** X9.  [createChildren] of a buyer that cannot pay: with nothing available
    the model is returned unchanged; with something available the account
    is first debited of all of it, [-(cash + creditLimit)], and the call
    then raises [AttributeError], since an instruction has no model to
    register the children with.  The debit leaves the cash at
    [cash - (cash + creditLimit)] if that is not negative, and otherwise at
    0 with the credit limit at [creditLimit + (-(cash + creditLimit) + cash)];
    the cash is not negative afterwards, and when cash and credit limit are
    integers of magnitude at most 2^50, so that no sum rounds, cash plus
    credit limit is then zero. *)
Theorem createChildren_buyer_drains (self : InstructionAgent) (m : SettlementModel)
  (acct : AccountAgent) :
  role self = "buyer" ->
  model_accounts m !! account self = Some acct ->
  checkSufficientCash acct (amount self) = false ->
  let available_cash := cashBalance acct + creditLimit acct in
  (available_cash <= 0 /\ createChildren self m = Returned m)
  \/ (0 < available_cash
      /\ exists m' acct',
           createChildren self m = Raised "AttributeError" m'
           /\ model_accounts m' !! account self = Some acct'
           /\ ((0 <= cashBalance acct + - available_cash
                /\ cashBalance acct' = cashBalance acct + - available_cash
                /\ creditLimit acct' = creditLimit acct)
               \/ (cashBalance acct + - available_cash < 0
                   /\ cashBalance acct' = 0
                   /\ creditLimit acct'
                      = creditLimit acct + (- available_cash + cashBalance acct)))
           /\ 0 <= cashBalance acct'
           /\ (PyNum.exact (cashBalance acct) = true ->
               PyNum.exact (creditLimit acct) = true ->
               cashBalance acct' + creditLimit acct' == 0)
           /\ securities acct' = securities acct
           /\ participants m' = participants m).
Proof.
  intros Hr Ha Hs. cbv zeta. unfold createChildren. rewrite Hr, Ha, Hs. simpl.
  unfold getCashBalance, getCreditLimit.
  destruct (PyNum.gtb (cashBalance acct + creditLimit acct) 0) eqn:E; py_bool.
  2: { left. auto. }
  right. split; [exact E|]. eexists. eexists. split; [reflexivity|].
  split; [apply call_account_lookup, Ha|].
  rewrite (call_account_Some _ _ _ _ Ha). simpl.
  unfold updateCashBalance.
  destruct (PyNum.ltb (- (cashBalance acct + creditLimit acct)) 0) eqn:E1,
           (PyNum.ltb (cashBalance acct + creditLimit acct
                       + - (cashBalance acct + creditLimit acct)) 0) eqn:E2;
    py_bool; simpl; try lra;
    destruct (PyNum.geb (cashBalance acct + - (cashBalance acct + creditLimit acct)) 0) eqn:E3;
    py_bool; simpl;
    (split; [first [left; split; [exact E3|]; split; reflexivity
                   | right; split; [exact E3|]; split; reflexivity]|]);
    (split; [lra|]); (split; [intros _ _; lra|]); split; reflexivity.
Qed.

Lemma createChildren_buyer_drains_witness :
  exists m' acct',
    createChildren (Scenarios.leg "buyer_3" "buyer" 60 0) Scenarios.opted_out_model
    = Raised "AttributeError" m'
    /\ model_accounts m' !! 0%nat = Some acct'
    /\ cashBalance acct' + creditLimit acct' == 0.
Proof.
  destruct (createChildren_buyer_drains (Scenarios.leg "buyer_3" "buyer" 60 0)
              Scenarios.opted_out_model Scenarios.poor_buyer_acct)
    as [[H _]|[_ (m' & a' & H1 & H2 & _ & _ & H3 & _)]]; try reflexivity.
  - vm_compute in H. contradiction H. reflexivity.
  - exists m', a'. split; [exact H1|]. split; [exact H2|]. apply H3; reflexivity.
Defined.

Lemma call_account_cash_returned r x m :
  (call_account r (updateCashBalance x) m).2 = 0
  \/ (call_account r (updateCashBalance x) m).2 = x.
Proof.
  unfold call_account. destruct (model_accounts m !! r) as [a|]; [|auto].
  unfold updateCashBalance.
  destruct (PyNum.ltb x 0 && PyNum.ltb (cashBalance a + creditLimit a + x) 0); simpl; auto.
Qed.

(** X10.  [TransactionAgent.settle] compares the deltas returned by the two
    updates with 0, and the deltas of a debit are negative: a transaction
    for an amount that is not negative is never marked [Settled] by it,
    whatever the balances. *)
Theorem settle_never_settled (self : TransactionAgent) (m : SettlementModel) :
  0 <= tx_amount self ->
  tx_state self <> "Settled" ->
  tx_state (result_state (TransactionAgent_settle self m)).1 <> "Settled".
Proof.
  intros Hamt Hst. unfold TransactionAgent_settle.
  destruct (settleable (tx_state self)); [|exact Hst].
  destruct (checkCash (buyer self) && checkSecurities (seller self)).
  - set (m0 := log_event "attempting to settle" (NumId (TransactionID self)) m).
    pose proof (call_account_cash_returned (account (buyer self)) (- tx_amount self) m0) as Hret.
    destruct (call_account (account (buyer self)) (updateCashBalance (- tx_amount self)) m0)
      as [m1 buyer_settled].
    destruct (call_account (account (seller self)) _ m1) as [m2 seller_settled].
    simpl in Hret.
    assert (Hb : PyNum.gtb buyer_settled 0 = false).
    { apply PyNumFacts.gtb_false. destruct Hret as [->| ->]; lra. }
    rewrite Hb. simpl. discriminate.
  - destruct (createChildren (buyer self) _) as [m1|e m1]; simpl; [|exact Hst].
    destruct (createChildren (seller self) m1) as [m2|e m2]; simpl; [discriminate|exact Hst].
Qed.

Lemma settle_never_settled_witness :
  tx_state (result_state
              (TransactionAgent_settle (Scenarios.matched_tx 60) Scenarios.sim_model)).1
  <> "Settled".
Proof.
  apply settle_never_settled; [vm_compute | simpl]; discriminate.
Defined.

(** X11.  [TransactionAgent.step] leaves a transaction that is [Settled] or
    [Failed] as it is: it only logs that the step was executed. *)
Theorem step_terminal (self : TransactionAgent) (m : SettlementModel) :
  tx_state self = "Settled" \/ tx_state self = "Failed" ->
  TransactionAgent_step self m
  = Returned (self, log_event "executing step" (NumId (TransactionID self)) m).
Proof.
  intros [H|H]; unfold TransactionAgent_step, settleable;
    rewrite H; simpl; rewrite H; simpl; rewrite H; reflexivity.
Qed.

Lemma step_terminal_witness :
  TransactionAgent_step (set_tx_state "Failed" (Scenarios.matched_tx 60)) Scenarios.sim_model
  = Returned (set_tx_state "Failed" (Scenarios.matched_tx 60),
              log_event "executing step" (NumId 3) Scenarios.sim_model).
Proof. apply step_terminal. right. reflexivity. Defined.

(** X12.  A pending transaction between a buyer and a seller, for an amount that
    is not negative, is validated, matched and attempted within one step,
    and that step ends with the transaction marked [Failed]: the attempt
    cannot end in [Settled]. *)
Theorem pending_step_fails (self : TransactionAgent) (m : SettlementModel) :
  tx_state self = "Pending" ->
  role (buyer self) = "buyer" ->
  role (seller self) = "seller" ->
  0 <= tx_amount self ->
  exists m',
    TransactionAgent_step self m = Returned (set_tx_state "Failed" self, m')
    /\ participants m' = participants m
    /\ length (model_accounts m') = length (model_accounts m).
Proof.
  intros Hst Hb Hs Hamt.
  unfold TransactionAgent_step, TransactionAgent_validate, TransactionAgent_match, settleable.
  rewrite Hst. simpl. rewrite Hb, Hs. simpl.
  unfold TransactionAgent_settle, settleable, checkCash, checkSecurities. simpl.
  rewrite Hb, Hs. simpl.
  match goal with |- context [call_account ?r (updateCashBalance ?x) ?m0] =>
    pose proof (call_account_cash_returned r x m0) as Hret;
    assert (Hlen : participants (call_account r (updateCashBalance x) m0).1 = participants m
                   /\ length (model_accounts (call_account r (updateCashBalance x) m0).1)
                      = length (model_accounts m));
    [unfold call_account; destruct (model_accounts m0 !! r) as [a|] eqn:Ea;
       [destruct (updateCashBalance x a) as [[a' ret] l]; simpl; rewrite length_insert;
        split; reflexivity
       |split; reflexivity]|];
    destruct (call_account r (updateCashBalance x) m0) as [m1 buyer_settled]
  end.
  simpl in Hret, Hlen.
  match goal with |- context [call_account ?r ?f m1] =>
    assert (Hlen2 : participants (call_account r f m1).1 = participants m1
                    /\ length (model_accounts (call_account r f m1).1)
                       = length (model_accounts m1));
    [unfold call_account; destruct (model_accounts m1 !! r) as [a|] eqn:Ea;
       [destruct (f a) as [[a' ret] l]; simpl; rewrite length_insert; split; reflexivity
       |split; reflexivity]|];
    destruct (call_account r f m1) as [m2 seller_settled]
  end.
  simpl in Hlen2.
  assert (Hg : PyNum.gtb buyer_settled 0 = false).
  { apply PyNumFacts.gtb_false. destruct Hret as [->| ->]; lra. }
  rewrite Hg. simpl. eexists. split; [reflexivity|]. simpl.
  destruct Hlen as [P1 L1], Hlen2 as [P2 L2]. split; congruence.
Qed.

Lemma pending_step_fails_witness :
  exists m',
    TransactionAgent_step (set_tx_state "Pending" (Scenarios.matched_tx 60)) Scenarios.sim_model
    = Returned (set_tx_state "Failed" (Scenarios.matched_tx 60), m').
Proof.
  destruct (pending_step_fails (set_tx_state "Pending" (Scenarios.matched_tx 60))
              Scenarios.sim_model) as [m' [H _]]; try reflexivity.
  - vm_compute. discriminate.
  - exists m'. exact H.
Defined.

(** X13.  [InstructionAgent.settle] of a seller never raises.  With enough of
    the security the instruction is marked [settled] and the holding goes
    down by the amount, cash and credit limit staying as they were; without,
    it is marked [failed] and nothing changes. *)
Theorem seller_settle (self : InstructionAgent) (m : SettlementModel) (acct : AccountAgent) :
  role self = "seller" ->
  model_accounts m !! account self = Some acct ->
  (checkSufficientSecurities acct (securityType self) (amount self) = true
   /\ exists m' acct',
        InstructionAgent_settle self m = Returned (set_status "settled" self, m')
        /\ model_accounts m' !! account self = Some acct'
        /\ holding acct' (securityType self)
           = holding acct (securityType self) + - amount self
        /\ cashBalance acct' = cashBalance acct
        /\ creditLimit acct' = creditLimit acct)
  \/ (checkSufficientSecurities acct (securityType self) (amount self) = false
      /\ InstructionAgent_settle self m = Returned (set_status "failed" self, m)).
Proof.
  intros Hr Ha. unfold InstructionAgent_settle. rewrite Ha, Hr. simpl.
  destruct (checkSufficientSecurities acct (securityType self) (amount self)) eqn:E.
  - left. split; [reflexivity|]. eexists. eexists. split; [reflexivity|].
    split; [apply call_account_lookup, Ha|].
    unfold checkSufficientSecurities in E. py_bool.
    unfold updateSecurities.
    destruct (PyNum.ltb (holding acct (securityType self) + - amount self) 0) eqn:E2;
      py_bool; [lra|]. simpl.
    split; [apply holding_insert_same|]. split; reflexivity.
  - right. auto.
Qed.

Lemma seller_settle_witness :
  exists m',
    InstructionAgent_settle (Scenarios.leg "seller_3" "seller" 60 1) Scenarios.sim_model
    = Returned (set_status "settled" (Scenarios.leg "seller_3" "seller" 60 1), m').
Proof.
  destruct (seller_settle (Scenarios.leg "seller_3" "seller" 60 1) Scenarios.sim_model
              Scenarios.seller_acct eq_refl eq_refl) as [[_ (m' & a' & H & _)]|[H _]].
  - exists m'. exact H.
  - vm_compute in H. discriminate H.
Defined.

End AgentSimExtra.

(** * More about the settlement pipeline *)

Module EuroclearExtra.
Import Euroclear EuroclearFacts.

(** ** Accounts *)

(** X14.  An account at or above its minimum balance stays there: a
    withdrawal either keeps it there or is refused, and never changes the
    minimum; a deposit of a non-negative amount keeps it there.  When the
    balance and the amount are integers of magnitude at most 2^50, so that
    no sum rounds, depositing an amount and withdrawing it again is
    accepted and gives back the balance, and so does an accepted withdrawal
    followed by a deposit. *)
Theorem account_min_balance_kept (a : Account) (amount : Q) :
  min_balance a <= balance a ->
  min_balance (withdraw amount a).1 <= balance (withdraw amount a).1
  /\ min_balance (withdraw amount a).1 = min_balance a
  /\ (0 <= amount -> min_balance (deposit amount a) <= balance (deposit amount a))
  /\ (PyNum.exact (balance a) = true -> PyNum.exact amount = true ->
      (withdraw amount (deposit amount a)).2 = true
      /\ balance (withdraw amount (deposit amount a)).1 == balance a
      /\ ((withdraw amount a).2 = true ->
          balance (deposit amount (withdraw amount a).1) == balance a)).
Proof.
  intros Hmin.
  assert (Hc : check_balance (deposit amount a) amount = true)
    by (apply check_balance_true; simpl; lra).
  unfold withdraw. rewrite Hc.
  destruct (check_balance a amount) eqn:E; simpl.
  - apply check_balance_true in E.
    split; [exact E|]. split; [reflexivity|]. split; [lra|].
    intros _ _. split; [reflexivity|]. split; [lra|]. intros _. lra.
  - split; [exact Hmin|]. split; [reflexivity|]. split; [lra|].
    intros _ _. split; [reflexivity|]. split; [lra|]. intros H. discriminate H.
Qed.

Lemma account_min_balance_kept_witness :
  balance (withdraw 500 (deposit 500 (mkAccount "Cash" 10000 10000))).1 == 10000
  /\ (withdraw 1 (mkAccount "Cash" 10000 10000)).1 = mkAccount "Cash" 10000 10000.
Proof.
  split; [|reflexivity].
  destruct (account_min_balance_kept (mkAccount "Cash" 10000 10000) 500)
    as (_ & _ & _ & H); [vm_compute; discriminate|].
  destruct H as (_ & H & _); [reflexivity | reflexivity | exact H].
Defined.

(** ** The checks of the Settlement stage *)





(** ** The store during a transfer *)



Lemma accounts_of_update r f m :
  (forall i, cash_account (f i) = cash_account i
             /\ security_account (f i) = security_account i) ->
  accounts_of (update_institution r f m) = accounts_of m.
Proof.
  intros Hf. unfold update_institution, accounts_of.
  destruct (institutions m !! r) as [i|] eqn:Hi; [|reflexivity]. simpl.
  rewrite list_fmap_insert. apply list_insert_id.
  rewrite list_lookup_fmap, Hi. simpl. destruct (Hf i) as [-> ->]. reflexivity.
Qed.

Lemma accounts_of_send_message from r ty c m :
  accounts_of (send_message from r ty c m) = accounts_of m.
Proof. apply accounts_of_update. intros i. split; reflexivity. Qed.










(** ** One report *)

Lemma logs_without_refl e m : logs_without e m m.
Proof. intros row H. auto. Qed.

Lemma logs_without_trans e m1 m2 m3 :
  logs_without e m1 m2 -> logs_without e m2 m3 -> logs_without e m1 m3.
Proof.
  intros H12 H23 row H. apply H23 in H as [H|H]; [apply H12, H | auto].
Qed.



Lemma logs_without_app e m m' rows :
  logger m' = logger m ++ rows -> Forall (fun r => row_event r <> e) rows ->
  logs_without e m m'.
Proof.
  intros E Hr row H. rewrite E in H. apply elem_of_app in H as [H|H]; [auto|].
  right. rewrite Forall_forall in Hr. apply Hr, H.
Qed.


(** ** The inbox *)

Lemma set_logger_id m : set_logger (logger m) m = m.
Proof. destruct m; reflexivity. Qed.

Lemma process_message_fold self_name msgs : forall m,
  foldl (process_message self_name) m msgs
  = set_logger (logger m ++ omap (message_row (current_step m) self_name) msgs) m.
Proof.
  induction msgs as [|msg msgs IH]; intros m.
  - simpl. rewrite app_nil_r, set_logger_id. reflexivity.
  - cbn [foldl]. rewrite IH. unfold process_message.
    cbn [omap list_omap]. unfold message_row at 2.
    destruct (String.eqb (msg_type msg) "validation_result").
    + destruct (String.eqb (lookup_str "status" (content msg)) "Invalid");
        unfold log; simpl; rewrite <- app_assoc; reflexivity.
    + destruct (String.eqb (msg_type msg) "settlement_confirmation").
      * unfold log; simpl; rewrite <- app_assoc; reflexivity.
      * reflexivity.
Qed.

Lemma message_row_event step self_name msgs :
  Forall (fun r => row_event r <> "SettlementFailed")
    (omap (message_row step self_name) msgs).
Proof.
  apply Forall_forall. intros r Hr. apply list_elem_of_omap in Hr as (msg & _ & Hr).
  unfold message_row in Hr.
  destruct (String.eqb (msg_type msg) "validation_result").
  - destruct (String.eqb (lookup_str "status" (content msg)) "Invalid");
      injection Hr as <-; discriminate.
  - destruct (String.eqb (msg_type msg) "settlement_confirmation"); [|discriminate].
    injection Hr as <-. discriminate.
Qed.

Lemma length_omap_le {A B : Type} (f : A -> option B) (l : list A) :
  (length (omap f l) <= length l)%nat.
Proof.
  induction l as [|x l IH]; [reflexivity|].
  cbn [omap list_omap]. destruct (f x); simpl; fold (omap f l); lia.
Qed.

Lemma process_messages_unfold self m i :
  institutions m !! self = Some i ->
  process_messages self m
  = set_logger (logger m ++ omap (message_row (current_step m) (name i)) (inbox i))
      (set_institutions (<[self := set_inbox [] i]> (institutions m)) m).
Proof.
  intros H. unfold process_messages. rewrite H.
  rewrite process_message_fold. unfold update_institution. rewrite H. reflexivity.
Qed.

(** X15.  [process_messages], for an inbox whose messages carry the keys the
    handler reads: it empties the inbox of the institution and of no other,
    logs one row for each validation result and each settlement
    confirmation in the order of arrival, drops a message of any other type
    without a trace, and leaves accounts, queues and confirmations alone. *)
Theorem process_messages_drains_inbox self m i :
  institutions m !! self = Some i ->
  inbox_keyed i ->
  let m' := process_messages self m in
  institutions m' = <[self := set_inbox [] i]> (institutions m)
  /\ logger m' = logger m ++ omap (message_row (current_step m) (name i)) (inbox i)
  /\ (length (logger m') <= length (logger m) + length (inbox i))%nat
  /\ accounts_of m' = accounts_of m
  /\ queues m' = queues m
  /\ settlement_confirmations m' = settlement_confirmations m.
Proof.
  intros H _. cbn zeta. rewrite (process_messages_unfold self m i H).
  split; [reflexivity|]. split; [reflexivity|].
  split.
  { simpl. rewrite length_app. apply Nat.add_le_mono_l, length_omap_le. }
  split.
  { unfold accounts_of. simpl. rewrite list_fmap_insert. simpl.
    apply list_insert_id. rewrite list_lookup_fmap, H. reflexivity. }
  split; reflexivity.
Qed.

Lemma process_messages_drains_inbox_witness :
  logger (process_messages 0 Scenarios.m_mail)
  = [mkRow 0 "Institution_1" "ReceivedInvalidation" "TX-1-P";
     mkRow 0 "Institution_1" "SettlementConfirmation" "TX-0"]
  /\ inbox <$> institutions (process_messages 0 Scenarios.m_mail) = [[]; []].
Proof.
  destruct (process_messages_drains_inbox 0 Scenarios.m_mail Scenarios.inst_mail)
    as (I & L & _).
  - reflexivity.
  - repeat constructor.
  - split; [rewrite L | rewrite I]; reflexivity.
Defined.

Lemma accounts_of_insert_inbox r i v m :
  institutions m !! r = Some i ->
  accounts_of (set_institutions (<[r := set_inbox v i]> (institutions m)) m) = accounts_of m.
Proof.
  intros H. unfold accounts_of. simpl. rewrite list_fmap_insert. simpl.
  apply list_insert_id. rewrite list_lookup_fmap, H. reflexivity.
Qed.

(** What [InstitutionAgent.step] leaves alone. *)
Lemma institution_step_frame self cancel_choice initiate m :
  let m' := institution_step self cancel_choice initiate m in
  accounts_of m' = accounts_of m
  /\ validated_instructions m' = validated_instructions m
  /\ matched_pairs m' = matched_pairs m
  /\ clearing_reports m' = clearing_reports m
  /\ positioning_reports m' = positioning_reports m
  /\ settlement_confirmations m' = settlement_confirmations m
  /\ total_possible_net m' = total_possible_net m
  /\ logs_without "SettlementFailed" m m'.
Proof.
  unfold institution_step.
  destruct (institutions m !! self) as [me|] eqn:Hme.
  2:{ repeat split; try reflexivity. apply logs_without_refl. }
  assert (H1 : accounts_of (process_messages self m) = accounts_of m
               /\ validated_instructions (process_messages self m) = validated_instructions m
               /\ matched_pairs (process_messages self m) = matched_pairs m
               /\ clearing_reports (process_messages self m) = clearing_reports m
               /\ positioning_reports (process_messages self m) = positioning_reports m
               /\ settlement_confirmations (process_messages self m)
                  = settlement_confirmations m
               /\ total_possible_net (process_messages self m) = total_possible_net m
               /\ logs_without "SettlementFailed" m (process_messages self m)).
  { rewrite (process_messages_unfold self m me Hme).
    split; [apply (accounts_of_insert_inbox self me [] m Hme)|].
    repeat (split; [reflexivity|]).
    eapply logs_without_app; [reflexivity|apply message_row_event]. }
  generalize dependent (process_messages self m). intros m1 H1.
  destruct H1 as (A & V & M & C & P & S & T & L).
  assert (Hlog : forall a ev t m2 m3,
            ev <> "SettlementFailed" -> logs_without "SettlementFailed" m m2 ->
            logger m3 = logger m2 ->
            logs_without "SettlementFailed" m (log a ev t m3)).
  { intros a ev t m2 m3 Hev H2 E. eapply logs_without_trans; [exact H2|].
    eapply logs_without_app; [unfold log; simpl; rewrite E; reflexivity|].
    repeat constructor. exact Hev. }
  destruct cancel_choice as [tx|]; [destruct (bool_decide _)|];
    (destruct initiate as [[[c q] p]|]; [destruct (_ && _)|]); simpl;
    repeat (split; [assumption|]); try assumption;
    repeat (eapply Hlog; [discriminate| |reflexivity]); try assumption.
Qed.

(** ** Validation *)

Lemma cancel_tx_validate tx i : validate (cancel_tx tx i) = validate i.
Proof.
  unfold cancel_tx, cancel. destruct (_ && _); [|reflexivity].
  destruct (live (status i)); reflexivity.
Qed.

Lemma cancel_all_validate txs : forall i, validate (cancel_all txs i) = validate i.
Proof.
  unfold cancel_all. induction txs as [|tx txs IH]; intros i; [reflexivity|].
  simpl. rewrite IH. apply cancel_tx_validate.
Qed.

Lemma cancel_pass_entries (items : list QueueItem) : forall m,
  let m' := foldl cancel_pass m items in
  (forall e, e ∈ matched_pairs m' -> e ∈ matched_pairs m)
  /\ total_possible_net m' = total_possible_net m.
Proof.
  induction items as [|it items IH]; intros m; [split; auto|].
  cbn [foldl]. destruct (IH (cancel_pass m it)) as [He Ht].
  destruct it as [i|c]; [split; assumption|].
  cbn zeta in *.
  assert (H : (forall e, e ∈ matched_pairs (cancel_pass m (Cancellation c)) ->
                         e ∈ matched_pairs m)
              /\ total_possible_net (cancel_pass m (Cancellation c)) = total_possible_net m).
  { unfold cancel_pass, process_cancel_instruction. cbn zeta.
    destruct (Dict.mem _ _); simpl; split; auto.
    intros e H. unfold Dict.del in H. apply list_elem_of_filter in H. tauto. }
  destruct H as [He' Ht']. split; [auto|congruence].
Qed.

Lemma validate_fold_books (pending : list SettlementInstruction) : forall m,
  let m' := foldl validate_item m (Instruction <$> pending) in
  accounts_of m' = accounts_of m /\ total_possible_net m' = total_possible_net m.
Proof.
  induction pending as [|i pending IH]; intros m; [split; reflexivity|].
  cbn [fmap list_fmap foldl].
  change (list_fmap _ _ Instruction pending) with (Instruction <$> pending).
  destruct (IH (validate_item m (Instruction i))) as [Ha Ht]. cbn zeta in *.
  rewrite Ha, Ht. unfold validate_item.
  destruct (String.eqb (status i) "Canceled"); [split; reflexivity|].
  destruct (validate i); simpl.
  - rewrite send_message_total_possible_net.
    change (accounts_of (log "ValidationAgent" "ValidatedInstruction" (instruction_id i)
                           (send_message "ValidationAgent" (sendingInstitution i)
                              "validation_result"
                              [("instruction_id", instruction_id i); ("status", "Valid")]
                              (set_validated_instructions (validated_instructions m ++ [i]) m))))
      with (accounts_of (send_message "ValidationAgent" (sendingInstitution i)
                           "validation_result"
                           [("instruction_id", instruction_id i); ("status", "Valid")]
                           (set_validated_instructions (validated_instructions m ++ [i]) m))).
    rewrite accounts_of_send_message. split; reflexivity.
  - rewrite send_message_total_possible_net.
    change (accounts_of (log "ValidationAgent" "ValidatedInstruction" (instruction_id i)
                           (send_message "ValidationAgent" (sendingInstitution i)
                              "validation_result"
                              [("instruction_id", instruction_id i); ("status", "Invalid")] m)))
      with (accounts_of (send_message "ValidationAgent" (sendingInstitution i)
                           "validation_result"
                           [("instruction_id", instruction_id i); ("status", "Invalid")] m)).
    rewrite accounts_of_send_message. split; reflexivity.
Qed.

(** What [ValidationAgent.step] does to the books and to the queues behind
    it. *)
Lemma validation_step_frame m :
  let m' := validation_step m in
  accounts_of m' = accounts_of m
  /\ (forall i, i ∈ validated_instructions m' ->
         validate i = true
         \/ exists i0, i0 ∈ validated_instructions m /\ validate i = validate i0)
  /\ (forall e, e ∈ matched_pairs m' -> e ∈ matched_pairs m)
  /\ clearing_reports m' = clearing_reports m
  /\ positioning_reports m' = positioning_reports m
  /\ settlement_confirmations m' = settlement_confirmations m
  /\ total_possible_net m' = total_possible_net m
  /\ logs_without "SettlementFailed" m m'.
Proof.
  cbn zeta. rewrite validation_step_unfold. cbn zeta.
  set (txs := queued_cancellations (instructions m)).
  set (pending := cancel_all txs <$> queued_instructions (instructions m)).
  set (m1 := foldl cancel_pass m (instructions m)).
  destruct (cancel_pass_fold (instructions m) m) as (_ & V1 & I1 & S1 & L1).
  destruct (cancel_pass_rest (instructions m) m) as (_ & C1 & P1 & _ & F1).
  destruct (cancel_pass_entries (instructions m) m) as (E1 & T1).
  fold txs m1 in V1, I1, S1, L1, C1, P1, F1, E1, T1.
  destruct (validate_fold pending (set_instructions [] m1)) as (_ & V2 & _ & S2 & L2).
  destruct (validate_fold_rest pending (set_instructions [] m1)) as (M2 & C2 & P2 & _ & F2).
  destruct (validate_fold_books pending (set_instructions [] m1)) as (A2 & T2).
  cbn zeta in *.
  set (m2 := foldl validate_item (set_instructions [] m1) (Instruction <$> pending)) in *.
  simpl in V2, S2, L2, M2, C2, P2, F2, T2.
  split.
  { rewrite A2. unfold accounts_of. simpl. rewrite I1. reflexivity. }
  split.
  { intros i Hi. rewrite V2, V1 in Hi. apply elem_of_app in Hi as [Hi|Hi].
    - apply list_elem_of_fmap in Hi as (i0 & -> & Hi0). right. exists i0.
      split; [exact Hi0|apply cancel_all_validate].
    - apply list_elem_of_filter in Hi as [Hv _]. left. exact Hv. }
  split; [intros e He; apply E1; rewrite <- M2; exact He|].
  split; [congruence|]. split; [congruence|]. split; [congruence|].
  split; [congruence|].
  eapply logs_without_app.
  - rewrite L2, L1, <- app_assoc. reflexivity.
  - apply Forall_app. split; apply Forall_forall; intros r Hr.
    + unfold cancel_rows in Hr. apply list_elem_of_fmap in Hr as (x & -> & _). discriminate.
    + apply list_elem_of_fmap in Hr as (x & -> & _). unfold validation_row. simpl.
      destruct (String.eqb (status x) "Canceled"); discriminate.
Qed.

(** ** Matching *)







(** ** Clearing *)

Lemma filter_all {A : Type} (P : A -> Prop) `{!forall x, Decision (P x)} (l : list A) :
  Forall P l -> filter P l = l.
Proof.
  induction 1 as [|x l Hx _ IH]; [reflexivity|].
  rewrite filter_cons_True by exact Hx. rewrite IH. reflexivity.
Qed.

Lemma filter_none {A : Type} (P : A -> Prop) `{!forall x, Decision (P x)} (l : list A) :
  Forall (fun x => ~ P x) l -> filter P l = [].
Proof.
  induction 1 as [|x l Hx _ IH]; [reflexivity|].
  rewrite filter_cons_False by exact Hx. exact IH.
Qed.

Lemma clear_pair_both tx legs p s m :
  pair_Payment legs = Some p -> pair_Security legs = Some s ->
  clear_pair (tx, legs) m
  = Returned
      match report_of (tx, legs) with
      | Some r =>
          drop_pair tx
            (log "ClearingAgent" "ClearingReport" tx
               (set_total_possible_net (total_possible_net m + cr_net_amount r)
                  (set_clearing_reports (clearing_reports m ++ [r]) m)))
      | None => drop_pair tx (log "ClearingAgent" "CanceledPair" tx m)
      end.
Proof.
  intros Ep Es. unfold clear_pair, report_of. simpl. rewrite Ep, Es.
  destruct (String.eqb (status p) "Canceled"); [reflexivity|].
  destruct (String.eqb (status s) "Canceled"); reflexivity.
Qed.

Lemma clear_pairs l : forall m,
  both_legs l ->
  exists m',
    for_each clear_pair l m = Returned m'
    /\ institutions m' = institutions m
    /\ instructions m' = instructions m
    /\ validated_instructions m' = validated_instructions m
    /\ matched_pairs m' = filter (fun kv => kv.1 ∉ l.*1) (matched_pairs m)
    /\ clearing_reports m' = clearing_reports m ++ omap report_of l
    /\ positioning_reports m' = positioning_reports m
    /\ settlement_confirmations m' = settlement_confirmations m
    /\ tx_counter m' = tx_counter m
    /\ current_step m' = current_step m
    /\ total_possible_net m' = add_nets (total_possible_net m) (omap report_of l)
    /\ logger m' = logger m ++ (clearing_row (current_step m) <$> l).
Proof.
  induction l as [|[tx legs] l IH]; intros m Hl.
  - exists m. simpl. rewrite !app_nil_r.
    repeat (split; [reflexivity|]). split; [|repeat split; reflexivity].
    symmetry. apply filter_all, Forall_forall. intros x _. apply not_elem_of_nil.
  - destruct (Hl (tx, legs)) as (p & s & Ep & Es); [apply elem_of_cons; auto|].
    simpl in Ep, Es.
    assert (Hl' : both_legs l).
    { intros e He. apply Hl, elem_of_cons. auto. }
    assert (Hdel : forall mp : list (string * Pair),
              filter (fun kv => kv.1 ∉ l.*1) (Dict.del tx mp)
              = filter (fun kv => kv.1 ∉ ((tx, legs) :: l).*1) mp).
    { intros mp. unfold Dict.del. rewrite list_filter_filter.
      apply list_filter_iff. intros kv. simpl. rewrite not_elem_of_cons. tauto. }
    change (for_each clear_pair ((tx, legs) :: l) m)
      with (match clear_pair (tx, legs) m with
            | Returned m' => for_each clear_pair l m'
            | Raised e m' => Raised e m'
            end).
    rewrite (clear_pair_both tx legs p s m Ep Es).
    change (omap report_of ((tx, legs) :: l))
      with (match report_of (tx, legs) with
            | Some r => r :: omap report_of l
            | None => omap report_of l
            end).
    change (clearing_row (current_step m) <$> (tx, legs) :: l)
      with (clearing_row (current_step m) (tx, legs) :: (clearing_row (current_step m) <$> l)).
    unfold clearing_row at 1. cbn [fst].
    destruct (report_of (tx, legs)) as [r|].
    + match goal with
      | |- exists m', for_each clear_pair l ?m1 = _ /\ _ =>
          destruct (IH m1 Hl') as (m' & R & I & Q1 & V & M & C & P & S & X & K & T & L)
      end.
      exists m'. split; [exact R|]. simpl in *.
      rewrite Hdel in M. rewrite <- app_assoc in L, C.
      repeat (split; [assumption|]). assumption.
    + destruct (IH (drop_pair tx (log "ClearingAgent" "CanceledPair" tx m)) Hl')
        as (m' & R & I & Q1 & V & M & C & P & S & X & K & T & L).
      exists m'. split; [exact R|]. simpl in *.
      rewrite Hdel in M. rewrite <- app_assoc in L.
      repeat (split; [assumption|]). assumption.
Qed.

Lemma sum_app (l1 l2 : list Q) :
  foldr Qplus 0 (l1 ++ l2) == foldr Qplus 0 l1 + foldr Qplus 0 l2.
Proof.
  induction l1 as [|x l1 IH]; simpl; [ring|]. rewrite IH. ring.
Qed.


Lemma filter_own_keys (pairs : list (string * Pair)) :
  filter (fun kv => kv.1 ∉ pairs.*1) pairs = [].
Proof.
  apply filter_none, Forall_forall. intros kv Hkv Hn. apply Hn.
  apply list_elem_of_fmap. exists kv. auto.
Qed.



(** X17.  Run right after [MatchingAgent.step], [ClearingAgent.step] never
    raises, whatever the model was before: the entries Matching keeps hold
    both legs, none of them Canceled, so each of them yields a report and
    the table is empty afterwards. *)
Theorem clearing_after_matching_returns m :
  exists m',
    clearing_step (matching_step m) = Returned m'
    /\ matched_pairs m' = []
    /\ length (clearing_reports m')
       = (length (clearing_reports m) + length (matched_pairs (matching_step m)))%nat.
Proof.
  assert (Hc : forall e, e ∈ matched_pairs (matching_step m) -> is_complete e.2 = true).
  { intros e He. unfold matching_step in He. simpl in He.
    apply list_elem_of_filter in He as [Hc _]. exact Hc. }
  change (clearing_reports m) with (clearing_reports (matching_step m)).
  generalize dependent (matching_step m). clear m. intros m Hc.
  assert (Hl : both_legs (matched_pairs m)).
  { intros e He. apply Hc, is_complete_iff in He as (p & s & Ep & Es & _). eauto. }
  unfold clearing_step.
  destruct (clear_pairs _ m Hl) as (m' & R & _ & _ & _ & M & C & _).
  rewrite R. cbn [bind]. eexists. split; [reflexivity|]. simpl.
  split; [rewrite M; apply filter_own_keys|].
  rewrite C, length_app. f_equal.
  generalize (matched_pairs m) Hc. clear.
  induction l as [|e l IH]; intros Hc; [reflexivity|].
  cbn [omap list_omap].
  assert (He : is_complete e.2 = true) by (apply Hc, elem_of_cons; auto).
  unfold report_of at 1. unfold is_complete in He.
  destruct (pair_Payment e.2) as [p|]; [|discriminate].
  destruct (pair_Security e.2) as [s|]; [|discriminate].
  apply andb_true_iff in He as [Hp Hs].
  apply negb_true_iff in Hp, Hs. rewrite Hp, Hs. simpl.
  f_equal. apply IH. intros x Hx. apply Hc, elem_of_cons. auto.
Qed.

(** ** Positioning *)

Lemma position_fold_books reports : forall m,
  let m' := foldl position_report m reports in
  institutions m' = institutions m
  /\ total_possible_net m' = total_possible_net m
  /\ current_step m' = current_step m
  /\ logger m'
     = logger m
       ++ ((fun r => mkRow (current_step m) "PositioningAgent" "PositioningReport"
                       (cr_transaction_id r)) <$> reports).
Proof.
  induction reports as [|r reports IH]; intros m.
  - simpl. rewrite app_nil_r. repeat split; reflexivity.
  - cbn [foldl]. destruct (IH (position_report m r)) as (I & T & K & L).
    cbn zeta in *. rewrite I, T, K, L. simpl. rewrite <- app_assoc.
    repeat split; reflexivity.
Qed.

Lemma sum_positioned reports :
  foldr Qplus 0 (pr_net_amount <$> (positioned <$> reports))
  = foldr Qplus 0 (cr_net_amount <$> reports).
Proof. rewrite <- list_fmap_compose. reflexivity. Qed.

(** X18.  [PositioningAgent.step] turns the clearing reports into positioning
    reports one for one, in order and behind the reports already waiting,
    with the same parties, quantity and net amount; it empties the clearing
    queue, so the net amount on its way to settlement is unchanged, and it
    touches neither the accounts nor the other queues. *)
Theorem positioning_step_fifo m :
  let m' := positioning_step m in
  positioning_reports m' = positioning_reports m ++ (positioned <$> clearing_reports m)
  /\ clearing_reports m' = []
  /\ pending_net m' == pending_net m
  /\ institutions m' = institutions m
  /\ queues m' = (instructions m, validated_instructions m, matched_pairs m, [],
                  positioning_reports m', tx_counter m)
  /\ settlement_confirmations m' = settlement_confirmations m.
Proof.
  cbn zeta. unfold positioning_step.
  destruct (position_fold (clearing_reports m) m) as (I & V & M & _ & P & X & S).
  destruct (position_fold_books (clearing_reports m) m) as (N & _).
  cbn zeta in *. unfold queues, pending_net. simpl.
  rewrite I, V, M, P, X, S, N.
  change (list_fmap _ _ ?f ?l) with (f <$> l).
  change (fun r : ClearingReport =>
            mkPositioningReport (cr_transaction_id r) (cr_payer r) (cr_deliverer r)
              (cr_quantity r) (cr_net_amount r)) with positioned.
  repeat (split; [reflexivity|]). split; [|repeat split; reflexivity].
  rewrite fmap_app, sum_app, sum_positioned. ring.
Qed.

Lemma positioning_step_books m :
  let m' := positioning_step m in
  accounts_of m' = accounts_of m
  /\ validated_instructions m' = validated_instructions m
  /\ matched_pairs m' = matched_pairs m
  /\ clearing_reports m' = []
  /\ positioning_reports m' = positioning_reports m ++ (positioned <$> clearing_reports m)
  /\ settlement_confirmations m' = settlement_confirmations m
  /\ total_possible_net m' = total_possible_net m
  /\ logs_without "SettlementFailed" m m'.
Proof.
  cbn zeta. unfold positioning_step.
  destruct (position_fold (clearing_reports m) m) as (_ & V & M & _ & P & _ & S).
  destruct (position_fold_books (clearing_reports m) m) as (I & T & K & L).
  cbn zeta in *. unfold accounts_of. simpl. rewrite I, V, M, P, S, T.
  repeat (split; [reflexivity|]).
  eapply logs_without_app.
  - simpl. rewrite L, <- app_assoc. reflexivity.
  - apply Forall_app. split; [|repeat constructor; discriminate].
    apply Forall_forall. intros row Hr. apply list_elem_of_fmap in Hr as (e & -> & _).
    discriminate.
Qed.

(** ** Settlement *)



(** ** The stages keep well-formed states well-formed *)






(** ** Inboxes *)

















(** ** Runs from a well-formed state *)

(** A state with four funded institutions and empty queues is
    well-formed. *)
Ltac initial_sound :=
  split;
  [ repeat (apply Forall_cons; split; [split; vm_compute; discriminate|]); apply Forall_nil_2
  | split; [|split; [|split]]; intros;
    match goal with
    | H : _ ∈ _ |- _ => simpl in H; apply elem_of_nil in H; destruct H
    end ].


Lemma new_model_sound : sound new_SettlementModel.
Proof.
  initial_sound.
Qed.

Lemma new_model_accounted : accounted new_SettlementModel.
Proof. split; vm_compute; discriminate. Qed.







(** ** Matching again *)

(** X25.  [MatchingAgent.step] is idempotent on the table: run a second time
    with nothing newly validated, it keeps exactly the entries it kept the
    first time, in the same order, and the validated queue stays empty. *)
Theorem matching_step_idempotent m :
  matched_pairs (matching_step (matching_step m)) = matched_pairs (matching_step m)
  /\ validated_instructions (matching_step (matching_step m)) = [].
Proof.
  split; [|reflexivity].
  unfold matching_step at 1. simpl. unfold fill_slots. simpl.
  apply filter_all, Forall_forall. intros e He.
  apply list_elem_of_filter in He as [Hc _]. exact Hc.
Qed.

(** ** One transaction through the pipeline *)

Lemma initiation_appends_legs self cp q p m a b :
  institutions m !! self = Some a ->
  institutions m !! cp = Some b ->
  cp <> self ->
  let m' := institution_step self None (Some (cp, q, p)) m in
  let tx := tx_name (tx_counter m) in
  instructions m'
  = instructions m ++ [Instruction (payment_leg tx self cp q p);
                       Instruction (security_leg tx self cp q p)]
  /\ tx_counter m' = (tx_counter m + 1)%nat.
Proof.
  intros Ha Hb Hne. cbn zeta. unfold institution_step. rewrite Ha.
  rewrite (process_messages_unfold self m a Ha). cbn zeta.
  assert (Hlt : bool_decide
                  (cp < length (institutions
                                  (set_logger
                                     (logger m
                                      ++ omap (message_row (current_step m) (name a)) (inbox a))
                                     (set_institutions
                                        (<[self := set_inbox [] a]> (institutions m)) m))))%nat
                = true).
  { apply bool_decide_eq_true_2. simpl. rewrite length_insert.
    exact (lookup_lt_Some _ _ _ Hb). }
  rewrite Hlt. apply Nat.eqb_neq in Hne. rewrite Hne. simpl. split; reflexivity.
Qed.

Lemma nil_of_subset {A : Type} (l : list A) : (forall x, x ∈ l -> x ∈ @nil A) -> l = [].
Proof.
  intros H. destruct l as [|x l]; [reflexivity|].
  exfalso. apply (not_elem_of_nil x), H, elem_of_cons. auto.
Qed.

Lemma cancel_all_nil i : cancel_all [] i = i.
Proof. reflexivity. Qed.

Lemma validation_of_fresh_legs m P S :
  instructions m = [Instruction P; Instruction S] ->
  status P = "New" -> status S = "New" ->
  validate P = true -> validate S = true ->
  validated_instructions (validation_step m) = validated_instructions m ++ [P; S]
  /\ instructions (validation_step m) = [].
Proof.
  intros Hi HP HS VP VS. rewrite validation_step_unfold. cbn zeta. rewrite Hi.
  cbn [queued_cancellations queued_instructions omap list_omap fmap list_fmap].
  rewrite !cancel_all_nil.
  destruct (validate_fold [P; S] (set_instructions [] (foldl cancel_pass m [Instruction P; Instruction S])))
    as (I & V & _).
  cbn zeta in I, V.
  change (Instruction <$> [P; S]) with [Instruction P; Instruction S] in I, V.
  rewrite I, V. clear I V. simpl.
  assert (NP : status P <> "Canceled") by (rewrite HP; discriminate).
  assert (NS : status S <> "Canceled") by (rewrite HS; discriminate).
  rewrite (filter_cons_True (fun i => status i <> "Canceled") P [S] NP).
  rewrite (filter_cons_True (fun i => status i <> "Canceled") S [] NS).
  rewrite filter_nil.
  rewrite (filter_cons_True (fun i => validate i = true) P [S] VP).
  rewrite (filter_cons_True (fun i => validate i = true) S [] VS).
  rewrite filter_nil. split; reflexivity.
Qed.

Lemma matching_of_fresh_legs m tx self cp q p :
  validated_instructions m = [payment_leg tx self cp q p; security_leg tx self cp q p] ->
  matched_pairs m = [] ->
  matched_pairs (matching_step m)
  = [(tx, mkPair (Some (payment_leg tx self cp q p)) (Some (security_leg tx self cp q p)))].
Proof.
  intros Hv Hm. unfold matching_step, fill_slots. rewrite Hv, Hm.
  cbn [matched_pairs log set_logger set_matched_pairs set_validated_instructions foldl].
  unfold insert_leg. cbn [status payment_leg security_leg transaction_id].
  cbn [String.eqb Ascii.eqb Bool.eqb].
  unfold Dict.mem.
  repeat (progress (cbn [Dict.get Dict.set default from_option id];
                    rewrite ?String.eqb_refl)).
  unfold set_slot. cbn [instruction_type payment_leg security_leg].
  cbn [String.eqb Ascii.eqb Bool.eqb pair_Payment pair_Security empty_pair].
  rewrite filter_cons_True by reflexivity. reflexivity.
Qed.

Lemma lookup_accounts m m' r i :
  accounts_of m' = accounts_of m -> institutions m !! r = Some i ->
  exists i', institutions m' !! r = Some i'
             /\ cash_account i' = cash_account i
             /\ security_account i' = security_account i.
Proof.
  intros A H. apply (f_equal (fun l => l !! r)) in A. unfold accounts_of in A.
  rewrite !list_lookup_fmap, H in A. simpl in A.
  destruct (institutions m' !! r) as [i'|]; [|discriminate].
  simpl in A. injection A as Ec Es. exists i'. auto.
Qed.

Lemma settle_funded_report report m a b :
  institutions m !! pr_payer report = Some a ->
  institutions m !! pr_deliverer report = Some b ->
  check_balance (cash_account a) (pr_net_amount report) = true ->
  check_balance (security_account b) (pr_quantity report) = true ->
  settle_report report m
  = Returned (transfer report (pr_net_amount report) (pr_quantity report) false m).
Proof.
  intros Ha Hb Hc Hs. unfold settle_report. rewrite Ha, Hb.
  unfold cash_check. rewrite Hc. cbn [negb]. cbv iota.
  unfold security_check. rewrite Hs. reflexivity.
Qed.

(** X26.  The happy path, end to end.  In a model with empty queues, an
    institution with a readable inbox initiates a transaction of [quantity]
    units at [price] with another institution; the payer can pay the net
    amount and the deliverer can deliver the quantity without going below
    their minimum balances.  Then one pass of the pipeline returns with
    exactly one new confirmation, a Full settlement of the fresh transaction
    for the quantity and the net amount [quantity * price]; the payer holds
    the net amount less cash and the quantity more securities, the deliverer
    the reverse; and the queues are empty again. *)
Theorem trade_settles_in_full m self cp q p a b :
  instructions m = [] -> validated_instructions m = [] -> matched_pairs m = [] ->
  clearing_reports m = [] -> positioning_reports m = [] ->
  institutions m !! self = Some a ->
  institutions m !! cp = Some b ->
  cp <> self ->
  inbox_keyed a ->
  0 < q -> 0 < p ->
  check_balance (cash_account a) (q * p) = true ->
  check_balance (security_account b) q = true ->
  exists m',
    run (trade self cp q p) m = Returned m'
    /\ settlement_confirmations m'
       = settlement_confirmations m
         ++ [mkConfirmation (tx_name (tx_counter m)) "Full" q (q * p)]
    /\ balance <$> (cash_account <$> institutions m' !! self)
       = Some (balance (cash_account a) - q * p)
    /\ balance <$> (security_account <$> institutions m' !! self)
       = Some (balance (security_account a) + q)
    /\ balance <$> (cash_account <$> institutions m' !! cp)
       = Some (balance (cash_account b) + q * p)
    /\ balance <$> (security_account <$> institutions m' !! cp)
       = Some (balance (security_account b) - q)
    /\ instructions m' = [] /\ validated_instructions m' = [] /\ matched_pairs m' = []
    /\ clearing_reports m' = [] /\ positioning_reports m' = [].
Proof.
  intros Hi Hv Hm Hcl Hpo Ha Hb Hne _ Hq Hp Hc Hs.
  set (tx := tx_name (tx_counter m)).
  set (P := payment_leg tx self cp q p). set (S := security_leg tx self cp q p).
  (* the institution *)
  set (m1 := institution_step self None (Some (cp, q, p)) m).
  destruct (initiation_appends_legs self cp q p m a b Ha Hb Hne) as [I1 _].
  destruct (institution_step_frame self None (Some (cp, q, p)) m)
    as (A1 & V1 & M1 & C1 & P1 & S1 & _).
  cbn zeta in I1, A1, V1, M1, C1, P1, S1.
  fold m1 tx in I1, A1, V1, M1, C1, P1, S1. fold P S in I1.
  rewrite Hi in I1. rewrite Hv in V1. rewrite Hm in M1. rewrite Hcl in C1. rewrite Hpo in P1.
  simpl in I1.
  (* validation *)
  assert (VP : validate P = true) by (apply validate_iff; auto).
  assert (VS : validate S = true) by (apply validate_iff; auto).
  set (m2 := validation_step m1).
  destruct (validation_of_fresh_legs m1 P S I1 eq_refl eq_refl VP VS) as [V2 I2].
  destruct (validation_step_frame m1) as (A2 & _ & M2 & C2 & P2 & S2 & _).
  cbn zeta in A2, M2, C2, P2, S2. fold m2 in V2, I2, A2, M2, C2, P2, S2.
  rewrite V1 in V2. simpl in V2. rewrite M1 in M2. apply nil_of_subset in M2.
  rewrite C1 in C2. rewrite P1 in P2.
  (* matching *)
  set (m3 := matching_step m2).
  pose proof (matching_of_fresh_legs m2 tx self cp q p V2 M2) as M3.
  fold m3 P S in M3.
  (* clearing *)
  assert (Hl : both_legs (matched_pairs m3)).
  { rewrite M3. intros e He. apply list_elem_of_singleton in He as ->.
    exists P, S. split; reflexivity. }
  destruct (clear_pairs (matched_pairs m3) m3 Hl)
    as (m4 & R4 & N4 & I4 & V4 & M4 & C4 & P4 & S4 & _).
  rewrite filter_own_keys in M4. rewrite M3 in C4.
  change (clearing_reports m3) with (clearing_reports m2) in C4. rewrite C2 in C4.
  change (positioning_reports m3) with (positioning_reports m2) in P4. rewrite P2 in P4.
  change (instructions m3) with (instructions m2) in I4. rewrite I2 in I4.
  change (validated_instructions m3) with (@nil SettlementInstruction) in V4.
  change (settlement_confirmations m3) with (settlement_confirmations m2) in S4.
  change (institutions m3) with (institutions m2) in N4.
  cbn in C4.
  set (m4' := log "ClearingAgent" "ClearingComplete" "" m4).
  (* positioning *)
  set (m5 := positioning_step m4').
  destruct (positioning_step_books m4') as (A5 & V5 & M5 & C5 & P5 & S5 & _).
  cbn zeta in A5, V5, M5, C5, P5, S5. fold m5 in A5, V5, M5, C5, P5, S5.
  rewrite (eq_refl : validated_instructions m4' = validated_instructions m4) in V5.
  rewrite (eq_refl : matched_pairs m4' = matched_pairs m4) in M5.
  rewrite (eq_refl : positioning_reports m4' = positioning_reports m4) in P5.
  rewrite (eq_refl : clearing_reports m4' = clearing_reports m4) in P5.
  rewrite (eq_refl : settlement_confirmations m4' = settlement_confirmations m4) in S5.
  rewrite V4 in V5. rewrite M4 in M5. rewrite P4, C4 in P5.
  set (report := mkPositioningReport tx self cp q (q * p)).
  assert (P5' : positioning_reports m5 = [report]) by (rewrite P5; reflexivity).
  assert (I5 : instructions m5 = []).
  { destruct (position_fold (clearing_reports m4') m4') as (I & _). cbn zeta in I.
    change (instructions (foldl position_report m4' (clearing_reports m4')) = []).
    rewrite I. exact I4. }
  assert (A : accounts_of m5 = accounts_of m).
  { rewrite A5. unfold accounts_of. change (institutions m4') with (institutions m4).
    rewrite N4. exact (eq_trans A2 A1). }
  (* settlement *)
  destruct (lookup_accounts m m5 self a A Ha) as (a5 & Ha5 & Eac & Eas).
  destruct (lookup_accounts m m5 cp b A Hb) as (b5 & Hb5 & Ebc & Ebs).
  assert (R6 : settle_report report m5 = Returned (transfer report (q * p) q false m5)).
  { apply (settle_funded_report report m5 a5 b5 Ha5 Hb5).
    - rewrite Eac. exact Hc.
    - rewrite Ebs. exact Hs. }
  assert (Hne' : pr_payer report <> pr_deliverer report) by (simpl; auto).
  destruct (settled_transfer report (q * p) q false m5 a5 b5 Ha5 Hb5 Hne')
    as (F6 & Bac & Bas & Bbc & Bbs).
  { rewrite Eac. exact Hc. }
  { rewrite Ebs. exact Hs. }
  destruct (transfer_queues report (q * p) q false m5) as [Q6 _].
  cbn zeta in F6, Bac, Bas, Bbc, Bbs, Q6.
  set (m6 := transfer report (q * p) q false m5) in *.
  unfold queues in Q6. injection Q6 as I6 V6 M6 C6 _ _.
  change (pr_payer report) with self in Bac, Bas.
  change (pr_deliverer report) with cp in Bbc, Bbs.
  exists (set_positioning_reports [] m6).
  split.
  { unfold trade, run. cbn [for_each step]. fold m1 m2 m3.
    unfold clearing_step. rewrite R4. cbn [bind]. fold m4' m5.
    unfold settlement_step. rewrite P5'. cbn [for_each].
    rewrite R6. reflexivity. }
  split.
  { simpl. rewrite F6, S5, S4, S2, S1. reflexivity. }
  cbn [institutions set_positioning_reports].
  split.
  { change cash_account with (get_account Cash). rewrite Bac. simpl. rewrite Eac. reflexivity. }
  split.
  { change security_account with (get_account Security). rewrite Bas. simpl.
    rewrite Eas. reflexivity. }
  split.
  { change cash_account with (get_account Cash). rewrite Bbc. simpl. rewrite Ebc. reflexivity. }
  split.
  { change security_account with (get_account Security). rewrite Bbs. simpl.
    rewrite Ebs. reflexivity. }
  cbn [instructions validated_instructions matched_pairs clearing_reports
       positioning_reports set_positioning_reports].
  split; [exact (eq_trans I6 I5)|]. split; [exact (eq_trans V6 V5)|].
  split; [exact (eq_trans M6 M5)|]. split; [exact (eq_trans C6 C5)|reflexivity].
Qed.

Lemma trade_settles_in_full_witness :
  exists m',
    run (trade 0 1 10 20) new_SettlementModel = Returned m'
    /\ settlement_confirmations m' = [mkConfirmation "TX-1" "Full" 10 (10 * 20)]
    /\ balance <$> (cash_account <$> institutions m' !! 0%nat) = Some (1000000 - 10 * 20)
    /\ balance <$> (security_account <$> institutions m' !! 1%nat) = Some (10000 - 10).
Proof.
  destruct (trade_settles_in_full new_SettlementModel 0 1 10 20
              (new_InstitutionAgent 1 "Institution_1") (new_InstitutionAgent 2 "Institution_2"))
    as (m' & R & F & Bac & _ & _ & Bbs & _); try reflexivity.
  - discriminate.
  - apply Forall_nil_2.
  - exists m'. split; [exact R|]. split; [exact F|]. split; [exact Bac | exact Bbs].
Defined.

End EuroclearExtra.
